(** * Automatic-API-Docs: route reflection, handler analysis and change analysis

    A shallow embedding of the introspection and change-analysis engine:
    - [RouteReflector]: [_cleanPath] and [_extractPathParameters]
      (autodoc/reflect/RouteReflector.js);
    - [ASTAnalyzer]: the handler analysis over a Babel syntax tree
      (autodoc/ast/ASTAnalyzer.js);
    - [DocumentationBuilder]: the assembly of one documentation record
      (autodoc/builder/DocumentationBuilder.js);
    - [SemanticVersionManager]: [analyzeChanges], [_detectModifications] and
      [bumpVersion] (autodoc/version/VersionManager.js).

    JavaScript strings are modelled as [string]; every character class the
    code tests is ASCII.  JavaScript numbers are modelled as [Z]: the code
    only stores, compares and prints the numeric literals it meets. *)

From Stdlib Require Import String Ascii List ZArith NArith Bool Lia.
From Stdlib Require Import Numbers.DecimalString.
Import ListNotations.

#[global] Set Warnings "-register-all".

Local Open Scope list_scope.
Local Open Scope string_scope.

(* ================================================================== *)
(** * Part I: the embedding *)
(* ================================================================== *)

(** ** String primitives of the host language *)

Module JSString.

(** [s.startsWith(p)] *)
Fixpoint startsWith (p s : string) : bool :=
  match p with
  | EmptyString => true
  | String a p' =>
      match s with
      | EmptyString => false
      | String b s' => Ascii.eqb a b && startsWith p' s'
      end
  end.

(** [s.replace(/pat/g, rep)] for a pattern [pat] that is a literal,
    non-empty character sequence: the matches are found left to right and
    do not overlap; the search resumes right after each match.  [skip]
    counts the characters of the current match that are still to be
    consumed. *)
Fixpoint replaceAll_from (pat rep : string) (skip : nat) (s : string) : string :=
  match s with
  | EmptyString => EmptyString
  | String c s' =>
      match skip with
      | S k => replaceAll_from pat rep k s'
      | O =>
          if startsWith pat s
          then rep ++ replaceAll_from pat rep (String.length pat - 1) s'
          else String c (replaceAll_from pat rep 0 s')
      end
  end.

Definition replaceAll (pat rep s : string) : string :=
  replaceAll_from pat rep 0 s.

(** [s.includes(c)] for a single character. *)
Fixpoint has_char (c : ascii) (s : string) : bool :=
  match s with
  | EmptyString => false
  | String d s' => Ascii.eqb c d || has_char c s'
  end.

Definition in_range (lo hi c : ascii) : bool :=
  (N_of_ascii lo <=? N_of_ascii c)%N && (N_of_ascii c <=? N_of_ascii hi)%N.

(** [[a-zA-Z_]] *)
Definition is_ident_start (c : ascii) : bool :=
  in_range "a" "z" c || in_range "A" "Z" c || Ascii.eqb c "_".

(** [[a-zA-Z0-9_]], which is also [\w] *)
Definition is_ident_char (c : ascii) : bool :=
  is_ident_start c || in_range "0" "9" c.

(** The longest prefix made of [[a-zA-Z0-9_]] characters: what a greedy
    repetition of that class consumes. *)
Fixpoint take_ident (s : string) : string :=
  match s with
  | EmptyString => EmptyString
  | String c s' => if is_ident_char c then String c (take_ident s') else EmptyString
  end.

End JSString.

(** ** RouteReflector: the path normaliser *)

Module RouteReflector.
Import JSString.

(** [.replace(/\$$/g, '')]: without the multiline flag [$] only matches at
    the very end, so at most the last character is removed. *)
Fixpoint strip_end_anchor (s : string) : string :=
  match s with
  | EmptyString => EmptyString
  | String c EmptyString => if Ascii.eqb c "$" then EmptyString else s
  | String c s' => String c (strip_end_anchor s')
  end.

(** [.replace(/\/+/g, '/')]: every maximal run of separators becomes one
    separator. *)
Fixpoint collapse_separators (s : string) : string :=
  match s with
  | EmptyString => EmptyString
  | String c s' =>
      if Ascii.eqb c "/"
      then if startsWith "/" s'
           then collapse_separators s'
           else String "/" (collapse_separators s')
      else String c (collapse_separators s')
  end.

(** [_cleanPath(path)] *)
Definition _cleanPath (path : string) : string :=
  if String.eqb path "" then "/"
  else
    let path := replaceAll "\" "" path in
    let path := replaceAll "?(?=/|$)" "" path in
    let path := replaceAll "^/" "/" path in
    let path := strip_end_anchor path in
    let path := collapse_separators path in
    if negb (startsWith "/" path) then "/" ++ path else path.

(** The [while ((match = paramRegex.exec(path)) !== null)] loop of
    [_extractPathParameters], with
    a global pattern: a colon, one character of [a-zA-Z_], then greedily
    any number of characters of [a-zA-Z0-9_].  The leftmost colon that is
    followed by a letter or an underscore starts a match, the name is read
    greedily, and the next search starts where the match ended ([skip]
    counts the characters of the name still to be passed). *)
Fixpoint exec_loop (skip : nat) (path : string) : list string :=
  match path with
  | EmptyString => []
  | String c rest =>
      match skip with
      | S k => exec_loop k rest
      | O =>
          if Ascii.eqb c ":" then
            match rest with
            | EmptyString => []
            | String d _ =>
                if is_ident_start d
                then let name := take_ident rest in
                     name :: exec_loop (String.length name) rest
                else exec_loop 0 rest
            end
          else exec_loop 0 rest
      end
  end.

(** [_extractPathParameters(path)] *)
Definition _extractPathParameters (path : string) : list string :=
  exec_loop 0 path.

End RouteReflector.

(** ** Values of the host language *)

(** The values the modelled code builds and inspects: primitives, arrays and
    plain objects.  An object lists its own properties in the order they
    were created.  The host language moves integer-like keys to the front;
    that is not modelled, the code never depends on the order of the
    properties of an object. *)
Inductive jsval : Type :=
| VUndefined
| VNull
| VBool (b : bool)
| VNum (z : Z)
| VStr (s : string)
| VArr (elements : list jsval)
| VObj (fields : list (string * jsval)).

Module JS.

(** Truthiness, as tested by [if (v)], [v || w] and [!v]. *)
Definition truthy (v : jsval) : bool :=
  match v with
  | VUndefined | VNull => false
  | VBool b => b
  | VNum z => negb (z =? 0)%Z
  | VStr s => negb (String.eqb s "")
  | VArr _ | VObj _ => true
  end.

(** [a || b] *)
Definition or (a b : jsval) : jsval := if truthy a then a else b.

(** Equality of values.  On primitives this is [===] (and the SameValueZero
    comparison of [Set] and [includes]); the modelled code compares
    primitives only. *)
Fixpoint eqb (a b : jsval) {struct a} : bool :=
  match a, b with
  | VUndefined, VUndefined => true
  | VNull, VNull => true
  | VBool x, VBool y => Bool.eqb x y
  | VNum x, VNum y => (x =? y)%Z
  | VStr x, VStr y => String.eqb x y
  | VArr xs, VArr ys =>
      (fix all2 (xs ys : list jsval) {struct xs} : bool :=
         match xs, ys with
         | [], [] => true
         | x :: xs', y :: ys' => eqb x y && all2 xs' ys'
         | _, _ => false
         end) xs ys
  | VObj xs, VObj ys =>
      (fix all2 (xs ys : list (string * jsval)) {struct xs} : bool :=
         match xs, ys with
         | [], [] => true
         | (k, x) :: xs', (l, y) :: ys' => String.eqb k l && eqb x y && all2 xs' ys'
         | _, _ => false
         end) xs ys
  | _, _ => false
  end.

(** [String(n)] for an integer. *)
Definition string_of_Z (z : Z) : string := NilZero.string_of_int (Z.to_int z).

Definition string_of_nat (n : nat) : string := string_of_Z (Z.of_nat n).

(** [xs.join(sep)] on strings. *)
Fixpoint join (sep : string) (xs : list string) : string :=
  match xs with
  | [] => ""
  | [x] => x
  | x :: rest => x ++ sep ++ join sep rest
  end.

(** [String(v)], as used by template literals, [join] and property keys. *)
Fixpoint to_string (v : jsval) : string :=
  match v with
  | VUndefined => "undefined"
  | VNull => "null"
  | VBool true => "true"
  | VBool false => "false"
  | VNum z => string_of_Z z
  | VStr s => s
  | VArr xs =>
      join "," (map (fun x => match x with
                              | VUndefined | VNull => ""
                              | _ => to_string x
                              end) xs)
  | VObj _ => "[object Object]"
  end.

(** [typeof v] *)
Definition typeof (v : jsval) : string :=
  match v with
  | VUndefined => "undefined"
  | VNull | VArr _ | VObj _ => "object"
  | VBool _ => "boolean"
  | VNum _ => "number"
  | VStr _ => "string"
  end.

(** Own properties of a plain object: lookup, and creation or update of a
    property (an existing key keeps its place). *)
Fixpoint get (k : string) (o : list (string * jsval)) : option jsval :=
  match o with
  | [] => None
  | (k', v) :: o' => if String.eqb k k' then Some v else get k o'
  end.

Fixpoint define (k : string) (v : jsval) (o : list (string * jsval))
  : list (string * jsval) :=
  match o with
  | [] => [(k, v)]
  | (k', v') :: o' =>
      if String.eqb k k' then (k, v) :: o' else (k', v') :: define k v o'
  end.

(** [obj[key] = value] on an object created by [{}]: the key [__proto__]
    reaches the inherited setter, which creates no own property. *)
Definition assign (k : string) (v : jsval) (o : list (string * jsval))
  : list (string * jsval) :=
  if String.eqb k "__proto__" then o else define k v o.

(** [v.prop], [undefined] when the property is missing. *)
Definition prop (k : string) (v : jsval) : jsval :=
  match v with
  | VObj o => match get k o with Some x => x | None => VUndefined end
  | _ => VUndefined
  end.

Fixpoint index_entries (i : nat) (xs : list jsval) : list (string * jsval) :=
  match xs with
  | [] => []
  | x :: xs' => (string_of_nat i, x) :: index_entries (S i) xs'
  end.

Fixpoint chars (s : string) : list jsval :=
  match s with
  | EmptyString => []
  | String c s' => VStr (String c EmptyString) :: chars s'
  end.

(** [Object.entries(v)], also the properties copied by [{...v}]. *)
Definition entries (v : jsval) : list (string * jsval) :=
  match v with
  | VObj o => o
  | VArr xs => index_entries 0 xs
  | VStr s => index_entries 0 (chars s)
  | _ => []
  end.

(** [Object.keys(v)] *)
Definition keys (v : jsval) : list string := map fst (entries v).

(** [{...o, ...v}]: the properties of [v] are defined over those of [o]. *)
Definition spread_into (o : list (string * jsval)) (v : jsval)
  : list (string * jsval) :=
  fold_left (fun acc kv => define (fst kv) (snd kv) acc) (entries v) o.

(** [xs.join(sep)] on values: [null] and [undefined] print as nothing. *)
Definition join_values (sep : string) (xs : list jsval) : string :=
  join sep (map (fun x => match x with
                          | VUndefined | VNull => ""
                          | _ => to_string x
                          end) xs).

(** [xs.includes(v)] and [set.has(v)] *)
Definition includes (v : jsval) (xs : list jsval) : bool :=
  existsb (eqb v) xs.

(** [[...new Set(xs)]]: the first occurrence of every value, in order. *)
Fixpoint unique_from (seen xs : list jsval) : list jsval :=
  match xs with
  | [] => []
  | x :: xs' =>
      if includes x seen then unique_from seen xs'
      else x :: unique_from (x :: seen) xs'
  end.

Definition unique (xs : list jsval) : list jsval := unique_from [] xs.

End JS.

(** ** ASTAnalyzer: the handler analysis *)

(** The syntax tree the parser hands over.  The node kinds the analysis
    distinguishes are listed; every other kind is [OtherNode], which carries
    its child nodes in source order. *)
Inductive node : Type :=
| Identifier (name : string)
| StringLiteral (value : string)
| NumericLiteral (value : Z)
| BooleanLiteral (value : bool)
| NullLiteral
| TemplateLiteral (expressions : list node)
| ObjectExpression (properties : list node)
| ObjectProperty (key value : node)
| ObjectMethod (key : node) (params : list node) (body : node)
| SpreadElement (argument : node)
| ArrayExpression (elements : list (option node))
| MemberExpression (object property : node)
| CallExpression (callee : node) (arguments : list node)
| NewExpression (callee : node) (arguments : list node)
| ArrowFunctionExpression (async : bool) (params : list node) (body : node)
| FunctionExpression (id : option node) (async : bool) (params : list node) (body : node)
| FunctionDeclaration (id : option node) (async : bool) (params : list node) (body : node)
| ClassMethod (key : node) (async : bool) (params : list node) (body : node)
| ObjectPattern (properties : list node)
| ArrayPattern (elements : list (option node))
| RestElement (argument : node)
| VariableDeclaration (declarations : list node)
| VariableDeclarator (id : node) (init : option node)
| ExpressionStatement (expression : node)
| ReturnStatement (argument : option node)
| ThrowStatement (argument : node)
| BlockStatement (body : list node)
| Program (body : list node)
| File (program : node)
| OtherNode (children : list node).

Module ASTAnalyzer.

Record RequestUsage : Type := mkRequestUsage {
  body : list jsval;
  query : list jsval;
  params : list jsval;
  headers : list jsval
}.

Record ResponseUsage : Type := mkResponseUsage {
  statusCodes : list jsval;
  jsonCalls : list jsval;
  sendCalls : list jsval;
  structures : list jsval
}.

Record ThrownError : Type := mkThrownError {
  thrown_type : jsval;
  thrown_message : jsval
}.

Record FunctionAnalysis : Type := mkFunctionAnalysis {
  name : jsval;
  isAsync : bool;
  isArrow : bool;
  isClass : bool;
  parameters : list jsval;
  requestUsage : RequestUsage;
  responseUsage : ResponseUsage;
  thrown : list ThrownError;
  returnValues : list jsval
}.

Record FileAnalysis : Type := mkFileAnalysis {
  functions : list FunctionAnalysis;
  errors : list string
}.

Definition empty_analysis : FileAnalysis := mkFileAnalysis [] [].

(** [node.name] and [node.value] read off a node of any kind; a kind
    without the field gives [undefined]. *)
Definition get_name (n : node) : jsval :=
  match n with
  | Identifier x => VStr x
  | _ => VUndefined
  end.

Definition get_value (n : node) : jsval :=
  match n with
  | StringLiteral s => VStr s
  | NumericLiteral z => VNum z
  | BooleanLiteral b => VBool b
  | _ => VUndefined
  end.

Definition is_request_identifier (x : string) : bool :=
  String.eqb x "req" || String.eqb x "request".

Definition is_response_identifier (x : string) : bool :=
  String.eqb x "res" || String.eqb x "response".

(** [_extractLiteralValue(node)]; [None] is a missing node. *)
Definition _extractLiteralValue (n : option node) : jsval :=
  match n with
  | None => VNull
  | Some (StringLiteral s) => VStr s
  | Some (NumericLiteral z) => VNum z
  | Some (BooleanLiteral b) => VBool b
  | Some (TemplateLiteral _) => VStr "template_string"
  | Some (Identifier x) => VStr ("var:" ++ x)
  | Some NullLiteral => VNull
  | Some _ => VStr "complex_expression"
  end.

(** [prop.value] of a member of [node.properties]. *)
Definition property_value (p : node) : option node :=
  match p with
  | ObjectProperty _ v => Some v
  | _ => None
  end.

(** The body of [node.properties.forEach] in [_extractObjectStructure]. *)
Definition structure_step (obj : list (string * jsval)) (p : node)
  : list (string * jsval) :=
  match p with
  | ObjectProperty k _ | ObjectMethod k _ _ =>
      let key := JS.or (get_name k) (get_value k) in
      let value := _extractLiteralValue (property_value p) in
      JS.assign (JS.to_string key)
                (if JS.eqb value VNull then VStr "unknown" else value) obj
  | SpreadElement _ => JS.assign "...spread" (VStr "object") obj
  | _ => obj
  end.

(** [_extractObjectStructure(node)] *)
Fixpoint _extractObjectStructure (n : node) : jsval :=
  match n with
  | ObjectExpression props => VObj (fold_left structure_step props [])
  | ArrayExpression els =>
      VArr (map (fun el => match el with
                           | Some e => _extractObjectStructure e
                           | None => _extractLiteralValue None
                           end) els)
  | _ => _extractLiteralValue (Some n)
  end.

(** [_extractObjectStructure(node)] at a possibly missing node. *)
Definition _extractObjectStructure_opt (n : option node) : jsval :=
  match n with
  | Some e => _extractObjectStructure e
  | None => _extractLiteralValue None
  end.

(** [_extractParameters(params)] *)
Definition _extractParameters (ps : list node) : list jsval :=
  map (fun param =>
         match param with
         | Identifier x => VObj [("name", VStr x); ("type", VStr "identifier")]
         | ObjectPattern props =>
             VObj [("name", VStr "destructured"); ("type", VStr "object");
                   ("properties",
                     VArr (map (fun p =>
                                  match p with
                                  | ObjectProperty k _ => get_name k
                                  | RestElement a =>
                                      VStr ("..." ++ JS.to_string (get_name a))
                                  | _ => VStr "unknown"
                                  end) props))]
         | ArrayPattern els =>
             VObj [("name", VStr "destructured"); ("type", VStr "array");
                   ("elements", VNum (Z.of_nat (List.length els)))]
         | RestElement a => VObj [("name", get_name a); ("type", VStr "rest")]
         | _ => VObj [("name", VStr "unknown"); ("type", VStr "unknown")]
         end) ps.

Definition push_body (v : jsval) (a : FunctionAnalysis) : FunctionAnalysis :=
  let u := requestUsage a in
  mkFunctionAnalysis (name a) (isAsync a) (isArrow a) (isClass a) (parameters a)
    (mkRequestUsage (body u ++ [v])%list (query u) (params u) (headers u))
    (responseUsage a) (thrown a) (returnValues a).

Definition push_query (v : jsval) (a : FunctionAnalysis) : FunctionAnalysis :=
  let u := requestUsage a in
  mkFunctionAnalysis (name a) (isAsync a) (isArrow a) (isClass a) (parameters a)
    (mkRequestUsage (body u) (query u ++ [v])%list (params u) (headers u))
    (responseUsage a) (thrown a) (returnValues a).

Definition push_params (v : jsval) (a : FunctionAnalysis) : FunctionAnalysis :=
  let u := requestUsage a in
  mkFunctionAnalysis (name a) (isAsync a) (isArrow a) (isClass a) (parameters a)
    (mkRequestUsage (body u) (query u) (params u ++ [v])%list (headers u))
    (responseUsage a) (thrown a) (returnValues a).

Definition push_headers (v : jsval) (a : FunctionAnalysis) : FunctionAnalysis :=
  let u := requestUsage a in
  mkFunctionAnalysis (name a) (isAsync a) (isArrow a) (isClass a) (parameters a)
    (mkRequestUsage (body u) (query u) (params u) (headers u ++ [v])%list)
    (responseUsage a) (thrown a) (returnValues a).

Definition set_responseUsage (r : ResponseUsage) (a : FunctionAnalysis)
  : FunctionAnalysis :=
  mkFunctionAnalysis (name a) (isAsync a) (isArrow a) (isClass a) (parameters a)
    (requestUsage a) r (thrown a) (returnValues a).

Definition push_statusCode (v : jsval) (a : FunctionAnalysis) : FunctionAnalysis :=
  let r := responseUsage a in
  set_responseUsage
    (mkResponseUsage (statusCodes r ++ [v])%list (jsonCalls r) (sendCalls r) (structures r)) a.

Definition push_jsonCall (v : jsval) (a : FunctionAnalysis) : FunctionAnalysis :=
  let r := responseUsage a in
  set_responseUsage
    (mkResponseUsage (statusCodes r) (jsonCalls r ++ [v])%list (sendCalls r) (structures r)) a.

Definition push_sendCall (v : jsval) (a : FunctionAnalysis) : FunctionAnalysis :=
  let r := responseUsage a in
  set_responseUsage
    (mkResponseUsage (statusCodes r) (jsonCalls r) (sendCalls r ++ [v])%list (structures r)) a.

Definition push_structure (v : jsval) (a : FunctionAnalysis) : FunctionAnalysis :=
  let r := responseUsage a in
  set_responseUsage
    (mkResponseUsage (statusCodes r) (jsonCalls r) (sendCalls r) (structures r ++ [v])%list) a.

Definition push_thrown (e : ThrownError) (a : FunctionAnalysis) : FunctionAnalysis :=
  mkFunctionAnalysis (name a) (isAsync a) (isArrow a) (isClass a) (parameters a)
    (requestUsage a) (responseUsage a) (thrown a ++ [e])%list (returnValues a).

Definition push_returnValue (v : jsval) (a : FunctionAnalysis) : FunctionAnalysis :=
  mkFunctionAnalysis (name a) (isAsync a) (isArrow a) (isClass a) (parameters a)
    (requestUsage a) (responseUsage a) (thrown a) (returnValues a ++ [v])%list.

(** [_analyzeMemberExpression(path, analysis)] with [path.node = n]. *)
Definition _analyzeMemberExpression (n : node) (a : FunctionAnalysis)
  : FunctionAnalysis :=
  match n with
  | MemberExpression obj property =>
      (* Check for req.body.field *)
      let a :=
        match obj with
        | MemberExpression (Identifier x) reqProp =>
            if is_request_identifier x then
              let reqProperty := get_name reqProp in
              let field := JS.or (get_name property) (get_value property) in
              if JS.eqb reqProperty (VStr "body") && JS.truthy field
              then push_body field a
              else if JS.eqb reqProperty (VStr "query") && JS.truthy field
              then push_query field a
              else if JS.eqb reqProperty (VStr "params") && JS.truthy field
              then push_params field a
              else if JS.eqb reqProperty (VStr "headers") && JS.truthy field
              then push_headers field a
              else a
            else a
        | _ => a
        end in
      (* Check for direct req.body, req.query *)
      match obj with
      | Identifier x =>
          if is_request_identifier x then
            let property := get_name property in
            if JS.eqb property (VStr "body") then push_body (VStr "__ALL__") a
            else if JS.eqb property (VStr "query") then push_query (VStr "__ALL__") a
            else if JS.eqb property (VStr "params") then push_params (VStr "__ALL__") a
            else a
          else a
      | _ => a
      end
  | _ => a
  end.

(** [{ status: statusCode, ...structure }] *)
Definition with_status (statusCode structure : jsval) : jsval :=
  VObj (JS.spread_into [("status", statusCode)] structure).

(** [_analyzeCallExpression(path, analysis)] with [path.node = n]. *)
Definition _analyzeCallExpression (n : node) (a : FunctionAnalysis)
  : FunctionAnalysis :=
  match n with
  | CallExpression (MemberExpression object property) arguments =>
      let method := get_name property in
      let on_response :=
        match object with
        | Identifier x => is_response_identifier x
        | _ => false
        end in
      (* Check for res.json() *)
      let a :=
        if on_response && JS.eqb method (VStr "json") then
          match hd_error arguments with
          | Some argument =>
              let structure := _extractObjectStructure argument in
              push_structure structure (push_jsonCall structure a)
          | None => a
          end
        else a in
      (* Check for res.status() *)
      let a :=
        if on_response && JS.eqb method (VStr "status") then
          let statusCode := _extractLiteralValue (hd_error arguments) in
          if JS.truthy statusCode then push_statusCode statusCode a else a
        else a in
      (* Check for res.send() *)
      let a :=
        if on_response && JS.eqb method (VStr "send") then
          match hd_error arguments with
          | Some argument => push_sendCall (_extractObjectStructure argument) a
          | None => a
          end
        else a in
      (* Check for res.status().json() chain *)
      match object with
      | CallExpression (MemberExpression _ innerProperty) innerArguments =>
          if JS.eqb (get_name innerProperty) (VStr "status")
             && JS.eqb method (VStr "json")
          then
            let statusCode := _extractLiteralValue (hd_error innerArguments) in
            let a := if JS.truthy statusCode then push_statusCode statusCode a else a in
            let structure := _extractObjectStructure_opt (hd_error arguments) in
            push_structure (with_status statusCode structure) a
          else a
      | _ => a
      end
  | _ => a
  end.

(** [_analyzeThrowStatement(path, analysis)] with [path.node = n]. *)
Definition _analyzeThrowStatement (n : node) (a : FunctionAnalysis)
  : FunctionAnalysis :=
  match n with
  | ThrowStatement (NewExpression callee arguments) =>
      if JS.eqb (get_name callee) (VStr "Error") then
        let message := _extractLiteralValue (hd_error arguments) in
        push_thrown (mkThrownError (VStr "Error") (JS.or message (VStr "unknown"))) a
      else a
  | ThrowStatement (Identifier x) =>
      push_thrown (mkThrownError (VStr x) (VStr "unknown")) a
  | _ => a
  end.

(** [_analyzeReturnStatement(path, analysis)] with [path.node = n]. *)
Definition _analyzeReturnStatement (n : node) (a : FunctionAnalysis)
  : FunctionAnalysis :=
  match n with
  | ReturnStatement (Some argument) =>
      push_returnValue (_extractObjectStructure argument) a
  | _ => a
  end.

(** The tree walk of [traverse]: depth first, in source order, the visitor
    being called when a node is entered.  The node the walk starts from is
    not itself visited ([self = false]); every node below it is. *)
Section Traverse.
Context {S : Type} (enter : node -> S -> S).

Fixpoint walk (self : bool) (n : node) (st : S) {struct n} : S :=
  let st := if self then enter n st else st in
  let each := fun (ns : list node) (st : S) =>
                fold_left (fun acc c => walk true c acc) ns st in
  let each_opt := fun (ns : list (option node)) (st : S) =>
                    fold_left (fun acc c => match c with
                                            | Some c' => walk true c' acc
                                            | None => acc
                                            end) ns st in
  let opt := fun (c : option node) (st : S) =>
               match c with
               | Some c' => walk true c' st
               | None => st
               end in
  match n with
  | Identifier _ | StringLiteral _ | NumericLiteral _ | BooleanLiteral _
  | NullLiteral => st
  | TemplateLiteral es => each es st
  | ObjectExpression ps => each ps st
  | ObjectProperty k v => walk true v (walk true k st)
  | ObjectMethod k ps b => walk true b (each ps (walk true k st))
  | SpreadElement e => walk true e st
  | ArrayExpression es => each_opt es st
  | MemberExpression o p => walk true p (walk true o st)
  | CallExpression c args => each args (walk true c st)
  | NewExpression c args => each args (walk true c st)
  | ArrowFunctionExpression _ ps b => walk true b (each ps st)
  | FunctionExpression i _ ps b => walk true b (each ps (opt i st))
  | FunctionDeclaration i _ ps b => walk true b (each ps (opt i st))
  | ClassMethod k _ ps b => walk true b (each ps (walk true k st))
  | ObjectPattern ps => each ps st
  | ArrayPattern es => each_opt es st
  | RestElement e => walk true e st
  | VariableDeclaration ds => each ds st
  | VariableDeclarator i e => opt e (walk true i st)
  | ExpressionStatement e => walk true e st
  | ReturnStatement e => opt e st
  | ThrowStatement e => walk true e st
  | BlockStatement b => each b st
  | Program b => each b st
  | File p => walk true p st
  | OtherNode cs => each cs st
  end.

Definition traverse (n : node) (st : S) : S := walk false n st.
End Traverse.

(** The visitor table of [_analyzeFunctionNode]. *)
Definition function_visitor (n : node) (a : FunctionAnalysis) : FunctionAnalysis :=
  match n with
  | MemberExpression _ _ => _analyzeMemberExpression n a
  | CallExpression _ _ => _analyzeCallExpression n a
  | ThrowStatement _ => _analyzeThrowStatement n a
  | ReturnStatement _ => _analyzeReturnStatement n a
  | _ => a
  end.

(** [node.id], [node.async] and [node.params] of a function-like node. *)
Definition function_id (n : node) : option node :=
  match n with
  | FunctionExpression i _ _ _ | FunctionDeclaration i _ _ _ => i
  | _ => None
  end.

Definition function_async (n : node) : bool :=
  match n with
  | ArrowFunctionExpression a _ _ | FunctionExpression _ a _ _
  | FunctionDeclaration _ a _ _ | ClassMethod _ a _ _ => a
  | _ => false
  end.

Definition function_params (n : node) : list node :=
  match n with
  | ArrowFunctionExpression _ ps _ | FunctionExpression _ _ ps _
  | FunctionDeclaration _ _ ps _ | ClassMethod _ _ ps _ => ps
  | _ => []
  end.

(** [_analyzeFunctionNode(node, code, customName)] *)
Definition _analyzeFunctionNode (n : node) (customName : jsval) : FunctionAnalysis :=
  let analysis :=
    mkFunctionAnalysis
      (JS.or customName
             (match function_id n with
              | Some i => get_name i
              | None => VStr "anonymous"
              end))
      (function_async n)
      (match n with ArrowFunctionExpression _ _ _ => true | _ => false end)
      (match n with ClassMethod _ _ _ _ => true | _ => false end)
      (_extractParameters (function_params n))
      (mkRequestUsage [] [] [] [])
      (mkResponseUsage [] [] [] [])
      []
      [] in
  traverse function_visitor n analysis.

(** The visitor table of [analyzeCode], restricted to the visitors that
    fill [functions]; the export and import visitors only fill lists that
    nothing modelled here reads. *)
Definition file_visitor (n : node) (fs : list FunctionAnalysis)
  : list FunctionAnalysis :=
  match n with
  | FunctionDeclaration _ _ _ _ => (fs ++ [_analyzeFunctionNode n VUndefined])%list
  | VariableDeclarator i (Some init) =>
      match init with
      | ArrowFunctionExpression _ _ _ | FunctionExpression _ _ _ _ =>
          (fs ++ [_analyzeFunctionNode init (get_name i)])%list
      | _ => fs
      end
  | ClassMethod _ _ _ _ => (fs ++ [_analyzeFunctionNode n VUndefined])%list
  | _ => fs
  end.

Section Parser.
(** The parser is a dependency of the analyser: it either returns the
    syntax tree of the text (a [File] node) or fails with a message. *)
Variable parse : string -> node + string.

(** [analyzeCode(code, fileName)] *)
Definition analyzeCode (code : string) : FileAnalysis :=
  match parse code with
  | inl ast => mkFileAnalysis (traverse file_visitor ast []) []
  | inr message => mkFileAnalysis [] [message]
  end.
End Parser.

End ASTAnalyzer.

(** ** Records shared by the builder and the version manager *)

Record ParameterDescriptor : Type := mkParameter {
  param_name : jsval;
  param_in : string;
  param_type : string;
  param_required : bool;
  param_description : option string
}.

(** One route as the reflector describes it. *)
Record Route : Type := mkRoute {
  route_method : string;
  route_path : string;
  route_handlerName : string;
  route_handlerType : string;
  route_middleware : list string;
  routeParameters : list string;
  functionSource : option string;
  route_isAsync : bool;
  route_parameterCount : Z
}.

(** One documentation record.  [breakingChange] and
    [breakingChangeDescription] are set by hand on stored records; the
    builder leaves them out. *)
Record Documentation : Type := mkDocumentation {
  method : string;
  path : string;
  handlerName : string;
  handlerType : string;
  middleware : list string;
  parameters : list ParameterDescriptor;
  requestSchema : jsval;
  responseSchema : jsval;
  statusCodes : list jsval;
  examples : jsval;
  metadata : jsval;
  breakingChange : bool;
  breakingChangeDescription : jsval
}.

(** ** DocumentationBuilder *)

Module DocumentationBuilder.
Import JSString.

Definition set_parameters (ps : list ParameterDescriptor) (d : Documentation)
  : Documentation :=
  mkDocumentation (method d) (path d) (handlerName d) (handlerType d) (middleware d)
    ps (requestSchema d) (responseSchema d) (statusCodes d) (examples d)
    (metadata d) (breakingChange d) (breakingChangeDescription d).

Definition push_parameter (p : ParameterDescriptor) (d : Documentation)
  : Documentation :=
  set_parameters (parameters d ++ [p])%list d.

Definition set_requestSchema (v : jsval) (d : Documentation) : Documentation :=
  mkDocumentation (method d) (path d) (handlerName d) (handlerType d) (middleware d)
    (parameters d) v (responseSchema d) (statusCodes d) (examples d)
    (metadata d) (breakingChange d) (breakingChangeDescription d).

Definition set_responseSchema (v : jsval) (d : Documentation) : Documentation :=
  mkDocumentation (method d) (path d) (handlerName d) (handlerType d) (middleware d)
    (parameters d) (requestSchema d) v (statusCodes d) (examples d)
    (metadata d) (breakingChange d) (breakingChangeDescription d).

Definition set_statusCodes (cs : list jsval) (d : Documentation) : Documentation :=
  mkDocumentation (method d) (path d) (handlerName d) (handlerType d) (middleware d)
    (parameters d) (requestSchema d) (responseSchema d) cs (examples d)
    (metadata d) (breakingChange d) (breakingChangeDescription d).

Definition set_examples (v : jsval) (d : Documentation) : Documentation :=
  mkDocumentation (method d) (path d) (handlerName d) (handlerType d) (middleware d)
    (parameters d) (requestSchema d) (responseSchema d) (statusCodes d) v
    (metadata d) (breakingChange d) (breakingChangeDescription d).

(** The parameter record pushed for a path parameter. *)
Definition path_parameter (x : jsval) : ParameterDescriptor :=
  mkParameter x "path" "string" true (Some ("Path parameter: " ++ JS.to_string x)).

Definition is_not_ALL (f : jsval) : bool := negb (JS.eqb f (VStr "__ALL__")).

(** [_extractRequestParameters(analysis, doc)] *)
Definition _extractRequestParameters (analysis : ASTAnalyzer.FunctionAnalysis)
           (doc : Documentation) : Documentation :=
  let usage := ASTAnalyzer.requestUsage analysis in
  (* Extract from req.body usage *)
  let doc :=
    match ASTAnalyzer.body usage with
    | [] => doc
    | _ =>
        let bodyFields := filter is_not_ALL (ASTAnalyzer.body usage) in
        let doc :=
          fold_left (fun doc field =>
                       push_parameter
                         (mkParameter field "body" "unknown" false
                            (Some ("Body parameter: " ++ JS.to_string field))) doc)
                    bodyFields doc in
        if (Nat.eqb (List.length bodyFields) 0)
           && JS.includes (VStr "__ALL__") (ASTAnalyzer.body usage)
        then set_requestSchema
               (VObj [("type", VStr "object");
                      ("description",
                        VStr "Request body (structure not auto-detected)")]) doc
        else doc
    end in
  (* Extract from req.query usage *)
  let doc :=
    fold_left (fun doc field =>
                 push_parameter
                   (mkParameter field "query" "string" false
                      (Some ("Query parameter: " ++ JS.to_string field))) doc)
              (filter is_not_ALL (ASTAnalyzer.query usage)) doc in
  (* Extract from req.params usage *)
  let doc :=
    fold_left (fun doc field =>
                 (* Only add if not already in path parameters *)
                 if existsb (fun p => JS.eqb (param_name p) field
                                      && String.eqb (param_in p) "path")
                            (parameters doc)
                 then doc
                 else push_parameter (path_parameter field) doc)
              (filter is_not_ALL (ASTAnalyzer.params usage)) doc in
  (* Extract from req.headers usage *)
  fold_left (fun doc field =>
               push_parameter
                 (mkParameter field "header" "string" false
                    (Some ("Header: " ++ JS.to_string field))) doc)
            (filter is_not_ALL (ASTAnalyzer.headers usage)) doc.

(** [value.substring(n)] *)
Fixpoint substring_from (n : nat) (s : string) : string :=
  match n, s with
  | O, _ => s
  | S k, EmptyString => EmptyString
  | S k, String _ s' => substring_from k s'
  end.

(** One round of the loop of [_convertToSchemaProperties]; [nested] is the
    conversion of [value], used when [value] is an object. *)
Definition convert_entry (key : string) (value : jsval)
           (nested : list (string * jsval)) (properties : list (string * jsval))
  : list (string * jsval) :=
  if String.eqb key "status" then properties
  else
    let schema :=
      match value with
      | VStr s =>
          if startsWith "var:" s
          then VObj [("type", VStr "unknown");
                     ("description", VStr ("Variable: " ++ substring_from 4 s))]
          else if String.eqb s "template_string"
          then VObj [("type", VStr "string"); ("description", VStr "Template string")]
          else if String.eqb s "complex_expression"
          then VObj [("type", VStr "unknown");
                     ("description", VStr "Complex expression")]
          else VObj [("type", VStr (JS.typeof value)); ("example", value)]
      | VArr _ => VObj [("type", VStr "array"); ("items", VObj [])]
      | VObj _ | VNull => VObj [("type", VStr "object"); ("properties", VObj nested)]
      | _ => VObj [("type", VStr (JS.typeof value)); ("example", value)]
      end in
    JS.assign key schema properties.

(** [_convertToSchemaProperties(obj)]: the loop runs over
    [Object.entries(obj)], which for an array are its indexed elements. *)
Fixpoint _convertToSchemaProperties (obj : jsval) : list (string * jsval) :=
  match obj with
  | VObj o =>
      fold_left (fun properties kv =>
                   convert_entry (fst kv) (snd kv)
                                 (_convertToSchemaProperties (snd kv)) properties)
                o []
  | VArr xs =>
      (fix loop (i : nat) (xs : list jsval) (properties : list (string * jsval))
         {struct xs} : list (string * jsval) :=
         match xs with
         | [] => properties
         | x :: xs' =>
             loop (S i) xs'
                  (convert_entry (JS.string_of_nat i) x
                                 (_convertToSchemaProperties x) properties)
         end) 0 xs []
  | _ => []
  end.

(** [_extractResponseStructure(analysis, doc)] *)
Definition _extractResponseStructure (analysis : ASTAnalyzer.FunctionAnalysis)
           (doc : Documentation) : Documentation :=
  let doc :=
    match ASTAnalyzer.structures (ASTAnalyzer.responseUsage analysis) with
    | primaryStructure :: _ =>
        let doc :=
          set_responseSchema
            (VObj [("type", VStr "object");
                   ("properties", VObj (_convertToSchemaProperties primaryStructure));
                   ("example", primaryStructure)]) doc in
        set_examples
          (VObj (JS.assign "response" primaryStructure (JS.entries (examples doc)))) doc
    | [] => doc
    end in
  (* Also capture from return values *)
  match ASTAnalyzer.returnValues analysis with
  | returnValue :: _ =>
      if negb (JS.truthy (responseSchema doc))
      then set_responseSchema
             (VObj [("type", VStr (JS.typeof returnValue)); ("example", returnValue)])
             doc
      else doc
  | [] => doc
  end.

(** [s.toLowerCase()] on ASCII text. *)
Definition lower (c : ascii) : ascii :=
  if in_range "A" "Z" c then ascii_of_N (N_of_ascii c + 32) else c.

Fixpoint toLowerCase (s : string) : string :=
  match s with
  | EmptyString => EmptyString
  | String c s' => String (lower c) (toLowerCase s')
  end.

(** [.replace(/^p/, '')] for a literal [p]. *)
Definition strip_prefix (p s : string) : string :=
  if startsWith p s then substring_from (String.length p) s else s.

(** Replacing every colon that is followed by a word character by
    nothing: the word itself is put back. *)
Fixpoint drop_param_colons (s : string) : string :=
  match s with
  | EmptyString => EmptyString
  | String c s' =>
      if Ascii.eqb c ":"
         && match s' with String d _ => is_ident_char d | EmptyString => false end
      then drop_param_colons s'
      else String c (drop_param_colons s')
  end.

(** [.replace(/\.$/, '')] *)
Fixpoint strip_final_dot (s : string) : string :=
  match s with
  | EmptyString => EmptyString
  | String c EmptyString => if Ascii.eqb c "." then EmptyString else s
  | String c s' => String c (strip_final_dot s')
  end.

(** [_routeToSchemaName(method, path)] *)
Definition _routeToSchemaName (method path : string) : string :=
  let cleanPath :=
    strip_final_dot
      (drop_param_colons
         (replaceAll "/" "." (strip_prefix "/" (strip_prefix "/api/" path)))) in
  cleanPath ++ "." ++ toLowerCase method.

(** [doc.requestSchema.schemaFile = file]: on [null] or a primitive the
    assignment throws and the surrounding [catch] leaves the value as it
    is; on an array it would add a named property, which this model of
    arrays does not keep. *)
Definition set_schemaFile (file : string) (schema : jsval) : jsval :=
  match schema with
  | VObj o => VObj (JS.assign "schemaFile" (VStr file) o)
  | _ => schema
  end.

Section Environment.
(** The parser behind [analyzeCode]. *)
Variable parse : string -> node + string.
(** [path.join(this.schemaDir, kind, name + '.json')] *)
Variable schemaPath : string -> string -> string.
(** Reading and parsing a schema file; [None] when the file is missing
    or is not JSON. *)
Variable readSchema : string -> option jsval.

(** [_loadSchemas(doc)] *)
Definition _loadSchemas (doc : Documentation) : Documentation :=
  let routeName := _routeToSchemaName (method doc) (path doc) in
  let requestSchemaPath := schemaPath "request" routeName in
  let doc :=
    match readSchema requestSchemaPath with
    | Some requestSchema =>
        set_requestSchema (set_schemaFile requestSchemaPath requestSchema) doc
    | None => doc
    end in
  let responseSchemaPath := schemaPath "response" routeName in
  match readSchema responseSchemaPath with
  | Some parsedSchema =>
      let merged :=
        if JS.truthy (responseSchema doc)
        then VObj (JS.spread_into (JS.spread_into [] (responseSchema doc))
                                  parsedSchema)
        else parsedSchema in
      set_responseSchema (set_schemaFile responseSchemaPath merged) doc
  | None => doc
  end.

(** [_buildRouteDocumentation(route, options)] *)
Definition _buildRouteDocumentation (route : Route) : Documentation :=
  let doc :=
    mkDocumentation (route_method route) (route_path route)
      (route_handlerName route) (route_handlerType route)
      (route_middleware route) [] VNull VNull [] (VObj [])
      (VObj [("isAsync", VBool (route_isAsync route));
             ("parameterCount", VNum (route_parameterCount route))])
      false VUndefined in
  (* Add path parameters *)
  let doc :=
    fold_left (fun doc param => push_parameter (path_parameter (VStr param)) doc)
              (routeParameters route) doc in
  (* Analyze handler code if source is available *)
  let doc :=
    match functionSource route with
    | Some source =>
        if String.eqb source "" then doc
        else
          match ASTAnalyzer.functions (ASTAnalyzer.analyzeCode parse source) with
          | functionAnalysis :: _ =>
              let doc := _extractRequestParameters functionAnalysis doc in
              let doc := _extractResponseStructure functionAnalysis doc in
              match ASTAnalyzer.statusCodes
                      (ASTAnalyzer.responseUsage functionAnalysis) with
              | [] => doc
              | codes => set_statusCodes (JS.unique codes) doc
              end
          | [] => doc
          end
    | None => doc
    end in
  (* Try to load schemas from filesystem *)
  _loadSchemas doc.
End Environment.

(** [_createMinimalDoc(route, error)], [message] being [error.message]. *)
Definition _createMinimalDoc (route : Route) (message : string) : Documentation :=
  mkDocumentation (route_method route) (route_path route)
    (route_handlerName route) (route_handlerType route)
    (route_middleware route)
    (map (fun param => mkParameter (VStr param) "path" "string" true None)
         (routeParameters route))
    VNull VNull [] (VObj [])
    (VObj [("error", VStr message); ("partial", VBool true)])
    false VUndefined.

End DocumentationBuilder.

(** ** The insertion-ordered [Map] of the host language *)

Module JSMap.
Section WithValue.
Context {V : Type}.

(** [map.set(k, v)]: an existing key keeps its place and takes the new
    value, a new key goes last. *)
Fixpoint set (k : string) (v : V) (m : list (string * V)) : list (string * V) :=
  match m with
  | [] => [(k, v)]
  | (k', v') :: m' =>
      if String.eqb k k' then (k, v) :: m' else (k', v') :: set k v m'
  end.

(** [map.get(k)] *)
Fixpoint get (k : string) (m : list (string * V)) : option V :=
  match m with
  | [] => None
  | (k', v) :: m' => if String.eqb k k' then Some v else get k m'
  end.

(** [map.has(k)] *)
Definition has (k : string) (m : list (string * V)) : bool :=
  match get k m with
  | Some _ => true
  | None => false
  end.

(** [new Map(entries)] *)
Definition of_entries (es : list (string * V)) : list (string * V) :=
  fold_left (fun m kv => set (fst kv) (snd kv) m) es [].

End WithValue.
End JSMap.

(** ** The kinds of version bump *)

Inductive BumpType : Type := major | minor | patch.

(** ** SemanticVersionManager *)

Module SemanticVersionManager.

Record ChangeSet : Type := mkChangeSet {
  breakingChanges : list string;
  newEndpoints : list string;
  modifiedEndpoints : list string;
  deprecatedEndpoints : list string;
  internalChanges : list string
}.

Record ChangeAnalysis : Type := mkChangeAnalysis {
  bumpType : BumpType;
  bumpReason : string;
  changes : ChangeSet
}.

Record Modifications : Type := mkModifications {
  hasChanges : bool;
  hasBreakingChanges : bool;
  hasInternalChanges : bool;
  mod_breakingChanges : list string
}.

(** The text [METHOD path] of a record. *)
Definition endpoint (doc : Documentation) : string :=
  method doc ++ " " ++ path doc.

(** The key of a record in the comparison maps. *)
Definition doc_key (doc : Documentation) : string :=
  method doc ++ ":" ++ path doc.

(** [result.hasBreakingChanges = true; result.breakingChanges.push(msg)] *)
Definition mark_breaking (msg : string) (r : Modifications) : Modifications :=
  mkModifications (hasChanges r) true (hasInternalChanges r)
                  (mod_breakingChanges r ++ [msg])%list.

(** [_hasResponseSchemaChanged(oldSchema, newSchema)] *)
Definition _hasResponseSchemaChanged (oldSchema newSchema : jsval) : bool :=
  if negb (JS.truthy oldSchema) && negb (JS.truthy newSchema) then false
  else if negb (JS.truthy oldSchema) || negb (JS.truthy newSchema) then true
  else
    let oldProps :=
      if JS.truthy (JS.prop "properties" oldSchema)
      then JS.keys (JS.prop "properties" oldSchema) else [] in
    let newProps :=
      if JS.truthy (JS.prop "properties" newSchema)
      then JS.keys (JS.prop "properties" newSchema) else [] in
    (* Removed properties = breaking change *)
    existsb (fun prop => negb (existsb (String.eqb prop) newProps)) oldProps.

(** The names of the required parameters, as a [Set]. *)
Definition required_names (doc : Documentation) : list jsval :=
  JS.unique (map param_name (filter param_required (parameters doc))).

(** [_detectModifications(oldDoc, newDoc)] *)
Definition _detectModifications (oldDoc newDoc : Documentation) : Modifications :=
  let result := mkModifications false false false [] in
  (* Check for required parameter changes (breaking) *)
  let oldRequiredParams := required_names oldDoc in
  let newRequiredParams := required_names newDoc in
  let result :=
    fold_left (fun result param =>
                 if negb (JS.includes param oldRequiredParams)
                 then mark_breaking
                        (endpoint newDoc ++ ": New required parameter '"
                           ++ JS.to_string param ++ "'") result
                 else result)
              newRequiredParams result in
  (* Check for response structure changes (breaking) *)
  let result :=
    if _hasResponseSchemaChanged (responseSchema oldDoc) (responseSchema newDoc)
    then mark_breaking (endpoint newDoc ++ ": Response schema changed") result
    else result in
  (* Check for status code changes (potentially breaking); the sets
     compare by value here, as the code does for every code that is no
     object *)
  let oldCodes := JS.unique (statusCodes oldDoc) in
  let newCodes := JS.unique (statusCodes newDoc) in
  let removedCodes := filter (fun code => negb (JS.includes code newCodes)) oldCodes in
  let result :=
    match removedCodes with
    | [] => result
    | _ => mark_breaking
             (endpoint newDoc ++ ": Removed status codes: "
                ++ JS.join_values ", " removedCodes) result
    end in
  (* Check if explicitly marked as breaking *)
  let result :=
    if breakingChange newDoc
    then mark_breaking
           (endpoint newDoc ++ ": "
              ++ JS.to_string (JS.or (breakingChangeDescription newDoc)
                                     (VStr "Marked as breaking change"))) result
    else result in
  (* Check for non-breaking changes *)
  let oldParamCount := List.length (parameters oldDoc) in
  let newParamCount := List.length (parameters newDoc) in
  let result :=
    if negb (Nat.eqb newParamCount oldParamCount) && negb (hasBreakingChanges result)
    then mkModifications true (hasBreakingChanges result) (hasInternalChanges result)
                         (mod_breakingChanges result)
    else result in
  (* Check for middleware changes (internal): the two lists of names are
     compared through their JSON text, which is the same for equal lists
     only *)
  if negb (if list_eq_dec string_dec (middleware oldDoc) (middleware newDoc)
           then true else false)
  then mkModifications (hasChanges result) (hasBreakingChanges result) true
                       (mod_breakingChanges result)
  else result.

Definition doc_map (docs : list Documentation) : list (string * Documentation) :=
  JSMap.of_entries (map (fun doc => (doc_key doc, doc)) docs).

(** The three loops of [analyzeChanges], each over the entries of a map. *)
Definition new_endpoints_loop (oldMap newMap : list (string * Documentation))
           (c : ChangeSet) : ChangeSet :=
  fold_left (fun c kv =>
               if negb (JSMap.has (fst kv) oldMap)
               then mkChangeSet (breakingChanges c)
                                (newEndpoints c ++ [endpoint (snd kv)])%list
                                (modifiedEndpoints c) (deprecatedEndpoints c)
                                (internalChanges c)
               else c)
            newMap c.

Definition removed_endpoints_loop (oldMap newMap : list (string * Documentation))
           (c : ChangeSet) : ChangeSet :=
  fold_left (fun c kv =>
               if negb (JSMap.has (fst kv) newMap)
               then mkChangeSet
                      (breakingChanges c
                         ++ [("Removed endpoint: " ++ endpoint (snd kv))%string])%list
                      (newEndpoints c) (modifiedEndpoints c)
                      (deprecatedEndpoints c ++ [endpoint (snd kv)])%list
                      (internalChanges c)
               else c)
            oldMap c.

Definition modified_endpoints_loop (oldMap newMap : list (string * Documentation))
           (c : ChangeSet) : ChangeSet :=
  fold_left (fun c kv =>
               match JSMap.get (fst kv) oldMap with
               | Some oldDoc =>
                   let newDoc := snd kv in
                   let modifications := _detectModifications oldDoc newDoc in
                   let c :=
                     if hasBreakingChanges modifications
                     then mkChangeSet
                            (breakingChanges c ++ mod_breakingChanges modifications)%list
                            (newEndpoints c) (modifiedEndpoints c)
                            (deprecatedEndpoints c) (internalChanges c)
                     else c in
                   let c :=
                     if hasChanges modifications
                     then mkChangeSet (breakingChanges c) (newEndpoints c)
                                      (modifiedEndpoints c ++ [endpoint newDoc])%list
                                      (deprecatedEndpoints c) (internalChanges c)
                     else c in
                   if hasInternalChanges modifications
                   then mkChangeSet (breakingChanges c) (newEndpoints c)
                                    (modifiedEndpoints c) (deprecatedEndpoints c)
                                    (internalChanges c ++ [endpoint newDoc])%list
                   else c
               | None => c
               end)
            newMap c.

(** [analyzeChanges(oldDocs, newDocs)] *)
Definition analyzeChanges (oldDocs newDocs : list Documentation) : ChangeAnalysis :=
  (* Create maps for easier comparison *)
  let oldMap := doc_map oldDocs in
  let newMap := doc_map newDocs in
  let c := mkChangeSet [] [] [] [] [] in
  (* Check for new endpoints *)
  let c := new_endpoints_loop oldMap newMap c in
  (* Check for removed/deprecated endpoints (breaking change) *)
  let c := removed_endpoints_loop oldMap newMap c in
  (* Check for modified endpoints *)
  let c := modified_endpoints_loop oldMap newMap c in
  (* Determine bump type *)
  match breakingChanges c with
  | _ :: _ =>
      mkChangeAnalysis major
        ("Breaking changes detected: "
           ++ JS.string_of_nat (List.length (breakingChanges c))
           ++ " breaking change(s)") c
  | [] =>
      match newEndpoints c with
      | _ :: _ =>
          mkChangeAnalysis minor
            ("New features: " ++ JS.string_of_nat (List.length (newEndpoints c))
               ++ " new endpoint(s)") c
      | [] =>
          match modifiedEndpoints c, internalChanges c with
          | [], [] => mkChangeAnalysis patch "" c
          | _, _ => mkChangeAnalysis patch "Internal changes and improvements" c
          end
      end
  end.

Section Library.
(** [semver.inc] of the package [semver], which is no part of the
    repository: it answers a version text or [null] ([None]). *)
Variable semver_inc : string -> BumpType -> option string.

(** [bumpVersion(currentVersion, bumpType)] *)
Definition bumpVersion (currentVersion : string) (bumpType : BumpType)
  : option string :=
  let cleanVersion := DocumentationBuilder.strip_prefix "v" currentVersion in
  let newVersion := semver_inc cleanVersion bumpType in
  newVersion.
End Library.

End SemanticVersionManager.

(** ** RouteReflector: the walk over the router stack *)

(** A value the code returns, or the message of the error it throws. *)
Inductive outcome (A : Type) : Type :=
| Returned (value : A)
| Thrown (message : string).
Arguments Returned {A} value.
Arguments Thrown {A} message.

(** A handler function of the framework, as far as the reflector reads it:
    its [name], the name of its constructor, its text ([None] when
    [toString] throws) and its [length]. *)
Record HandlerFunction : Type := mkHandlerFunction {
  fn_name : string;
  fn_constructor : string;
  fn_text : option string;
  fn_length : Z
}.

(** A layer of the stack of a route: [name], [handle] and [method]. *)
Record StackEntry : Type := mkStackEntry {
  entry_name : string;
  entry_handle : HandlerFunction;
  entry_method : jsval
}.

(** A route of the framework: [path], [methods] (its keys in order, each
    with its truth value), [stack], the source of [regexp] when there is
    one, and [keys]. *)
Record ExpressRoute : Type := mkExpressRoute {
  er_path : string;
  er_methods : list (string * bool);
  er_stack : list StackEntry;
  er_regexp : option string;
  er_keys : list jsval
}.

(** A layer of a router stack: [route], [name], [handle.stack] ([None]
    when [handle] or its [stack] is missing or is no array) and
    [regexp.source]. *)
Inductive Layer : Type :=
| mkLayer (route : option ExpressRoute) (name : string)
          (handle_stack : option (list Layer)) (regexp_source : string).

Record Router : Type := mkRouter { router_stack : option (list Layer) }.

Record Application : Type := mkApplication { _router : option Router }.

(** An entry of [_extractMiddleware]. *)
Record MiddlewareInfo : Type := mkMiddlewareInfo {
  mw_name : string;
  mw_handle : HandlerFunction;
  mw_method : jsval
}.

(** The object [_processRoute] pushes; the fields that
    [_extractHandlerInfo] leaves out for a missing handler are [None]. *)
Record RouteDescriptor : Type := mkRouteDescriptor {
  rd_method : string;
  rd_path : string;
  rd_basePath : string;
  rd_fullPath : string;
  rd_handlerName : string;
  rd_handlerType : string;
  rd_handlerFunction : option HandlerFunction;
  rd_functionSource : option string;
  rd_isAsync : option bool;
  rd_parameterCount : option Z;
  rd_middleware : list string;
  rd_middlewareHandlers : list MiddlewareInfo;
  rd_routeParameters : list string;
  rd_regexp : option string;
  rd_keys : list jsval
}.

Record Statistics : Type := mkStatistics {
  totalRoutes : nat;
  uniquePaths : nat;
  methodBreakdown : list (string * nat);
  asyncHandlers : nat;
  routesWithMiddleware : nat;
  routesWithParameters : nat
}.

Module ExpressReflection.
Import JSString.

(** [name || 'anonymous'] *)
Definition or_anonymous (name : string) : string :=
  if String.eqb name "" then "anonymous" else name.

(** [s.toUpperCase()] on ASCII text. *)
Definition upper (c : ascii) : ascii :=
  if in_range "a" "z" c then ascii_of_N (N_of_ascii c - 32) else c.

Fixpoint toUpperCase (s : string) : string :=
  match s with
  | EmptyString => EmptyString
  | String c s' => String (upper c) (toUpperCase s')
  end.

(** [stack.slice(0, -1)] *)
Fixpoint all_but_last {A : Type} (xs : list A) : list A :=
  match xs with
  | [] => []
  | [_] => []
  | x :: xs' => x :: all_but_last xs'
  end.

(** [stack[stack.length - 1]] *)
Fixpoint last_entry {A : Type} (xs : list A) : option A :=
  match xs with
  | [] => None
  | [x] => Some x
  | _ :: xs' => last_entry xs'
  end.

(** [_extractMiddleware(stack)] *)
Definition _extractMiddleware (stack : list StackEntry) : list MiddlewareInfo :=
  map (fun layer => mkMiddlewareInfo (or_anonymous (entry_name layer))
                                     (entry_handle layer) (entry_method layer))
      (all_but_last stack).

(** The longest prefix without backslash and question mark. *)
Fixpoint take_prefix_text (s : string) : string :=
  match s with
  | EmptyString => EmptyString
  | String c s' =>
      if Ascii.eqb c "\" || Ascii.eqb c "?" then EmptyString
      else String c (take_prefix_text s')
  end.

(** The prefix a mounted router contributes: the first group of the match
    of the pattern source against a backslash, a separator and then one
    or more characters other than backslash and question mark, at the
    very start; the empty text when there is no match. *)
Definition mount_prefix (source : string) : string :=
  match source with
  | String a (String b rest) =>
      if Ascii.eqb a "\" && Ascii.eqb b "/" then take_prefix_text rest
      else EmptyString
  | _ => EmptyString
  end.

(** [_processRoute(route, basePath)], appending to [this.routes]. *)
Definition _processRoute (route : ExpressRoute) (basePath : string)
           (routes : list RouteDescriptor) : list RouteDescriptor :=
  let path := RouteReflector._cleanPath (basePath ++ er_path route) in
  (* Get all HTTP methods for this route *)
  let methods :=
    map (fun m => toUpperCase (fst m)) (filter (fun m => snd m) (er_methods route)) in
  fold_left
    (fun routes method =>
       (* Extract middleware chain *)
       let middleware := _extractMiddleware (er_stack route) in
       (* Get the actual handler (last in the stack) *)
       let handler := last_entry (er_stack route) in
       let with_handler handlerName handlerType handlerFunction functionSource
                        isAsync parameterCount :=
         mkRouteDescriptor method path basePath path
           handlerName handlerType handlerFunction functionSource isAsync
           parameterCount
           (map (fun m => or_anonymous (mw_name m)) middleware)
           middleware
           (RouteReflector._extractPathParameters path)
           (er_regexp route) (er_keys route) in
       (* _extractHandlerInfo(handler) *)
       let descriptor :=
         match handler with
         | None => with_handler "unknown" "unknown" None None None None
         | Some h =>
             let handlerFunction := entry_handle h in
             let handlerName := or_anonymous (fn_name handlerFunction) in
             let handlerType :=
               if String.eqb (fn_constructor handlerFunction) "AsyncFunction"
               then "async" else "function" in
             with_handler handlerName handlerType (Some handlerFunction)
                          (fn_text handlerFunction)
                          (Some (String.eqb handlerType "async"))
                          (Some (fn_length handlerFunction))
         end in
       (routes ++ [descriptor])%list)
    methods routes.

(** The body of [stack.forEach] in [_walkStack], and through it
    [_walkStack(stack, basePath)] itself. *)
Fixpoint walk_layer (basePath : string) (layer : Layer)
         (routes : list RouteDescriptor) {struct layer} : list RouteDescriptor :=
  match layer with
  | mkLayer route name handle_stack regexp_source =>
      match route with
      | Some r =>
          (* Direct route (not a middleware) *)
          _processRoute r basePath routes
      | None =>
          if String.eqb name "router" then
            match handle_stack with
            | Some stack =>
                (* Nested router *)
                let nestedPath :=
                  RouteReflector._cleanPath (basePath ++ mount_prefix regexp_source) in
                fold_left (fun routes l => walk_layer nestedPath l routes) stack routes
            | None => routes
            end
          else if String.eqb name "bound dispatch" then
            (* Router with bound dispatch *)
            match handle_stack with
            | Some stack =>
                fold_left (fun routes l => walk_layer basePath l routes) stack routes
            | None => routes
            end
          else routes
      end
  end.

Definition _walkStack (stack : option (list Layer)) (basePath : string)
           (routes : list RouteDescriptor) : list RouteDescriptor :=
  match stack with
  | Some layers => fold_left (fun routes l => walk_layer basePath l routes) layers routes
  | None => routes
  end.

(** [extractRoutes(app)] *)
Definition extractRoutes (app : option Application) : outcome (list RouteDescriptor) :=
  match app with
  | Some a =>
      match _router a with
      | Some r => Returned (_walkStack (router_stack r) "" [])
      | None => Thrown "Invalid Express application provided"
      end
  | None => Thrown "Invalid Express application provided"
  end.

(** [getRoutesByMethod(method)] over [this.routes]. *)
Definition getRoutesByMethod (routes : list RouteDescriptor) (method : string)
  : list RouteDescriptor :=
  filter (fun route => String.eqb (rd_method route) (toUpperCase method)) routes.

(** [getUniquePaths()] *)
Definition getUniquePaths (routes : list RouteDescriptor) : list jsval :=
  JS.unique (map (fun route => VStr (rd_path route)) routes).

(** [methodCounts[m] = (methodCounts[m] || 0) + 1].  The methods counted
    are those [_processRoute] wrote, in upper case, so that no key is the
    name of an inherited property. *)
Fixpoint count_method (m : string) (counts : list (string * nat))
  : list (string * nat) :=
  match counts with
  | [] => [(m, 1)]
  | (m', n) :: counts' =>
      if String.eqb m m' then (m', S n) :: counts'
      else (m', n) :: count_method m counts'
  end.

(** [getStatistics()] over [this.routes]. *)
Definition getStatistics (routes : list RouteDescriptor) : Statistics :=
  let methodCounts :=
    fold_left (fun counts route => count_method (rd_method route) counts) routes [] in
  mkStatistics
    (List.length routes)
    (List.length (getUniquePaths routes))
    methodCounts
    (List.length (filter (fun r => match rd_isAsync r with
                                   | Some b => b
                                   | None => false
                                   end) routes))
    (List.length (filter (fun r => Nat.ltb 0 (List.length (rd_middleware r))) routes))
    (List.length (filter (fun r => Nat.ltb 0 (List.length (rd_routeParameters r)))
                         routes)).

End ExpressReflection.

(** ** OpenAPIGenerator: parameters, request body and schema names *)

Module OpenAPIGenerator.
Import JSString.

(** [a || b] on texts *)
Definition or_text (a b : string) : string :=
  if String.eqb a "" then b else a.

(** [param.description || ''] *)
Definition description_text (param : ParameterDescriptor) : string :=
  match param_description param with
  | Some d => or_text d ""
  | None => ""
  end.

(** A parameter as [_generateParameters] reads it: the fields of a
    parameter record and its own [schema] and [example], which a stored
    or enhanced record may carry; each is [undefined] when the parameter
    has none. *)
Record GeneratorParameter : Type := mkGeneratorParameter {
  descriptor : ParameterDescriptor;
  own_schema : jsval;
  own_example : jsval
}.

(** [_generateParameters(parameters)]; [None] is a missing list. *)
Definition _generateParameters (parameters : option (list GeneratorParameter))
  : list jsval :=
  match parameters with
  | None => []
  | Some [] => []
  | Some parameters =>
      map (fun param =>
             VObj [("name", param_name (descriptor param));
                   ("in", VStr (param_in (descriptor param)));
                   ("description", VStr (description_text (descriptor param)));
                   ("required", VBool (param_required (descriptor param) || false));
                   ("schema",
                    JS.or (own_schema param)
                          (VObj [("type",
                                  VStr (or_text (param_type (descriptor param))
                                                "string"))]));
                   ("example", own_example param)])
          (* Body params go in requestBody *)
          (filter (fun param =>
                     negb (String.eqb (param_in (descriptor param)) "body"))
                  parameters)
  end.

(** [_buildSchemaFromParams(bodyParams)] *)
Definition _buildSchemaFromParams (bodyParams : list ParameterDescriptor) : jsval :=
  let properties :=
    fold_left (fun properties param =>
                 JS.assign (JS.to_string (param_name param))
                           (VObj [("type", VStr (or_text (param_type param) "string"));
                                  ("description", VStr (description_text param))])
                           properties)
              bodyParams [] in
  let required :=
    fold_left (fun required param =>
                 if param_required param
                 then (required ++ [param_name param])%list
                 else required)
              bodyParams [] in
  VObj [("type", VStr "object");
        ("properties", VObj properties);
        ("required", match required with
                     | [] => VUndefined
                     | _ :: _ => VArr required
                     end)].

(** [_generateRequestBody(doc)]; the result is an object or [null]. *)
Definition _generateRequestBody (doc : Documentation) : jsval :=
  if negb (JS.truthy (requestSchema doc))
     && negb (existsb (fun p => String.eqb (param_in p) "body") (parameters doc))
  then VNull
  else
    let schema :=
      if JS.truthy (requestSchema doc) then requestSchema doc
      else _buildSchemaFromParams
             (filter (fun p => String.eqb (param_in p) "body") (parameters doc)) in
    VObj [("description", VStr "Request payload");
          ("required", VBool true);
          ("content",
           VObj [("application/json",
                  VObj [("schema", schema);
                        ("example", JS.or (JS.prop "request" (examples doc))
                                          (VObj []))])])].

(** Every maximal run of underscores becomes one underscore. *)
Fixpoint collapse_underscores (s : string) : string :=
  match s with
  | EmptyString => EmptyString
  | String c s' =>
      if Ascii.eqb c "_"
      then if startsWith "_" s'
           then collapse_underscores s'
           else String "_" (collapse_underscores s')
      else String c (collapse_underscores s')
  end.

(** The base name of [_generateSchemaName]: the path without its leading
    separator, with an underscore for every other separator, without
    colons and with every run of underscores collapsed. *)
Definition schema_base_name (path : string) : string :=
  collapse_underscores
    (replaceAll ":" ""
       (replaceAll "/" "_" (DocumentationBuilder.strip_prefix "/" path))).

(** [_generateSchemaName(doc, suffix)] *)
Definition _generateSchemaName (doc : Documentation) (suffix : string) : string :=
  let baseName := schema_base_name (path doc) in
  baseName ++ "_" ++ method doc ++ "_" ++ suffix.

End OpenAPIGenerator.

(* ================================================================== *)
(** * Part II: the notions the properties are stated with *)
(* ================================================================== *)

Module PathSpec.
Import JSString.

(** The name that follows a colon, if one does: a letter or an underscore
    and then as many letters, digits and underscores as there are. *)
Definition name_after (s : string) : list string :=
  match s with
  | String d _ => if is_ident_start d then [take_ident s] else []
  | EmptyString => []
  end.

(** The [:name] tokens of a path, left to right: every colon of the path
    is looked at on its own. *)
Fixpoint colon_tokens (s : string) : list string :=
  match s with
  | EmptyString => []
  | String c s' =>
      if Ascii.eqb c ":" then (name_after s' ++ colon_tokens s')%list
      else colon_tokens s'
  end.

(** No two separators in a row. *)
Fixpoint no_double_separator (s : string) : bool :=
  match s with
  | EmptyString => true
  | String c s' =>
      negb (Ascii.eqb c "/" && startsWith "/" s') && no_double_separator s'
  end.

(** The last character is a separator. *)
Fixpoint ends_with_separator (s : string) : bool :=
  match s with
  | EmptyString => false
  | String c EmptyString => Ascii.eqb c "/"
  | String _ s' => ends_with_separator s'
  end.

(** None of the characters the pattern matcher of the framework leaves
    behind: backslash, caret, dollar and question mark. *)
Definition artifact_free (s : string) : bool :=
  negb (has_char "\" s) && negb (has_char "^" s)
  && negb (has_char "$" s) && negb (has_char "?" s).

(** The literal [pat] occurs somewhere in [s]. *)
Fixpoint occurs (pat s : string) : bool :=
  startsWith pat s
  || match s with
     | EmptyString => false
     | String _ s' => occurs pat s'
     end.

(** The last character is the end anchor. *)
Fixpoint ends_with_anchor (s : string) : bool :=
  match s with
  | EmptyString => false
  | String c EmptyString => Ascii.eqb c "$"
  | String _ s' => ends_with_anchor s'
  end.

(** Nothing is left for a second pass of [_cleanPath] to remove: no
    lookahead group, no caret before a separator, no anchor at the end. *)
Definition residue_free (s : string) : bool :=
  negb (occurs "?(?=/|$)" s) && negb (occurs "^/" s) && negb (ends_with_anchor s).

(** What [_cleanPath] does to a path without artifacts: separators are
    collapsed and a leading one is supplied. *)
Definition normal_form (s : string) : string :=
  if startsWith "/" s then RouteReflector.collapse_separators s
  else "/" ++ RouteReflector.collapse_separators s.

End PathSpec.

Module AnalyzerSpec.

(** The handler text of the destructuring property, and the syntax tree
    the parser builds for it: one declaration of [f], an arrow function
    whose block holds a destructuring declaration and a call statement. *)
Definition destructuring_source : string :=
  "const f = (req,res) => { const {a,b} = req.body; res.json({x:1}); }".

Definition destructuring_tree : node :=
  File (Program [
    VariableDeclaration [
      VariableDeclarator (Identifier "f")
        (Some (ArrowFunctionExpression false [Identifier "req"; Identifier "res"]
          (BlockStatement [
            VariableDeclaration [
              VariableDeclarator
                (ObjectPattern [ObjectProperty (Identifier "a") (Identifier "a");
                                ObjectProperty (Identifier "b") (Identifier "b")])
                (Some (MemberExpression (Identifier "req") (Identifier "body")))];
            ExpressionStatement
              (CallExpression
                 (MemberExpression (Identifier "res") (Identifier "json"))
                 [ObjectExpression
                    [ObjectProperty (Identifier "x") (NumericLiteral 1)]])])))]]).

(** Object and array literals. *)
Definition is_aggregate_literal (v : node) : bool :=
  match v with
  | ObjectExpression _ | ArrayExpression _ => true
  | _ => false
  end.

(** The key under which a member of an object literal is recorded, if it
    is recorded at all. *)
Definition written_key (p : node) : option string :=
  match p with
  | ObjectProperty k _ | ObjectMethod k _ _ =>
      Some (JS.to_string (JS.or (ASTAnalyzer.get_name k) (ASTAnalyzer.get_value k)))
  | SpreadElement _ => Some "...spread"
  | _ => None
  end.

End AnalyzerSpec.

Module BuilderSpec.

(** [q] is a path parameter with the name of [p]. *)
Definition same_path_name (p q : ParameterDescriptor) : bool :=
  JS.eqb (param_name q) (param_name p) && String.eqb (param_in q) "path".

(** The parameters of [d] are those of [base], in order, followed by
    parameters none of which is a second path parameter for a name that
    [base] already declares in the path. *)
Definition seeded_by (base : list ParameterDescriptor) (d : Documentation) : Prop :=
  exists rest,
    parameters d = (base ++ rest)%list
    /\ Forall (fun p => param_in p = "path" -> existsb (same_path_name p) base = false)
              rest.

End BuilderSpec.

Module ChangeSpec.
Import SemanticVersionManager.

(** The records of the previous snapshot, as stored under their keys,
    whose key the current snapshot lacks. *)
Definition removed_records (oldDocs newDocs : list Documentation)
  : list Documentation :=
  map snd (filter (fun kv => negb (JSMap.has (fst kv) (doc_map newDocs)))
                  (doc_map oldDocs)).

(** The keys found in both snapshots, in the order of the current one,
    each as the pair of its previous and its current record. *)
Definition common_records (oldDocs newDocs : list Documentation)
  : list (Documentation * Documentation) :=
  flat_map (fun kv => match JSMap.get (fst kv) (doc_map oldDocs) with
                      | Some oldDoc => [(oldDoc, snd kv)]
                      | None => []
                      end)
           (doc_map newDocs).

Definition removal_message (d : Documentation) : string :=
  "Removed endpoint: " ++ endpoint d.

(** What one key found in both snapshots adds to each list. *)
Definition breaking_of (on : Documentation * Documentation) : list string :=
  mod_breakingChanges (_detectModifications (fst on) (snd on)).

Definition modified_of (on : Documentation * Documentation) : list string :=
  if hasChanges (_detectModifications (fst on) (snd on))
  then [endpoint (snd on)] else [].

Definition internal_of (on : Documentation * Documentation) : list string :=
  if hasInternalChanges (_detectModifications (fst on) (snd on))
  then [endpoint (snd on)] else [].

(** The flags of [_detectModifications]: the breaking flag is set exactly
    when a reason was recorded, and the modified flag only when it is
    not. *)
Definition flags_agree (r : Modifications) : Prop :=
  (hasBreakingChanges r = true <-> mod_breakingChanges r <> [])
  /\ (hasChanges r = true -> hasBreakingChanges r = false).

(** A record with nothing but its method, its path, its parameters and its
    middleware. *)
Definition plain_record (m p : string) (ps : list ParameterDescriptor)
           (mw : list string) : Documentation :=
  mkDocumentation m p "handler" "function" mw ps VNull VNull [] (VObj []) (VObj [])
                  false VUndefined.

End ChangeSpec.

Module ReflectionSpec.
Import JSString.

(** Every character is one of [[a-zA-Z0-9_]]. *)
Fixpoint all_ident_chars (s : string) : bool :=
  match s with
  | EmptyString => true
  | String c s' => is_ident_char c && all_ident_chars s'
  end.

(** A parameter name: a letter or an underscore, then letters, digits and
    underscores. *)
Definition is_identifier (s : string) : bool :=
  match s with
  | EmptyString => false
  | String c s' => is_ident_start c && all_ident_chars s'
  end.

(** What every route of a walk satisfies: a normalised path, repeated as
    [fullPath], the parameters of that path, and a method in upper
    case. *)
Definition well_formed (d : RouteDescriptor) : Prop :=
  startsWith "/" (rd_path d) = true
  /\ PathSpec.no_double_separator (rd_path d) = true
  /\ has_char "\" (rd_path d) = false
  /\ rd_fullPath d = rd_path d
  /\ rd_routeParameters d = RouteReflector._extractPathParameters (rd_path d)
  /\ ExpressReflection.toUpperCase (rd_method d) = rd_method d.

(** The number of routes with method [m]. *)
Definition routes_with_method (m : string) (routes : list RouteDescriptor) : nat :=
  List.length (filter (fun r => String.eqb (rd_method r) m) routes).

(** The count recorded for [m], zero when there is none. *)
Definition count_of (m : string) (counts : list (string * nat)) : nat :=
  match JSMap.get m counts with
  | Some n => n
  | None => 0
  end.

End ReflectionSpec.

Module AnalysisSpec.
Import ASTAnalyzer.

Definition all_truthy (vs : list jsval) : Prop :=
  Forall (fun v => JS.truthy v = true) vs.

(** Nothing recorded is empty: every status code and every request field
    is a truthy value, and so is the message of every thrown error. *)
Definition records_truthy (a : FunctionAnalysis) : Prop :=
  all_truthy (statusCodes (responseUsage a))
  /\ all_truthy (body (requestUsage a))
  /\ all_truthy (query (requestUsage a))
  /\ all_truthy (params (requestUsage a))
  /\ all_truthy (headers (requestUsage a))
  /\ Forall (fun e => JS.truthy (thrown_message e) = true) (thrown a).

(** Strings, numbers and booleans. *)
Definition is_primitive (v : jsval) : bool :=
  match v with
  | VStr _ | VNum _ | VBool _ => true
  | _ => false
  end.

(** The part of an analysis that is fixed before the walk. *)
Definition same_header (a b : FunctionAnalysis) : Prop :=
  name a = name b /\ isAsync a = isAsync b /\ isArrow a = isArrow b
  /\ isClass a = isClass b /\ parameters a = parameters b.

End AnalysisSpec.

Module AssemblySpec.

(** What identifies a record and is copied from its route. *)
Definition identity (d : Documentation)
  : string * string * string * string * list string :=
  (method d, path d, handlerName d, handlerType d, middleware d).

Definition route_identity (r : Route)
  : string * string * string * string * list string :=
  (route_method r, route_path r, route_handlerName r, route_handlerType r,
   route_middleware r).

End AssemblySpec.

Module VersionSpec.
Import SemanticVersionManager.

(** The property names of a schema: the keys of its [properties], none
    when it has no [properties]. *)
Definition schema_property_keys (schema : jsval) : list string :=
  if JS.truthy (JS.prop "properties" schema)
  then JS.keys (JS.prop "properties" schema) else [].

(** The names of the required parameters of a record. *)
Definition required_parameter_names (d : Documentation) : list jsval :=
  map param_name (filter param_required (parameters d)).

(** The records of the current snapshot, as stored under their keys,
    whose key the previous snapshot lacks. *)
Definition added_records (oldDocs newDocs : list Documentation)
  : list Documentation :=
  map snd (filter (fun kv => negb (JSMap.has (fst kv) (doc_map oldDocs)))
                  (doc_map newDocs)).

Definition no_changes : ChangeSet := mkChangeSet [] [] [] [] [].

(** A value that a [Set] of the host compares by value: anything but an
    object or an array, which it compares by identity. *)
Definition by_value (v : jsval) : bool :=
  match v with
  | VArr _ | VObj _ => false
  | _ => true
  end.

(** The status codes and the parameter names of a record are compared by
    value. *)
Definition compared_by_value (d : Documentation) : Prop :=
  Forall (fun code => by_value code = true) (statusCodes d)
  /\ Forall (fun p => by_value (param_name p) = true) (parameters d).

End VersionSpec.

Module OpenAPISpec.
Import JSString.

(** A parameter located in the body. *)
Definition is_body (p : ParameterDescriptor) : bool :=
  String.eqb (param_in p) "body".

(** The schema of a request body object: what it holds under [content],
    [application/json], [schema]. *)
Definition request_schema (requestBody : jsval) : jsval :=
  JS.prop "schema" (JS.prop "application/json" (JS.prop "content" requestBody)).

(** No two underscores in a row. *)
Fixpoint no_double_underscore (s : string) : bool :=
  match s with
  | EmptyString => true
  | String c s' =>
      negb (Ascii.eqb c "_" && startsWith "_" s') && no_double_underscore s'
  end.

End OpenAPISpec.

(* ================================================================== *)
(** * Part III: properties *)
(* ================================================================== *)

(** ** The path normaliser *)

Section PathNormalizer.
Import JSString RouteReflector PathSpec.

Example cleanPath_mount_pattern : _cleanPath "^/api\/?(?=/|$)" = "/api/".
Proof. reflexivity. Qed.

Example extractPathParameters_doc :
  _extractPathParameters "/users/:id/posts/:postId" = ["id"; "postId"].
Proof. reflexivity. Qed.

Lemma replaceAll_absent (a : ascii) (pat' rep s : string) :
  has_char a s = false -> replaceAll (String a pat') rep s = s.
Proof.
  unfold replaceAll.
  induction s as [|c s IH]; intros H; [reflexivity|].
  cbn [has_char] in H. apply orb_false_iff in H as [Hc Hs].
  cbn [replaceAll_from startsWith]. rewrite Hc. cbn. now rewrite IH.
Qed.

Lemma strip_end_anchor_absent (s : string) :
  has_char "$" s = false -> strip_end_anchor s = s.
Proof.
  induction s as [|c s IH]; intros H; [reflexivity|].
  cbn [has_char] in H. apply orb_false_iff in H as [Hc Hs].
  destruct s as [|d s'].
  - cbn [strip_end_anchor]. rewrite Ascii.eqb_sym in Hc. now rewrite Hc.
  - change (String c (strip_end_anchor (String d s')) = String c (String d s')).
    now rewrite IH.
Qed.

Lemma collapse_startsWith (s : string) :
  startsWith "/" (collapse_separators s) = startsWith "/" s.
Proof.
  induction s as [|c s IH]; [reflexivity|].
  cbn [collapse_separators].
  destruct (Ascii.eqb c "/") eqn:Hc.
  - apply Ascii.eqb_eq in Hc; subst c.
    destruct (startsWith "/" s) eqn:Hs.
    + now rewrite IH.
    + reflexivity.
  - reflexivity.
Qed.

Lemma collapse_no_double (s : string) :
  no_double_separator (collapse_separators s) = true.
Proof.
  induction s as [|c s IH]; [reflexivity|].
  cbn [collapse_separators].
  destruct (Ascii.eqb c "/") eqn:Hc.
  - destruct (startsWith "/" s) eqn:Hs; [exact IH|].
    cbn [no_double_separator]. rewrite collapse_startsWith, Hs, IH. reflexivity.
  - cbn [no_double_separator]. rewrite Hc, IH. reflexivity.
Qed.

Lemma collapse_fixed (s : string) :
  no_double_separator s = true -> collapse_separators s = s.
Proof.
  induction s as [|c s IH]; intros H; [reflexivity|].
  cbn [no_double_separator] in H. apply andb_true_iff in H as [H1 H2].
  cbn [collapse_separators].
  destruct (Ascii.eqb c "/") eqn:Hc.
  - apply Ascii.eqb_eq in Hc; subst c.
    destruct (startsWith "/" s) eqn:Hs; [discriminate H1|].
    now rewrite IH.
  - now rewrite IH.
Qed.

Lemma collapse_has_char (a : ascii) (s : string) :
  has_char a s = false -> has_char a (collapse_separators s) = false.
Proof.
  induction s as [|c s IH]; intros H; [reflexivity|].
  cbn [has_char] in H. apply orb_false_iff in H as [Hc Hs].
  cbn [collapse_separators].
  destruct (Ascii.eqb c "/") eqn:Hsl.
  - apply Ascii.eqb_eq in Hsl; subst c.
    destruct (startsWith "/" s); [now apply IH|].
    cbn [has_char]. now rewrite Hc, IH.
  - cbn [has_char]. now rewrite Hc, IH.
Qed.

Lemma artifact_free_chars (s : string) :
  artifact_free s = true ->
  has_char "\" s = false /\ has_char "^" s = false
  /\ has_char "$" s = false /\ has_char "?" s = false.
Proof.
  unfold artifact_free. intros H.
  repeat (apply andb_true_iff in H as [H ?]).
  repeat split; now apply negb_true_iff.
Qed.

Lemma normal_form_startsWith (s : string) : startsWith "/" (normal_form s) = true.
Proof.
  unfold normal_form. destruct (startsWith "/" s) eqn:H.
  - now rewrite collapse_startsWith.
  - reflexivity.
Qed.

Lemma normal_form_no_double (s : string) :
  no_double_separator (normal_form s) = true.
Proof.
  unfold normal_form. destruct (startsWith "/" s) eqn:H.
  - apply collapse_no_double.
  - change (no_double_separator (String "/" (collapse_separators s)) = true).
    cbn [no_double_separator]. rewrite collapse_startsWith, H, collapse_no_double.
    reflexivity.
Qed.

Lemma normal_form_artifact_free (s : string) :
  artifact_free s = true -> artifact_free (normal_form s) = true.
Proof.
  intros H. apply artifact_free_chars in H as (H1 & H2 & H3 & H4).
  assert (F : forall a, has_char a s = false -> Ascii.eqb a "/" = false ->
                        has_char a (normal_form s) = false).
  { intros a Ha Hsl. unfold normal_form. destruct (startsWith "/" s).
    - now apply collapse_has_char.
    - change (has_char a (String "/" (collapse_separators s)) = false).
      cbn [has_char]. rewrite Hsl. now apply collapse_has_char. }
  unfold artifact_free.
  rewrite !F by (assumption || reflexivity). reflexivity.
Qed.

(** On a path without artifacts [_cleanPath] is [normal_form]. *)
Lemma cleanPath_artifact_free (p : string) :
  artifact_free p = true -> _cleanPath p = normal_form p.
Proof.
  intros H. destruct p as [|c p]; [reflexivity|].
  apply artifact_free_chars in H as (H1 & H2 & H3 & H4).
  unfold _cleanPath. cbn [String.eqb].
  do 3 (rewrite (replaceAll_absent _ _ _ (String c p)) by assumption).
  rewrite strip_end_anchor_absent by assumption.
  rewrite collapse_startsWith. unfold normal_form.
  destruct (startsWith "/" (String c p)); reflexivity.
Qed.

Lemma normal_form_idempotent (s : string) : normal_form (normal_form s) = normal_form s.
Proof.
  unfold normal_form at 1.
  rewrite normal_form_startsWith.
  apply collapse_fixed, normal_form_no_double.
Qed.

(** The part of the normal form every result of [_cleanPath] has: it
    starts with one separator and never has two in a row. *)
Lemma cleanPath_leading_separator (p : string) :
  startsWith "/" (_cleanPath p) = true.
Proof.
  unfold _cleanPath. destruct (String.eqb p ""); [reflexivity|].
  cbv zeta.
  match goal with |- context [negb (startsWith "/" ?q)] =>
    destruct (startsWith "/" q) eqn:E end; cbn [negb]; [exact E | reflexivity].
Qed.

Lemma cleanPath_no_double_separator (p : string) :
  no_double_separator (_cleanPath p) = true.
Proof.
  unfold _cleanPath. destruct (String.eqb p ""); [reflexivity|].
  cbv zeta.
  match goal with |- context [collapse_separators ?q] => set (r := q) end.
  destruct (startsWith "/" (collapse_separators r)) eqn:E; cbn [negb].
  - apply collapse_no_double.
  - change (no_double_separator (String "/" (collapse_separators r)) = true).
    cbn [no_double_separator]. rewrite E, collapse_no_double. reflexivity.
Qed.

(** C6 (the code against the claim).  [_cleanPath] keeps a trailing
    separator: on ['/api//users///'], the input of the repository's own
    test, it returns ['/api/users/'] where the claim and the test expect
    ['/api/users']. *)
Theorem cleanPath_keeps_trailing_separator :
  _cleanPath "/api//users///" = "/api/users/"
  /\ ends_with_separator (_cleanPath "/api//users///") = true
  /\ _cleanPath "/api//users///" <> "/api/users".
Proof.
  repeat split; try reflexivity. discriminate.
Qed.

Lemma has_char_app (a : ascii) (s t : string) :
  has_char a (s ++ t) = has_char a s || has_char a t.
Proof.
  induction s as [|c s IH]; [reflexivity|].
  cbn [append has_char]. now rewrite IH, orb_assoc.
Qed.

Lemma replaceAll_from_has_char (a : ascii) (pat rep : string) (s : string) :
  has_char a rep = false -> has_char a s = false ->
  forall k, has_char a (replaceAll_from pat rep k s) = false.
Proof.
  intros Hrep. induction s as [|c s IH]; intros H k; [reflexivity|].
  cbn [has_char] in H. apply orb_false_iff in H as [Hc Hs].
  cbn [replaceAll_from]. destruct k as [|k]; [|now apply IH].
  destruct (startsWith pat (String c s)).
  - rewrite has_char_app, Hrep. now apply IH.
  - cbn [has_char]. rewrite Hc. now apply IH.
Qed.

Lemma replaceAll_removes_char (a : ascii) (s : string) :
  has_char a (replaceAll (String a "") "" s) = false.
Proof.
  unfold replaceAll. induction s as [|c s IH]; [reflexivity|].
  cbn [replaceAll_from startsWith String.length Nat.sub].
  destruct (Ascii.eqb a c) eqn:E; cbn [andb append].
  - exact IH.
  - cbn [has_char]. now rewrite E, IH.
Qed.

Lemma strip_end_anchor_has_char (a : ascii) (s : string) :
  has_char a s = false -> has_char a (strip_end_anchor s) = false.
Proof.
  induction s as [|c s IH]; intros H; [reflexivity|].
  cbn [has_char] in H. apply orb_false_iff in H as [Hc Hs].
  destruct s as [|d s'].
  - cbn [strip_end_anchor]. destruct (Ascii.eqb c "$"); [reflexivity|].
    cbn [has_char]. now rewrite Hc.
  - change (has_char a (String c (strip_end_anchor (String d s'))) = false).
    cbn [has_char]. rewrite Hc. now apply IH.
Qed.

(** No backslash survives [_cleanPath]. *)
Lemma cleanPath_no_backslash (p : string) : has_char "\" (_cleanPath p) = false.
Proof.
  unfold _cleanPath. destruct (String.eqb p ""); [reflexivity|]. cbv zeta.
  match goal with |- context [collapse_separators ?q] =>
    assert (H : has_char "\" (collapse_separators q) = false) end.
  { apply collapse_has_char, strip_end_anchor_has_char.
    apply replaceAll_from_has_char; [reflexivity|].
    apply replaceAll_from_has_char; [reflexivity|].
    apply replaceAll_removes_char. }
  destruct (negb _); [|exact H].
  rewrite has_char_app, H. reflexivity.
Qed.

Lemma replaceAll_no_occurrence (pat rep s : string) :
  occurs pat s = false -> replaceAll pat rep s = s.
Proof.
  unfold replaceAll. induction s as [|c s IH]; intros H; [reflexivity|].
  cbn [occurs] in H. apply orb_false_iff in H as [H1 H2].
  cbn [replaceAll_from]. rewrite H1. now rewrite IH.
Qed.

Lemma strip_end_anchor_no_anchor (s : string) :
  ends_with_anchor s = false -> strip_end_anchor s = s.
Proof.
  induction s as [|c s IH]; intros H; [reflexivity|].
  destruct s as [|d s'].
  - cbn [ends_with_anchor] in H. cbn [strip_end_anchor]. now rewrite H.
  - change (String c (strip_end_anchor (String d s')) = String c (String d s')).
    rewrite IH; [reflexivity|exact H].
Qed.

Lemma startsWith_length (pat s : string) :
  startsWith pat s = true -> String.length pat <= String.length s.
Proof.
  revert s. induction pat as [|a pat IH]; intros s H; [apply Nat.le_0_l|].
  destruct s as [|c s]; [discriminate|].
  cbn [startsWith] in H. apply andb_true_iff in H as [_ H].
  cbn [String.length]. apply le_n_S. now apply IH.
Qed.

Lemma length_append (s t : string) :
  String.length (s ++ t) = String.length s + String.length t.
Proof. induction s as [|c s IH]; [reflexivity|]. cbn. now rewrite IH. Qed.

(** A replacement that is not longer than its pattern never lengthens the
    text, whatever part of a match is still to be passed. *)
Lemma replaceAll_from_length (pat rep : string) :
  String.length rep <= String.length pat ->
  forall s k, String.length (replaceAll_from pat rep k s) <= String.length s - k.
Proof.
  intros Hrep. induction s as [|c s IH]; intros k; [apply Nat.le_0_l|].
  cbn [replaceAll_from]. destruct k as [|k]; [|apply IH].
  destruct (startsWith pat (String c s)) eqn:M.
  - apply startsWith_length in M. cbn [String.length] in M |- *.
    rewrite length_append.
    specialize (IH (String.length pat - 1)). lia.
  - cbn [String.length]. specialize (IH 0). lia.
Qed.

(** A shorter replacement shortens the text as soon as the pattern
    occurs. *)
Lemma replaceAll_shortens (pat rep : string) :
  String.length rep < String.length pat ->
  forall s, occurs pat s = true ->
            String.length (replaceAll pat rep s) < String.length s.
Proof.
  intros Hrep. unfold replaceAll.
  induction s as [|c s IH]; intros H.
  - destruct pat; [cbn in Hrep; lia|discriminate].
  - cbn [replaceAll_from]. destruct (startsWith pat (String c s)) eqn:M.
    + apply startsWith_length in M. cbn [String.length] in M |- *.
      rewrite length_append.
      pose proof (replaceAll_from_length pat rep (Nat.lt_le_incl _ _ Hrep) s
                                         (String.length pat - 1)).
      lia.
    + cbn [occurs] in H. rewrite M in H. cbn [orb] in H.
      cbn [String.length]. apply IH in H. lia.
Qed.

Lemma strip_end_anchor_length (s : string) :
  String.length (strip_end_anchor s) <= String.length s
  /\ (ends_with_anchor s = true ->
      String.length (strip_end_anchor s) < String.length s).
Proof.
  induction s as [|c s IH]; [split; [apply Nat.le_refl|discriminate]|].
  destruct s as [|d s'].
  - cbn [strip_end_anchor ends_with_anchor].
    destruct (Ascii.eqb c "$"); cbn; split; try lia; discriminate.
  - change (strip_end_anchor (String c (String d s')))
      with (String c (strip_end_anchor (String d s'))).
    change (ends_with_anchor (String c (String d s')))
      with (ends_with_anchor (String d s')).
    cbn [String.length] in *. destruct IH as [I1 I2]. split; [lia|].
    intros H. apply I2 in H. lia.
Qed.

Lemma collapse_length (s : string) :
  String.length (collapse_separators s) <= String.length s.
Proof.
  induction s as [|c s IH]; [apply Nat.le_refl|].
  cbn [collapse_separators].
  destruct (Ascii.eqb c "/"); [destruct (startsWith "/" s)|]; cbn [String.length]; lia.
Qed.

Lemma strip_end_anchor_startsWith (s : string) :
  startsWith "/" s = true -> startsWith "/" (strip_end_anchor s) = true.
Proof.
  destruct s as [|c s]; [discriminate|]. intros H.
  cbn [startsWith] in H. apply andb_true_iff in H as [H _].
  apply Ascii.eqb_eq in H; subst c.
  destruct s; reflexivity.
Qed.

(** A second pass of [_cleanPath] over a result of [_cleanPath]: it
    changes nothing when no residue is left, and shortens the path when
    some is. *)
Lemma cleanPath_second_pass (q : string) :
  startsWith "/" q = true -> no_double_separator q = true ->
  has_char "\" q = false ->
  (residue_free q = true -> _cleanPath q = q)
  /\ (residue_free q = false -> String.length (_cleanPath q) < String.length q).
Proof.
  intros Hs Hd Hb.
  destruct q as [|c q]; [discriminate|].
  pose proof Hs as Hc. cbn [startsWith] in Hc. apply andb_true_iff in Hc as [Hc _].
  apply Ascii.eqb_eq in Hc; subst c.
  unfold _cleanPath. cbn [String.eqb]. cbv zeta.
  rewrite (replaceAll_absent "\" "" "" (String "/" q) Hb).
  set (s2 := replaceAll "?(?=/|$)" "" (String "/" q)).
  set (s3 := replaceAll "^/" "/" s2).
  assert (W2 : startsWith "/" s2 = true) by reflexivity.
  assert (W3 : startsWith "/" s3 = true).
  { subst s3 s2. reflexivity. }
  assert (W5 : startsWith "/" (collapse_separators (strip_end_anchor s3)) = true).
  { rewrite collapse_startsWith. now apply strip_end_anchor_startsWith. }
  rewrite W5. cbn [negb].
  assert (L2 : String.length s2 <= String.length (String "/" q)).
  { subst s2. unfold replaceAll.
    pose proof (replaceAll_from_length "?(?=/|$)" "" (Nat.le_0_l _) (String "/" q) 0).
    lia. }
  assert (L3 : String.length s3 <= String.length s2).
  { subst s3. unfold replaceAll.
    assert (R : String.length "/" <= String.length "^/") by (cbn; lia).
    pose proof (replaceAll_from_length "^/" "/" R s2 0). lia. }
  pose proof (strip_end_anchor_length s3) as [L4 L4'].
  pose proof (collapse_length (strip_end_anchor s3)) as L5.
  split; intros R.
  - unfold residue_free in R.
    apply andb_true_iff in R as [R R3]. apply andb_true_iff in R as [R1 R2].
    apply negb_true_iff in R1, R2, R3.
    assert (E2 : s2 = String "/" q) by (subst s2; now apply replaceAll_no_occurrence).
    assert (E3 : s3 = String "/" q).
    { subst s3. rewrite E2. now apply replaceAll_no_occurrence. }
    rewrite E3, strip_end_anchor_no_anchor by assumption.
    now apply collapse_fixed.
  - unfold residue_free in R.
    destruct (occurs "?(?=/|$)" (String "/" q)) eqn:R1.
    { assert (String.length s2 < String.length (String "/" q)).
      { subst s2. apply replaceAll_shortens; [cbn; lia|assumption]. }
      lia. }
    assert (E2 : s2 = String "/" q) by (subst s2; now apply replaceAll_no_occurrence).
    destruct (occurs "^/" (String "/" q)) eqn:R2.
    { assert (String.length s3 < String.length s2).
      { subst s3. apply replaceAll_shortens; [cbn; lia|]. now rewrite E2. }
      lia. }
    assert (E3 : s3 = String "/" q).
    { subst s3. rewrite E2. now apply replaceAll_no_occurrence. }
    cbn [negb andb] in R. apply negb_false_iff in R.
    rewrite E3 in *. apply L4' in R. lia.
Qed.

(** C7, as stated, fails: the second pass removes an end anchor that the
    first pass left. *)
Lemma cleanPath_not_idempotent :
  _cleanPath (_cleanPath "$$") <> _cleanPath "$$".
Proof. discriminate. Qed.

(** C7 (amended).  A second [_cleanPath] changes nothing exactly when the
    first one left no residue: no lookahead group, no caret before a
    separator and no end anchor in its result.  This is so for every path
    that has none of the characters backslash, caret, dollar and question
    mark. *)
Theorem cleanPath_idempotent_without_residue (p : string) :
  (_cleanPath (_cleanPath p) = _cleanPath p <-> residue_free (_cleanPath p) = true)
  /\ (artifact_free p = true -> _cleanPath (_cleanPath p) = _cleanPath p).
Proof.
  pose proof (cleanPath_second_pass (_cleanPath p)
                (cleanPath_leading_separator p)
                (cleanPath_no_double_separator p)
                (cleanPath_no_backslash p)) as [Fix Short].
  split.
  - split; [|exact Fix].
    intros E. destruct (residue_free (_cleanPath p)); [reflexivity|].
    specialize (Short eq_refl). rewrite E in Short. lia.
  - intros H.
    rewrite (cleanPath_artifact_free p H).
    rewrite cleanPath_artifact_free by now apply normal_form_artifact_free.
    apply normal_form_idempotent.
Qed.

Lemma cleanPath_idempotent_without_residue_witness :
  artifact_free "/api//users/:id/" = true
  /\ _cleanPath (_cleanPath "/api//users/:id/") = _cleanPath "/api//users/:id/".
Proof.
  split; [reflexivity|].
  apply (proj2 (cleanPath_idempotent_without_residue "/api//users/:id/")).
  reflexivity.
Defined.

Lemma take_ident_collapse (s : string) :
  take_ident (collapse_separators s) = take_ident s.
Proof.
  induction s as [|c s IH]; [reflexivity|].
  cbn [collapse_separators].
  destruct (Ascii.eqb c "/") eqn:Hc.
  - apply Ascii.eqb_eq in Hc; subst c.
    destruct (startsWith "/" s) eqn:Hs.
    + rewrite IH. destruct s as [|d s']; [discriminate Hs|].
      cbn [startsWith] in Hs. apply andb_true_iff in Hs as [Hd _].
      apply Ascii.eqb_eq in Hd; subst d. reflexivity.
    + reflexivity.
  - cbn [take_ident]. now rewrite IH.
Qed.

Lemma collapse_first_char (s : string) :
  match collapse_separators s, s with
  | String a _, String b _ => a = b
  | EmptyString, EmptyString => True
  | _, _ => False
  end.
Proof.
  induction s as [|c s IH]; [exact I|].
  cbn [collapse_separators].
  destruct (Ascii.eqb c "/") eqn:Hc; [|reflexivity].
  apply Ascii.eqb_eq in Hc; subst c.
  destruct (startsWith "/" s) eqn:Hs; [|reflexivity].
  destruct s as [|d s']; [discriminate Hs|].
  cbn [startsWith] in Hs. apply andb_true_iff in Hs as [Hd _].
  apply Ascii.eqb_eq in Hd; subst d.
  destruct (collapse_separators (String "/" s')); [contradiction|]. now symmetry.
Qed.

Lemma name_after_collapse (s : string) :
  name_after (collapse_separators s) = name_after s.
Proof.
  unfold name_after.
  pose proof (collapse_first_char s) as H.
  pose proof (take_ident_collapse s) as T.
  destruct (collapse_separators s) as [|a r], s as [|b s']; try contradiction.
  - reflexivity.
  - subst b. now rewrite T.
Qed.

Lemma colon_tokens_collapse (s : string) :
  colon_tokens (collapse_separators s) = colon_tokens s.
Proof.
  induction s as [|c s IH]; [reflexivity|].
  cbn [collapse_separators].
  destruct (Ascii.eqb c "/") eqn:Hc.
  - apply Ascii.eqb_eq in Hc; subst c.
    destruct (startsWith "/" s); cbn [colon_tokens]; exact IH.
  - cbn [colon_tokens]. now rewrite IH, name_after_collapse.
Qed.

Lemma colon_tokens_normal_form (s : string) :
  colon_tokens (normal_form s) = colon_tokens s.
Proof.
  unfold normal_form. destruct (startsWith "/" s).
  - apply colon_tokens_collapse.
  - change (colon_tokens (String "/" (collapse_separators s)) = colon_tokens s).
    cbn [colon_tokens]. apply colon_tokens_collapse.
Qed.

Lemma is_ident_char_not_colon (c : ascii) :
  is_ident_char c = true -> Ascii.eqb c ":" = false.
Proof.
  intros H. destruct (Ascii.eqb c ":") eqn:E; [|reflexivity].
  apply Ascii.eqb_eq in E; subst c. discriminate H.
Qed.

(** The loop of [_extractPathParameters], resumed anywhere inside a name,
    finds the tokens that are still ahead. *)
Lemma exec_loop_tokens (s : string) :
  forall k, k <= String.length (take_ident s) -> exec_loop k s = colon_tokens s.
Proof.
  induction s as [|c s IH]; intros k Hk; [reflexivity|].
  destruct k as [|k].
  - cbn [exec_loop colon_tokens].
    destruct (Ascii.eqb c ":"); [|apply IH, Nat.le_0_l].
    destruct s as [|d s']; [reflexivity|].
    unfold name_after.
    destruct (is_ident_start d).
    + cbv zeta. cbn [app]. f_equal. apply IH. apply Nat.le_refl.
    + cbn [app]. apply IH, Nat.le_0_l.
  - cbn [take_ident] in Hk.
    destruct (is_ident_char c) eqn:Hc; [|cbn in Hk; lia].
    cbn [String.length] in Hk.
    cbn [exec_loop colon_tokens].
    rewrite (is_ident_char_not_colon c Hc).
    apply IH. lia.
Qed.

Lemma extractPathParameters_tokens (s : string) :
  _extractPathParameters s = colon_tokens s.
Proof. apply exec_loop_tokens, Nat.le_0_l. Qed.

(** C2, as stated, fails: a name that the path repeats is returned once
    per occurrence. *)
Lemma extractParameters_keeps_duplicates :
  _extractPathParameters (_cleanPath "/a/:id/b/:id") = ["id"; "id"]
  /\ ~ NoDup (_extractPathParameters (_cleanPath "/a/:id/b/:id")).
Proof.
  split; [reflexivity|].
  intros H. change (NoDup ["id"; "id"]) in H.
  inversion H as [|x l Hin _]; subst. apply Hin. now left.
Qed.

(** C2 (amended).  [_extractPathParameters (_cleanPath p)] is the list of
    the [:name] tokens of the cleaned path, left to right, one entry per
    occurrence; when [p] has no artifact character these are the tokens
    of [p] itself. *)
Theorem extractParameters_clean_tokens (p : string) :
  _extractPathParameters (_cleanPath p) = colon_tokens (_cleanPath p)
  /\ (artifact_free p = true ->
      _extractPathParameters (_cleanPath p) = colon_tokens p).
Proof.
  split; [apply extractPathParameters_tokens|].
  intros H. rewrite extractPathParameters_tokens, (cleanPath_artifact_free p H).
  apply colon_tokens_normal_form.
Qed.

Lemma extractParameters_clean_tokens_witness :
  artifact_free "users//:id/posts/:postId/:id" = true
  /\ _extractPathParameters (_cleanPath "users//:id/posts/:postId/:id")
     = ["id"; "postId"; "id"].
Proof.
  split; [reflexivity|].
  rewrite (proj2 (extractParameters_clean_tokens "users//:id/posts/:postId/:id"))
    by reflexivity.
  reflexivity.
Defined.

End PathNormalizer.

(** ** The handler analysis *)

Section HandlerAnalysis.
Import ASTAnalyzer AnalyzerSpec.

Lemma string_eqb_neq (a b : string) : a <> b -> String.eqb a b = false.
Proof. intros H. now apply String.eqb_neq. Qed.

Lemma get_define_same (k : string) (v : jsval) (o : list (string * jsval)) :
  JS.get k (JS.define k v o) = Some v.
Proof.
  induction o as [|[k' v'] o IH]; cbn [JS.define JS.get].
  - now rewrite String.eqb_refl.
  - destruct (String.eqb k k') eqn:E; cbn [JS.get]; rewrite ?String.eqb_refl, ?E; auto.
Qed.

Lemma get_define_other (k k' : string) (v : jsval) (o : list (string * jsval)) :
  k <> k' -> JS.get k (JS.define k' v o) = JS.get k o.
Proof.
  intros N. induction o as [|[k2 v2] o IH]; cbn [JS.define JS.get].
  - now rewrite string_eqb_neq.
  - destruct (String.eqb k' k2) eqn:E; cbn [JS.get].
    + apply String.eqb_eq in E; subst k2. now rewrite string_eqb_neq.
    + now rewrite IH.
Qed.

Lemma get_assign_same (k : string) (v : jsval) (o : list (string * jsval)) :
  k <> "__proto__" -> JS.get k (JS.assign k v o) = Some v.
Proof.
  intros N. unfold JS.assign. rewrite string_eqb_neq by assumption.
  apply get_define_same.
Qed.

Lemma get_assign_other (k k' : string) (v : jsval) (o : list (string * jsval)) :
  k <> k' -> JS.get k (JS.assign k' v o) = JS.get k o.
Proof.
  intros N. unfold JS.assign. destruct (String.eqb k' "__proto__"); [reflexivity|].
  now apply get_define_other.
Qed.

(** A member that is recorded under another key, or not at all, leaves the
    entry of [key] alone. *)
Lemma structure_step_other (key : string) (p : node) (o : list (string * jsval)) :
  written_key p <> Some key -> JS.get key (structure_step o p) = JS.get key o.
Proof.
  intros N. destruct p; try reflexivity; cbn [structure_step written_key] in *;
    apply get_assign_other; intros E; apply N; now rewrite E.
Qed.

Lemma structure_fold_other (key : string) (ps : list node) :
  forall o, (forall p, In p ps -> written_key p <> Some key) ->
            JS.get key (fold_left structure_step ps o) = JS.get key o.
Proof.
  induction ps as [|p ps IH]; intros o H; [reflexivity|].
  cbn [fold_left]. rewrite IH by (intros q Hq; apply H; now right).
  apply structure_step_other, H. now left.
Qed.

(** The value recorded for a property of an object literal. *)
Lemma property_value_table (v : node) :
  (if JS.eqb (_extractLiteralValue (Some v)) VNull
   then VStr "unknown" else _extractLiteralValue (Some v))
  = match v with
    | StringLiteral s => VStr s
    | NumericLiteral z => VNum z
    | BooleanLiteral b => VBool b
    | TemplateLiteral _ => VStr "template_string"
    | Identifier x => VStr ("var:" ++ x)
    | NullLiteral => VStr "unknown"
    | _ => VStr "complex_expression"
    end.
Proof. destruct v; reflexivity. Qed.

(** C4, as stated, fails: a null literal, which is none of the listed
    kinds, is recorded as ['unknown'] and not as ['complex_expression'];
    and a nested object literal and an array literal in property position
    are recorded as ['complex_expression'], not as nested shapes. *)
Lemma extractObjectStructure_property_not_as_claimed :
  let inner := ObjectExpression [ObjectProperty (Identifier "b") (NumericLiteral 1)] in
  let items := ArrayExpression [Some (NumericLiteral 1)] in
  let shape := _extractObjectStructure
                 (ObjectExpression [ObjectProperty (Identifier "n") NullLiteral;
                                    ObjectProperty (Identifier "a") inner;
                                    ObjectProperty (Identifier "c") items]) in
  shape = VObj [("n", VStr "unknown"); ("a", VStr "complex_expression");
                ("c", VStr "complex_expression")]
  /\ JS.prop "n" shape <> VStr "complex_expression"
  /\ JS.prop "a" shape <> _extractObjectStructure inner
  /\ JS.prop "c" shape <> _extractObjectStructure items.
Proof. repeat split; try reflexivity; discriminate. Qed.

(** C4 (amended).  In the shape of an object literal, the last property
    written under a key decides its entry.  For a property value that is
    not itself an object or array literal: a string, number or boolean
    literal gives its value, a template literal ['template_string'], an
    identifier ['var:' + name], a null literal ['unknown'], and any other
    expression (a call, a conditional, a binary expression)
    ['complex_expression'].  A spread element gives the entry ['...spread']
    with the value ['object'].  The shape of an array literal is the array
    of the shapes of its elements. *)
Theorem extractObjectStructure_shape :
  (forall (before after : list node) (k v : node) (key : string),
      written_key (ObjectProperty k v) = Some key ->
      key <> "__proto__" ->
      (forall p, In p after -> written_key p <> Some key) ->
      is_aggregate_literal v = false ->
      JS.prop key (_extractObjectStructure
                     (ObjectExpression (before ++ ObjectProperty k v :: after)%list))
      = match v with
        | StringLiteral s => VStr s
        | NumericLiteral z => VNum z
        | BooleanLiteral b => VBool b
        | TemplateLiteral _ => VStr "template_string"
        | Identifier x => VStr ("var:" ++ x)
        | NullLiteral => VStr "unknown"
        | _ => VStr "complex_expression"
        end)
  /\ (forall (before after : list node) (e : node),
         (forall p, In p after -> written_key p <> Some "...spread") ->
         JS.prop "...spread"
                 (_extractObjectStructure
                    (ObjectExpression (before ++ SpreadElement e :: after)%list))
         = VStr "object")
  /\ (forall els : list (option node),
         _extractObjectStructure (ArrayExpression els)
         = VArr (map _extractObjectStructure_opt els)).
Proof.
  split; [|split].
  - intros before after k v key Hk Hp Hafter _.
    cbn [_extractObjectStructure JS.prop].
    rewrite fold_left_app. cbn [fold_left].
    rewrite structure_fold_other by assumption.
    cbn [written_key] in Hk. injection Hk as Hk.
    cbn [structure_step property_value]. rewrite Hk.
    rewrite get_assign_same by assumption.
    apply property_value_table.
  - intros before after e Hafter.
    cbn [_extractObjectStructure JS.prop].
    rewrite fold_left_app. cbn [fold_left].
    rewrite structure_fold_other by assumption.
    cbn [structure_step]. rewrite get_assign_same by discriminate. reflexivity.
  - intros els. cbn [_extractObjectStructure]. f_equal.
Qed.

Lemma extractObjectStructure_shape_witness :
  JS.prop "total"
          (_extractObjectStructure
             (ObjectExpression
                ([ObjectProperty (Identifier "success") (BooleanLiteral true)]
                   ++ ObjectProperty (Identifier "total")
                        (CallExpression (Identifier "count") [Identifier "items"])
                   :: [SpreadElement (Identifier "rest")])%list))
  = VStr "complex_expression".
Proof.
  apply (proj1 extractObjectStructure_shape
               [ObjectProperty (Identifier "success") (BooleanLiteral true)]
               [SpreadElement (Identifier "rest")]
               (Identifier "total")
               (CallExpression (Identifier "count") [Identifier "items"])
               "total").
  - reflexivity.
  - discriminate.
  - intros p [<-|[]]. discriminate.
  - reflexivity.
Defined.

(** The chained form [res.status(201).json({ok: true})]: the code is
    recorded by the chain and again by the inner call, and the structure
    carries it under [status]. *)
Example status_json_chain :
  let call := CallExpression
                (MemberExpression
                   (CallExpression
                      (MemberExpression (Identifier "res") (Identifier "status"))
                      [NumericLiteral 201])
                   (Identifier "json"))
                [ObjectExpression
                   [ObjectProperty (Identifier "ok") (BooleanLiteral true)]] in
  let fa := _analyzeFunctionNode
              (ArrowFunctionExpression false [Identifier "req"; Identifier "res"]
                 (BlockStatement [ExpressionStatement call]))
              (VStr "create") in
  statusCodes (responseUsage fa) = [VNum 201; VNum 201]
  /\ structures (responseUsage fa)
     = [VObj [("status", VNum 201); ("ok", VBool true)]].
Proof. split; reflexivity. Qed.

(** A nested access [req.body.email] is seen twice by the walk: the outer
    member expression records the field, the inner one the sentinel. *)
Example nested_access_records_both :
  let fa := _analyzeFunctionNode
              (ArrowFunctionExpression false [Identifier "req"; Identifier "res"]
                 (BlockStatement
                    [ExpressionStatement
                       (MemberExpression
                          (MemberExpression (Identifier "req") (Identifier "body"))
                          (Identifier "email"))]))
              VUndefined in
  body (requestUsage fa) = [VStr "email"; VStr "__ALL__"].
Proof. reflexivity. Qed.

(** A two-level access [X.Y.Z] on a request identifier records [Z] into the
    set named by [Y], for each of the four names. *)
Lemma analyzeMemberExpression_two_level (x z : string) (a : FunctionAnalysis) :
  is_request_identifier x = true -> z <> "" ->
  let access := fun y => MemberExpression
                           (MemberExpression (Identifier x) (Identifier y))
                           (Identifier z) in
  _analyzeMemberExpression (access "body") a = push_body (VStr z) a
  /\ _analyzeMemberExpression (access "query") a = push_query (VStr z) a
  /\ _analyzeMemberExpression (access "params") a = push_params (VStr z) a
  /\ _analyzeMemberExpression (access "headers") a = push_headers (VStr z) a.
Proof.
  intros Hx Hz access. subst access.
  destruct z as [|c z]; [congruence|].
  cbv beta. cbn [_analyzeMemberExpression]. rewrite Hx.
  repeat split.
Qed.

(** A one-level access [X.Y] records the sentinel for [body], [query] and
    [params]. *)
Lemma analyzeMemberExpression_one_level (x : string) (a : FunctionAnalysis) :
  is_request_identifier x = true ->
  let access := fun y => MemberExpression (Identifier x) (Identifier y) in
  _analyzeMemberExpression (access "body") a = push_body (VStr "__ALL__") a
  /\ _analyzeMemberExpression (access "query") a = push_query (VStr "__ALL__") a
  /\ _analyzeMemberExpression (access "params") a = push_params (VStr "__ALL__") a.
Proof.
  intros Hx access. subst access. cbv beta.
  cbn [_analyzeMemberExpression]. rewrite Hx. repeat split.
Qed.

(** C5 (the code against the claim).  A one-level access [X.headers] on a
    request identifier records nothing: the branch that handles [body],
    [query] and [params] has no case for [headers], so the sentinel never
    reaches that set. *)
Theorem analyzeMemberExpression_headers_one_level (x : string) (a : FunctionAnalysis) :
  is_request_identifier x = true ->
  _analyzeMemberExpression (MemberExpression (Identifier x) (Identifier "headers")) a
  = a.
Proof.
  intros Hx. cbn [_analyzeMemberExpression]. rewrite Hx. reflexivity.
Qed.

Lemma analyzeMemberExpression_headers_one_level_witness :
  headers (requestUsage
             (_analyzeMemberExpression
                (MemberExpression (Identifier "req") (Identifier "headers"))
                (_analyzeFunctionNode
                   (ArrowFunctionExpression false [Identifier "req"] (BlockStatement []))
                   VUndefined)))
  = [].
Proof.
  rewrite (analyzeMemberExpression_headers_one_level "req") by reflexivity.
  reflexivity.
Defined.

(** The same on a whole handler, [(req, res) => { const h = req.headers; }]:
    no request usage at all is recorded. *)
Example whole_headers_handler :
  requestUsage
    (_analyzeFunctionNode
       (ArrowFunctionExpression false [Identifier "req"; Identifier "res"]
          (BlockStatement
             [VariableDeclaration
                [VariableDeclarator (Identifier "h")
                   (Some (MemberExpression (Identifier "req")
                                           (Identifier "headers")))]]))
       VUndefined)
  = mkRequestUsage [] [] [] [].
Proof. reflexivity. Qed.

(** C3 (the code against the claim).  On the handler text of the claim the
    analysis records the sentinel alone for the destructured [req.body]:
    the names [a] and [b] are not in [requestUsage.body].  The first
    response structure is [{x: 1}], as claimed. *)
Theorem analyzeCode_destructured_body (parse : string -> node + string) :
  parse destructuring_source = inl destructuring_tree ->
  exists fa,
    functions (analyzeCode parse destructuring_source) = [fa]
    /\ body (requestUsage fa) = [VStr "__ALL__"]
    /\ JS.includes (VStr "a") (body (requestUsage fa)) = false
    /\ JS.includes (VStr "b") (body (requestUsage fa)) = false
    /\ nth_error (structures (responseUsage fa)) 0 = Some (VObj [("x", VNum 1)]).
Proof.
  intros H. unfold analyzeCode. rewrite H.
  eexists. split; [reflexivity|]. repeat split.
Qed.

Lemma analyzeCode_destructured_body_witness :
  exists fa,
    functions (analyzeCode (fun _ => inl destructuring_tree) destructuring_source)
    = [fa]
    /\ body (requestUsage fa) = [VStr "__ALL__"]
    /\ JS.includes (VStr "a") (body (requestUsage fa)) = false
    /\ JS.includes (VStr "b") (body (requestUsage fa)) = false
    /\ nth_error (structures (responseUsage fa)) 0 = Some (VObj [("x", VNum 1)]).
Proof.
  apply (analyzeCode_destructured_body (fun _ => inl destructuring_tree)).
  reflexivity.
Defined.

End HandlerAnalysis.

(** ** The assembly of a documentation record *)

Section Assembly.
Import DocumentationBuilder BuilderSpec.

Lemma fold_left_invariant {A B : Type} (P : A -> Prop) (f : A -> B -> A) (l : list B) :
  (forall a x, P a -> P (f a x)) -> forall a, P a -> P (fold_left f l a).
Proof.
  intros step. induction l as [|x l IH]; intros a Ha; [exact Ha|].
  cbn [fold_left]. apply IH, step, Ha.
Qed.

Lemma seeded_by_same_parameters (base : list ParameterDescriptor) (d d' : Documentation) :
  parameters d' = parameters d -> seeded_by base d -> seeded_by base d'.
Proof. intros E (rest & H & F). exists rest. now rewrite E. Qed.

Lemma seeded_by_push (base : list ParameterDescriptor) (d : Documentation)
      (p : ParameterDescriptor) :
  (param_in p = "path" -> existsb (same_path_name p) base = false) ->
  seeded_by base d -> seeded_by base (push_parameter p d).
Proof.
  intros Hp (rest & H & F). exists (rest ++ [p])%list. split.
  - cbn. rewrite H. now rewrite app_assoc.
  - apply Forall_app. split; [assumption|]. now constructor.
Qed.

Lemma seeded_by_extractRequestParameters (base : list ParameterDescriptor)
      (fa : ASTAnalyzer.FunctionAnalysis) (d : Documentation) :
  seeded_by base d -> seeded_by base (_extractRequestParameters fa d).
Proof.
  intros H. unfold _extractRequestParameters. cbv zeta.
  apply fold_left_invariant.
  { intros a x Ha. apply seeded_by_push; [discriminate|assumption]. }
  apply fold_left_invariant.
  { intros a x Ha.
    destruct (existsb _ (parameters a)) eqn:E; [assumption|].
    apply seeded_by_push; [|assumption].
    intros _. destruct Ha as (rest & Hpar & _).
    rewrite Hpar, existsb_app in E. apply orb_false_iff in E as [E _].
    exact E. }
  apply fold_left_invariant.
  { intros a x Ha. apply seeded_by_push; [discriminate|assumption]. }
  destruct (ASTAnalyzer.body (ASTAnalyzer.requestUsage fa)) as [|b bs]; [assumption|].
  match goal with |- context [fold_left ?f ?l d] =>
    assert (S : seeded_by base (fold_left f l d)) end.
  { apply fold_left_invariant; [|assumption].
    intros a x Ha. apply seeded_by_push; [discriminate|assumption]. }
  match goal with |- seeded_by base (if ?c then _ else _) => destruct c end;
    [|exact S].
  eapply seeded_by_same_parameters; [|exact S]. reflexivity.
Qed.

Lemma extractResponseStructure_parameters (fa : ASTAnalyzer.FunctionAnalysis)
      (d : Documentation) :
  parameters (_extractResponseStructure fa d) = parameters d.
Proof.
  unfold _extractResponseStructure.
  destruct (ASTAnalyzer.structures _), (ASTAnalyzer.returnValues _); cbv zeta;
    try reflexivity;
    match goal with |- context [if ?c then _ else _] => destruct c end; reflexivity.
Qed.

Lemma loadSchemas_parameters (schemaPath : string -> string -> string)
      (readSchema : string -> option jsval) (d : Documentation) :
  parameters (_loadSchemas schemaPath readSchema d) = parameters d.
Proof.
  unfold _loadSchemas. cbv zeta.
  destruct (readSchema (schemaPath "request" _));
    destruct (readSchema (schemaPath "response" _)); reflexivity.
Qed.

Lemma not_same_path_name (x : string) (p : ParameterDescriptor) (base : list ParameterDescriptor) :
  In (path_parameter (VStr x)) base ->
  existsb (same_path_name p) base = false -> param_name p <> VStr x.
Proof.
  intros Hin E N.
  assert (T : existsb (same_path_name p) base = true).
  { apply existsb_exists. exists (path_parameter (VStr x)). split; [assumption|].
    unfold same_path_name. rewrite N. cbn. now rewrite String.eqb_refl. }
  congruence.
Qed.

(** C8.  A route with path [/users/:id/posts/:postId] whose parameters are
    those extracted from the path is always documented with the two path
    parameters [id] and [postId], located in the path and required:
    whatever the handler source is or whether there is one, whatever the
    parser and the schema files give, they open the parameter list and no
    later entry is a path parameter of either name; the minimal record of
    the error fallback has exactly the two. *)
Theorem path_parameters_always_documented
        (parse : string -> node + string)
        (schemaPath : string -> string -> string)
        (readSchema : string -> option jsval)
        (route : Route) (message : string) :
  route_path route = "/users/:id/posts/:postId" ->
  routeParameters route = RouteReflector._extractPathParameters (route_path route) ->
  (exists rest,
      parameters (_buildRouteDocumentation parse schemaPath readSchema route)
      = mkParameter (VStr "id") "path" "string" true (Some "Path parameter: id")
          :: mkParameter (VStr "postId") "path" "string" true
               (Some "Path parameter: postId")
          :: rest
      /\ forall p, In p rest -> param_in p = "path" ->
                   param_name p <> VStr "id" /\ param_name p <> VStr "postId")
  /\ parameters (_createMinimalDoc route message)
     = [mkParameter (VStr "id") "path" "string" true None;
        mkParameter (VStr "postId") "path" "string" true None].
Proof.
  intros Hpath Hparams. rewrite Hpath in Hparams.
  change (routeParameters route = ["id"; "postId"]) in Hparams.
  split; [|unfold _createMinimalDoc; cbn [parameters]; now rewrite Hparams].
  set (base := [path_parameter (VStr "id"); path_parameter (VStr "postId")]).
  assert (S : seeded_by base
                (_buildRouteDocumentation parse schemaPath readSchema route)).
  { unfold _buildRouteDocumentation. cbv zeta. rewrite Hparams. cbn [fold_left].
    eapply seeded_by_same_parameters; [apply loadSchemas_parameters|].
    match goal with |- context [push_parameter _ (push_parameter _ ?d0)] =>
      set (seed := push_parameter (path_parameter (VStr "postId"))
                     (push_parameter (path_parameter (VStr "id")) d0)) end.
    assert (S0 : seeded_by base seed).
    { exists []. split; [reflexivity|constructor]. }
    destruct (functionSource route) as [source|]; [|exact S0].
    destruct (String.eqb source ""); [exact S0|].
    destruct (ASTAnalyzer.functions _) as [|fa fas]; [exact S0|].
    assert (S1 : seeded_by base
                   (_extractResponseStructure fa (_extractRequestParameters fa seed))).
    { eapply seeded_by_same_parameters; [apply extractResponseStructure_parameters|].
      now apply seeded_by_extractRequestParameters. }
    destruct (ASTAnalyzer.statusCodes _); [exact S1|].
    eapply seeded_by_same_parameters; [|exact S1]. reflexivity. }
  destruct S as (rest & Hpar & F).
  exists rest. split; [exact Hpar|].
  intros p Hin Hp. rewrite Forall_forall in F. specialize (F p Hin Hp).
  split; eapply not_same_path_name; try exact F; cbn; auto.
Qed.

Lemma path_parameters_always_documented_witness :
  let route := mkRoute "GET" "/users/:id/posts/:postId" "getPost" "function" []
                       ["id"; "postId"] None false 2 in
  parameters (_createMinimalDoc route "boom")
  = [mkParameter (VStr "id") "path" "string" true None;
     mkParameter (VStr "postId") "path" "string" true None].
Proof.
  intros route.
  apply (path_parameters_always_documented
           (fun _ => inr "no parser") (fun _ n => n) (fun _ => None) route "boom");
    reflexivity.
Defined.

End Assembly.

(** ** The change analysis *)

Section ChangeAnalysis.
Import SemanticVersionManager ChangeSpec.

Lemma map_get_set_same {V : Type} (k : string) (v : V) (m : list (string * V)) :
  JSMap.get k (JSMap.set k v m) = Some v.
Proof.
  induction m as [|[k' v'] m IH]; cbn [JSMap.set JSMap.get].
  - now rewrite String.eqb_refl.
  - destruct (String.eqb k k') eqn:E; cbn [JSMap.get]; rewrite ?String.eqb_refl, ?E; auto.
Qed.

Lemma map_get_set_other {V : Type} (k k' : string) (v : V) (m : list (string * V)) :
  k <> k' -> JSMap.get k (JSMap.set k' v m) = JSMap.get k m.
Proof.
  intros N. induction m as [|[k2 v2] m IH]; cbn [JSMap.set JSMap.get].
  - now rewrite (proj2 (String.eqb_neq k k')).
  - destruct (String.eqb k' k2) eqn:E; cbn [JSMap.get].
    + apply String.eqb_eq in E; subst k2. now rewrite (proj2 (String.eqb_neq k k')).
    + now rewrite IH.
Qed.

Lemma map_get_In {V : Type} (k : string) (v : V) (m : list (string * V)) :
  JSMap.get k m = Some v -> In (k, v) m.
Proof.
  induction m as [|[k' v'] m IH]; cbn [JSMap.get]; [discriminate|].
  destruct (String.eqb k k') eqn:E.
  - apply String.eqb_eq in E; subst k'. intros [= ->]. now left.
  - intros H. right. now apply IH.
Qed.

Lemma map_get_fold {V : Type} (k : string) (v : V) (es : list (string * V)) :
  forall m,
    JSMap.get k (fold_left (fun m kv => JSMap.set (fst kv) (snd kv) m) es m) = Some v ->
    In (k, v) es \/ JSMap.get k m = Some v.
Proof.
  induction es as [|[k' v'] es IH]; intros m H; cbn [fold_left] in H; [now right|].
  apply IH in H as [H|H]; [left; now right|].
  cbn [fst snd] in H.
  destruct (string_dec k k') as [->|N].
  - rewrite map_get_set_same in H. injection H as ->. left. now left.
  - rewrite map_get_set_other in H by assumption. now right.
Qed.

Lemma map_has_fold {V : Type} (k : string) (es : list (string * V)) :
  forall m,
    (JSMap.has k m = true \/ exists v, In (k, v) es) ->
    JSMap.has k (fold_left (fun m kv => JSMap.set (fst kv) (snd kv) m) es m) = true.
Proof.
  induction es as [|[k' v'] es IH]; intros m H; cbn [fold_left].
  - destruct H as [H|[v []]]. exact H.
  - apply IH. cbn [fst snd].
    destruct (string_dec k k') as [->|N].
    + left. unfold JSMap.has. now rewrite map_get_set_same.
    + destruct H as [H|[v [H|H]]].
      * left. unfold JSMap.has in *. now rewrite map_get_set_other.
      * congruence.
      * right. now exists v.
Qed.

(** What is stored under a key of [doc_map] is a record of the list with
    that key. *)
Lemma doc_map_get (docs : list Documentation) (k : string) (d : Documentation) :
  JSMap.get k (doc_map docs) = Some d -> In d docs /\ doc_key d = k.
Proof.
  intros H. unfold doc_map, JSMap.of_entries in H.
  apply map_get_fold in H as [H|H]; [|discriminate].
  apply in_map_iff in H as (d0 & E & Hin). injection E as E1 E2. subst. now split.
Qed.

Lemma doc_map_has (docs : list Documentation) (d : Documentation) :
  In d docs -> JSMap.has (doc_key d) (doc_map docs) = true.
Proof.
  intros H. unfold doc_map, JSMap.of_entries. apply map_has_fold. right.
  exists d. apply in_map_iff. now exists d.
Qed.

Lemma removed_loop_eq (newMap l : list (string * Documentation)) :
  forall c,
    removed_endpoints_loop l newMap c
    = let gone := map snd (filter (fun kv => negb (JSMap.has (fst kv) newMap)) l) in
      mkChangeSet (breakingChanges c ++ map removal_message gone)%list
                  (newEndpoints c) (modifiedEndpoints c)
                  (deprecatedEndpoints c ++ map endpoint gone)%list
                  (internalChanges c).
Proof.
  unfold removed_endpoints_loop.
  induction l as [|kv l IH]; intros c; cbn [fold_left filter].
  - cbn. rewrite !app_nil_r. now destruct c.
  - rewrite IH. destruct (negb (JSMap.has (fst kv) newMap)); [|reflexivity].
    cbn [map breakingChanges newEndpoints modifiedEndpoints deprecatedEndpoints
         internalChanges].
    cbv zeta. now rewrite <- !app_assoc.
Qed.

Lemma new_loop_eq (oldMap l : list (string * Documentation)) :
  forall c,
    new_endpoints_loop oldMap l c
    = mkChangeSet (breakingChanges c)
        (newEndpoints c
           ++ map (fun kv => endpoint (snd kv))
                  (filter (fun kv => negb (JSMap.has (fst kv) oldMap)) l))%list
        (modifiedEndpoints c) (deprecatedEndpoints c) (internalChanges c).
Proof.
  unfold new_endpoints_loop.
  induction l as [|kv l IH]; intros c; cbn [fold_left filter].
  - cbn. rewrite app_nil_r. now destruct c.
  - rewrite IH. destruct (negb (JSMap.has (fst kv) oldMap)); [|reflexivity].
    cbn [map breakingChanges newEndpoints modifiedEndpoints deprecatedEndpoints
         internalChanges].
    now rewrite <- app_assoc.
Qed.

Lemma mark_breaking_agree (msg : string) (r : Modifications) :
  hasChanges r = false -> hasChanges (mark_breaking msg r) = false
  /\ flags_agree (mark_breaking msg r).
Proof.
  intros H. split; [exact H|]. split; [|cbn; congruence].
  cbn. split; [|reflexivity]. intros _ E. now apply app_eq_nil in E as [_ E].
Qed.

Lemma detectModifications_flags (oldDoc newDoc : Documentation) :
  flags_agree (_detectModifications oldDoc newDoc).
Proof.
  set (Q := fun r => hasChanges r = false /\ flags_agree r).
  assert (M : forall msg r, Q r -> Q (mark_breaking msg r)).
  { intros msg r [H _]. now apply mark_breaking_agree. }
  unfold _detectModifications. cbv zeta.
  match goal with |- context [fold_left ?f ?l ?a] => set (r1 := fold_left f l a) end.
  assert (Q1 : Q r1).
  { subst r1. apply fold_left_invariant.
    - intros r param Hr. destruct (negb _); [now apply M|exact Hr].
    - split; [reflexivity|]. split; [|discriminate]. cbn. split; congruence. }
  clearbody r1.
  match goal with |- context [if _hasResponseSchemaChanged ?a ?b then ?x else r1] =>
    set (r2 := if _hasResponseSchemaChanged a b then x else r1) end.
  assert (Q2 : Q r2).
  { subst r2. destruct (_hasResponseSchemaChanged _ _); [now apply M|exact Q1]. }
  clearbody r2.
  match goal with |- context [match ?l with [] => r2 | _ :: _ => ?x end] =>
    set (r3 := match l with [] => r2 | _ :: _ => x end) end.
  assert (Q3 : Q r3).
  { subst r3. destruct (filter _ _); [exact Q2|now apply M]. }
  clearbody r3.
  match goal with |- context [if breakingChange newDoc then ?x else r3] =>
    set (r4 := if breakingChange newDoc then x else r3) end.
  assert (Q4 : Q r4).
  { subst r4. destruct (breakingChange newDoc); [now apply M|exact Q3]. }
  clearbody r4.
  destruct Q4 as [Qh [Qa Qb]].
  match goal with |- context [if ?c && negb (hasBreakingChanges r4) then ?x else r4] =>
    set (r5 := if c && negb (hasBreakingChanges r4) then x else r4) end.
  assert (P5 : flags_agree r5).
  { subst r5. destruct (_ && negb (hasBreakingChanges r4)) eqn:E; [|now split].
    apply andb_true_iff in E as [_ E]. apply negb_true_iff in E.
    split; [exact Qa|]. intros _. exact E. }
  clearbody r5.
  destruct (negb _); [|exact P5].
  destruct P5 as [P1 P2]. split; [exact P1|exact P2].
Qed.

Lemma modified_loop_eq (oldMap l : list (string * Documentation)) :
  forall c,
    modified_endpoints_loop oldMap l c
    = let both := flat_map (fun kv => match JSMap.get (fst kv) oldMap with
                                      | Some oldDoc => [(oldDoc, snd kv)]
                                      | None => []
                                      end) l in
      mkChangeSet (breakingChanges c ++ flat_map breaking_of both)%list
                  (newEndpoints c)
                  (modifiedEndpoints c ++ flat_map modified_of both)%list
                  (deprecatedEndpoints c)
                  (internalChanges c ++ flat_map internal_of both)%list.
Proof.
  unfold modified_endpoints_loop.
  induction l as [|kv l IH]; intros c; cbn [fold_left flat_map].
  - cbn. rewrite !app_nil_r. now destruct c.
  - rewrite IH. cbv zeta.
    destruct (JSMap.get (fst kv) oldMap) as [oldDoc|]; [|reflexivity].
    cbn [app flat_map]. unfold breaking_of at 2, modified_of at 2, internal_of at 2.
    cbn [fst snd].
    pose proof (detectModifications_flags oldDoc (snd kv)) as [[F1 F2] _].
    destruct (hasBreakingChanges (_detectModifications oldDoc (snd kv))) eqn:B,
             (hasChanges (_detectModifications oldDoc (snd kv))) eqn:C,
             (hasInternalChanges (_detectModifications oldDoc (snd kv))) eqn:I;
      cbn [breakingChanges newEndpoints modifiedEndpoints deprecatedEndpoints
           internalChanges app];
      rewrite <- ?app_assoc; cbn [app]; try reflexivity;
      (destruct (mod_breakingChanges (_detectModifications oldDoc (snd kv)));
       [reflexivity | exfalso; assert (false = true) by (apply F2; discriminate);
                      discriminate]).
Qed.

(** The change set of [analyzeChanges], list by list. *)
Lemma analyzeChanges_changes (oldDocs newDocs : list Documentation) :
  changes (analyzeChanges oldDocs newDocs)
  = mkChangeSet
      (map removal_message (removed_records oldDocs newDocs)
         ++ flat_map breaking_of (common_records oldDocs newDocs))%list
      (map (fun kv => endpoint (snd kv))
           (filter (fun kv => negb (JSMap.has (fst kv) (doc_map oldDocs)))
                   (doc_map newDocs)))
      (flat_map modified_of (common_records oldDocs newDocs))
      (map endpoint (removed_records oldDocs newDocs))
      (flat_map internal_of (common_records oldDocs newDocs)).
Proof.
  unfold analyzeChanges. cbv zeta.
  rewrite modified_loop_eq, removed_loop_eq, new_loop_eq. cbv zeta.
  cbn [breakingChanges newEndpoints modifiedEndpoints deprecatedEndpoints
       internalChanges app].
  fold (removed_records oldDocs newDocs). fold (common_records oldDocs newDocs).
  match goal with |- changes (match ?b with [] => _ | _ => _ end) = _ =>
    destruct b end.
  - match goal with |- changes (match ?b with [] => _ | _ => _ end) = _ =>
      destruct b end; [|reflexivity].
    match goal with |- changes (match ?b with [] => _ | _ => _ end) = _ =>
      destruct b end.
    + match goal with |- changes (match ?b with [] => _ | _ => _ end) = _ =>
        destruct b end; reflexivity.
    + reflexivity.
  - reflexivity.
Qed.

Lemma analyzeChanges_major (oldDocs newDocs : list Documentation) :
  breakingChanges (changes (analyzeChanges oldDocs newDocs)) <> [] ->
  bumpType (analyzeChanges oldDocs newDocs) = major.
Proof.
  unfold analyzeChanges. cbv zeta.
  match goal with |- context [match breakingChanges ?c with [] => _ | _ => _ end] =>
    set (cs := c) end.
  destruct (breakingChanges cs) eqn:B; [|reflexivity].
  intros H. exfalso. apply H.
  destruct (newEndpoints cs); [|exact B].
  destruct (modifiedEndpoints cs), (internalChanges cs); exact B.
Qed.

(** C1.  Every key of the previous snapshot that the current one lacks is
    reported twice, with the record stored under it: as [METHOD path] in
    [deprecatedEndpoints] and as a [Removed endpoint] entry in
    [breakingChanges]; the bump is then [major].  For a previous snapshot
    holding the one record [GET /a] and an empty current one,
    [deprecatedEndpoints] is [GET /a] alone and [breakingChanges] is its
    removal alone. *)
Theorem analyzeChanges_removed_endpoints (oldDocs newDocs : list Documentation) :
  let r := analyzeChanges oldDocs newDocs in
  let removed := removed_records oldDocs newDocs in
  deprecatedEndpoints (changes r) = map endpoint removed
  /\ (exists others,
         breakingChanges (changes r)
         = (map (fun d => ("Removed endpoint: " ++ endpoint d)%string) removed
              ++ others)%list)
  /\ (forall d,
         In d oldDocs ->
         (forall d', In d' newDocs -> doc_key d' <> doc_key d) ->
         exists stored,
           JSMap.get (doc_key d) (doc_map oldDocs) = Some stored
           /\ In stored oldDocs /\ doc_key stored = doc_key d
           /\ In (endpoint stored) (deprecatedEndpoints (changes r))
           /\ In ("Removed endpoint: " ++ endpoint stored)
                 (breakingChanges (changes r))
           /\ bumpType r = major)
  /\ (forall a, method a = "GET" -> path a = "/a" ->
                deprecatedEndpoints (changes (analyzeChanges [a] [])) = ["GET /a"]
                /\ breakingChanges (changes (analyzeChanges [a] []))
                   = ["Removed endpoint: GET /a"]
                /\ bumpType (analyzeChanges [a] []) = major).
Proof.
  intros r removed. subst r.
  pose proof (analyzeChanges_changes oldDocs newDocs) as C.
  fold removed in C.
  assert (K : forall d, In d oldDocs ->
                (forall d', In d' newDocs -> doc_key d' <> doc_key d) ->
                exists stored,
                  JSMap.get (doc_key d) (doc_map oldDocs) = Some stored
                  /\ In stored oldDocs /\ doc_key stored = doc_key d
                  /\ In stored removed).
  { intros d Hd Habs.
    pose proof (doc_map_has oldDocs d Hd) as Hh. unfold JSMap.has in Hh.
    destruct (JSMap.get (doc_key d) (doc_map oldDocs)) as [stored|] eqn:G;
      [|discriminate].
    exists stored. destruct (doc_map_get _ _ _ G) as [Hin Hk].
    repeat split; try assumption.
    unfold removed, removed_records. apply in_map_iff.
    exists (doc_key d, stored). split; [reflexivity|].
    apply filter_In. split; [now apply map_get_In|].
    cbn [fst]. apply negb_true_iff. unfold JSMap.has.
    destruct (JSMap.get (doc_key d) (doc_map newDocs)) as [d'|] eqn:G';
      [|reflexivity].
    destruct (doc_map_get _ _ _ G') as [Hin' Hk']. now apply Habs in Hin'. }
  split; [now rewrite C|].
  split; [rewrite C; cbn [breakingChanges]; eexists; reflexivity|].
  split.
  - intros d Hd Habs. destruct (K d Hd Habs) as (stored & G & Hin & Hk & Hr).
    exists stored.
    assert (B : In ("Removed endpoint: " ++ endpoint stored)
                   (breakingChanges (changes (analyzeChanges oldDocs newDocs)))).
    { rewrite C. cbn [breakingChanges]. apply in_or_app. left.
      apply in_map_iff. now exists stored. }
    repeat split; try assumption.
    + rewrite C. cbn [deprecatedEndpoints]. apply in_map_iff. now exists stored.
    + apply analyzeChanges_major. intros E. rewrite E in B. exact B.
  - intros a Hm Hp.
    assert (E : endpoint a = "GET /a") by (unfold endpoint; now rewrite Hm, Hp).
    assert (R : changes (analyzeChanges [a] [])
                = mkChangeSet ["Removed endpoint: " ++ endpoint a] [] [] [endpoint a] []).
    { rewrite analyzeChanges_changes. reflexivity. }
    split; [|split].
    + now rewrite R, <- E.
    + now rewrite R, <- E.
    + apply analyzeChanges_major. rewrite R. discriminate.
Qed.

Lemma analyzeChanges_removed_endpoints_witness :
  let prev := [plain_record "GET" "/a" [] []; plain_record "GET" "/b" [] []] in
  let curr := [plain_record "GET" "/b" [] []] in
  exists stored,
    JSMap.get "GET:/a" (doc_map prev) = Some stored
    /\ In stored prev /\ doc_key stored = "GET:/a"
    /\ In (endpoint stored) (deprecatedEndpoints (changes (analyzeChanges prev curr)))
    /\ In ("Removed endpoint: " ++ endpoint stored)
          (breakingChanges (changes (analyzeChanges prev curr)))
    /\ bumpType (analyzeChanges prev curr) = major.
Proof.
  intros prev curr.
  apply (proj1 (proj2 (proj2 (analyzeChanges_removed_endpoints prev curr)))
               (plain_record "GET" "/a" [] [])).
  - now left.
  - intros d' [<-|[]]. discriminate.
Defined.

(** C9, as stated, fails: a key found in both snapshots can enter two
    lists in one pass.  With one more optional parameter and one more
    middleware it enters [modifiedEndpoints] and [internalChanges]; with
    one more required parameter and one more middleware it enters
    [breakingChanges] and [internalChanges]. *)
Lemma analyzeChanges_key_in_two_lists :
  let prev := plain_record "GET" "/a" [] [] in
  let optional := mkParameter (VStr "q") "query" "string" false None in
  let required := mkParameter (VStr "id") "path" "string" true None in
  let c1 := changes (analyzeChanges [prev] [plain_record "GET" "/a" [optional] ["auth"]]) in
  let c2 := changes (analyzeChanges [prev] [plain_record "GET" "/a" [required] ["auth"]]) in
  (modifiedEndpoints c1 = ["GET /a"] /\ internalChanges c1 = ["GET /a"])
  /\ (breakingChanges c2 = ["GET /a: New required parameter 'id'"]
      /\ internalChanges c2 = ["GET /a"]).
Proof. repeat split. Qed.

(** C9 (amended).  A key found in both snapshots adds to [breakingChanges]
    the reasons of [_detectModifications], to [modifiedEndpoints] its
    endpoint when the modified flag is set, and to [internalChanges] its
    endpoint when the middleware lists differ.  Breaking comes before
    modified: no key adds to both [breakingChanges] and
    [modifiedEndpoints].  The internal entry is decided on its own and
    can go with either. *)
Theorem analyzeChanges_common_keys (oldDocs newDocs : list Documentation) :
  let c := changes (analyzeChanges oldDocs newDocs) in
  let both := common_records oldDocs newDocs in
  breakingChanges c
  = (map removal_message (removed_records oldDocs newDocs)
       ++ flat_map breaking_of both)%list
  /\ modifiedEndpoints c = flat_map modified_of both
  /\ internalChanges c = flat_map internal_of both
  /\ (forall on, In on both -> modified_of on <> [] -> breaking_of on = [])
  /\ (forall on, In on both ->
                 (internal_of on <> [] <-> middleware (fst on) <> middleware (snd on))).
Proof.
  intros c both. subst c. rewrite analyzeChanges_changes.
  cbn [breakingChanges modifiedEndpoints internalChanges].
  do 3 (split; [reflexivity|]). split.
  - intros on _ Hm. unfold modified_of in Hm. unfold breaking_of.
    destruct (detectModifications_flags (fst on) (snd on)) as [[F1 F2] F3].
    destruct (hasChanges _) eqn:E; [|congruence].
    specialize (F3 eq_refl).
    destruct (mod_breakingChanges _); [reflexivity|].
    assert (false = true) by (rewrite <- F3; apply F2; discriminate). discriminate.
  - intros on _. unfold internal_of, _detectModifications. cbv zeta.
    destruct (list_eq_dec string_dec (middleware (fst on)) (middleware (snd on)))
      as [Same|Differ]; cbn [negb].
    + match goal with |- (if hasInternalChanges ?r then _ else _) <> [] <-> _ =>
        assert (I : hasInternalChanges r = false) end.
      { match goal with |- hasInternalChanges (if ?c then _ else ?y) = false =>
          assert (I4 : hasInternalChanges y = false); [|destruct c; exact I4] end.
        match goal with |- hasInternalChanges (if ?c then _ else ?y) = false =>
          assert (I3 : hasInternalChanges y = false); [|destruct c; exact I3] end.
        match goal with
        | |- hasInternalChanges (match ?l with [] => ?y | _ :: _ => _ end) = false =>
            assert (I2 : hasInternalChanges y = false); [|destruct l; exact I2]
        end.
        match goal with |- hasInternalChanges (if ?c then _ else ?y) = false =>
          assert (I1 : hasInternalChanges y = false); [|destruct c; exact I1] end.
        apply (fold_left_invariant (fun r => hasInternalChanges r = false));
          [|reflexivity].
        intros r x Hr. destruct (negb _); exact Hr. }
      rewrite I. split; congruence.
    + cbn [hasInternalChanges]. split; [intros _; exact Differ|discriminate].
Qed.

Lemma analyzeChanges_common_keys_witness :
  let prev := plain_record "GET" "/a" [] [] in
  let curr := plain_record "GET" "/a"
                           [mkParameter (VStr "q") "query" "string" false None]
                           ["auth"] in
  breaking_of (prev, curr) = []
  /\ (internal_of (prev, curr) <> [] <-> middleware prev <> middleware curr).
Proof.
  intros prev curr.
  pose proof (analyzeChanges_common_keys [prev] [curr]) as (_ & _ & _ & H & I).
  split.
  - apply (H (prev, curr)); [now left|discriminate].
  - apply (I (prev, curr)). now left.
Defined.

Example analyzeChanges_new_endpoint :
  let r := analyzeChanges [] [plain_record "POST" "/b" [] []] in
  bumpType r = minor /\ newEndpoints (changes r) = ["POST /b"].
Proof. split; reflexivity. Qed.

Example analyzeChanges_identical :
  let docs := [plain_record "GET" "/a" [] ["auth"]; plain_record "POST" "/b" [] []] in
  analyzeChanges docs docs = mkChangeAnalysis patch "" (mkChangeSet [] [] [] [] []).
Proof. reflexivity. Qed.

End ChangeAnalysis.

(** ** More on the path normaliser *)

Section PathNormalizerShape.
Import JSString RouteReflector PathSpec ReflectionSpec.

(** X1.  Whatever the input, the result of [_cleanPath] starts with a
    separator, has no two separators in a row and has no backslash. *)
Theorem cleanPath_shape (p : string) :
  startsWith "/" (_cleanPath p) = true
  /\ no_double_separator (_cleanPath p) = true
  /\ has_char "\" (_cleanPath p) = false.
Proof.
  split; [apply cleanPath_leading_separator|].
  split; [apply cleanPath_no_double_separator|apply cleanPath_no_backslash].
Qed.

Lemma take_ident_all_ident_chars (s : string) : all_ident_chars (take_ident s) = true.
Proof.
  induction s as [|c s IH]; [reflexivity|].
  cbn [take_ident]. destruct (is_ident_char c) eqn:E; [|reflexivity].
  cbn [all_ident_chars]. now rewrite E.
Qed.

Lemma take_ident_prefix (s : string) : startsWith (take_ident s) s = true.
Proof.
  induction s as [|c s IH]; [reflexivity|].
  cbn [take_ident]. destruct (is_ident_char c); [|reflexivity].
  cbn [startsWith]. now rewrite Ascii.eqb_refl.
Qed.

Lemma colon_tokens_names (path n : string) :
  In n (colon_tokens path) ->
  is_identifier n = true /\ occurs (String ":" n) path = true.
Proof.
  induction path as [|c s IH]; [intros []|].
  cbn [colon_tokens]. destruct (Ascii.eqb c ":") eqn:E.
  - apply Ascii.eqb_eq in E; subst c. intros H.
    apply in_app_or in H as [H|H].
    + unfold name_after in H. destruct s as [|d r]; [destruct H|].
      destruct (is_ident_start d) eqn:D; [|destruct H].
      destruct H as [<-|[]].
      assert (C : is_ident_char d = true) by (unfold is_ident_char; now rewrite D).
      split.
      * cbn [take_ident]. rewrite C. cbn [is_identifier]. rewrite D.
        apply take_ident_all_ident_chars.
      * cbn [occurs startsWith]. rewrite Ascii.eqb_refl.
        now rewrite take_ident_prefix.
    + destruct (IH H) as [I O]. split; [exact I|].
      cbn [occurs]. rewrite O. apply orb_true_r.
  - intros H. destruct (IH H) as [I O]. split; [exact I|].
    cbn [occurs]. rewrite O. apply orb_true_r.
Qed.

(** X2.  Every name [_extractPathParameters] returns is an identifier (a
    letter or an underscore, then letters, digits and underscores) that
    stands in the path right after a colon. *)
Theorem extractPathParameters_names (path n : string) :
  In n (_extractPathParameters path) ->
  is_identifier n = true /\ occurs (String ":" n) path = true.
Proof.
  rewrite extractPathParameters_tokens. apply colon_tokens_names.
Qed.

Lemma extractPathParameters_names_witness :
  is_identifier "postId" = true
  /\ occurs ":postId" "/users/:id/posts/:postId" = true.
Proof.
  apply (extractPathParameters_names "/users/:id/posts/:postId" "postId").
  cbn. auto.
Defined.

End PathNormalizerShape.

(** ** The walk over the router stack *)

Section Reflection.
Import JSString RouteReflector PathSpec ReflectionSpec ExpressReflection.

Lemma upper_idempotent (c : ascii) : upper (upper c) = upper c.
Proof. destruct c as [[] [] [] [] [] [] [] []]; reflexivity. Qed.

Lemma toUpperCase_idempotent (s : string) : toUpperCase (toUpperCase s) = toUpperCase s.
Proof.
  induction s as [|c s IH]; [reflexivity|].
  cbn [toUpperCase]. now rewrite upper_idempotent, IH.
Qed.

Lemma fold_left_snoc {A B : Type} (g : B -> A) (l : list B) :
  forall a, fold_left (fun acc x => (acc ++ [g x])%list) l a = (a ++ map g l)%list.
Proof.
  induction l as [|x l IH]; intros a; cbn [fold_left map].
  - now rewrite app_nil_r.
  - now rewrite IH, <- app_assoc.
Qed.

Lemma or_anonymous_idempotent (n : string) :
  or_anonymous (or_anonymous n) = or_anonymous n.
Proof.
  unfold or_anonymous. destruct (String.eqb n "") eqn:Q; [reflexivity|]. now rewrite Q.
Qed.

(** What [_processRoute] appends: one descriptor for every method whose
    flag is set, in the order of the keys, all with the same path, base
    path, middleware names and handler. *)
Lemma processRoute_appends (route : ExpressRoute) (basePath : string)
      (routes : list RouteDescriptor) :
  exists added,
    _processRoute route basePath routes = (routes ++ added)%list
    /\ map rd_method added
       = map (fun m => toUpperCase (fst m)) (filter (fun m => snd m) (er_methods route))
    /\ Forall (fun d =>
                 rd_path d = _cleanPath (basePath ++ er_path route)
                 /\ rd_fullPath d = rd_path d
                 /\ rd_basePath d = basePath
                 /\ rd_routeParameters d = _extractPathParameters (rd_path d)
                 /\ rd_middleware d
                    = map (fun e => or_anonymous (entry_name e))
                          (all_but_last (er_stack route))
                 /\ rd_handlerName d
                    = match last_entry (er_stack route) with
                      | Some h => or_anonymous (fn_name (entry_handle h))
                      | None => "unknown"
                      end)
              added.
Proof.
  unfold _processRoute. cbv zeta. rewrite fold_left_snoc.
  eexists. split; [reflexivity|]. split.
  - rewrite map_map. rewrite (map_ext _ (fun x => x)); [apply map_id|].
    intros m. destruct (last_entry (er_stack route)); reflexivity.
  - apply Forall_forall. intros d Hd. apply in_map_iff in Hd as (m & <- & _).
    destruct (last_entry (er_stack route)); cbn;
      repeat split; unfold _extractMiddleware; rewrite map_map;
      apply map_ext; intros e; apply or_anonymous_idempotent.
Qed.

Lemma processRoute_well_formed (route : ExpressRoute) (basePath : string)
      (routes : list RouteDescriptor) :
  Forall well_formed routes -> Forall well_formed (_processRoute route basePath routes).
Proof.
  intros H.
  destruct (processRoute_appends route basePath routes) as (added & E & M & F).
  rewrite E. apply Forall_app. split; [exact H|].
  assert (U : Forall (fun d => toUpperCase (rd_method d) = rd_method d) added).
  { apply Forall_forall. intros d Hd.
    assert (I : In (rd_method d) (map rd_method added)) by now apply in_map.
    rewrite M in I. apply in_map_iff in I as (m & <- & _).
    apply toUpperCase_idempotent. }
  rewrite Forall_forall in *. intros d Hd.
  destruct (F d Hd) as (P & Q & _ & R & _).
  unfold well_formed. rewrite P.
  repeat split;
    try apply cleanPath_leading_separator;
    try apply cleanPath_no_double_separator;
    try apply cleanPath_no_backslash.
  - now rewrite Q, P.
  - now rewrite R, P.
  - now apply U.
Qed.

Lemma walk_layer_well_formed :
  forall (layer : Layer) (basePath : string) (routes : list RouteDescriptor),
    Forall well_formed routes -> Forall well_formed (walk_layer basePath layer routes).
Proof.
  fix IH 1. intros layer basePath routes H.
  destruct layer as [route name handle_stack source]. cbn [walk_layer].
  destruct route as [r|]; [now apply processRoute_well_formed|].
  destruct (String.eqb name "router").
  - destruct handle_stack as [stack|]; [|exact H].
    cbv zeta. generalize (_cleanPath (basePath ++ mount_prefix source)). intros base.
    revert routes H. induction stack as [|l ls IHls]; intros routes H; [exact H|].
    cbn [fold_left]. apply IHls. now apply IH.
  - destruct (String.eqb name "bound dispatch"); [|exact H].
    destruct handle_stack as [stack|]; [|exact H].
    revert routes H. induction stack as [|l ls IHls]; intros routes H; [exact H|].
    cbn [fold_left]. apply IHls. now apply IH.
Qed.

(** X3.  Every route [extractRoutes] returns has a normalised path (one
    leading separator, no doubled separator, no backslash), repeats it as
    [fullPath], carries exactly the parameters of that path and has its
    method in upper case; this holds at any depth of nested routers. *)
Theorem extractRoutes_well_formed (app : option Application)
        (routes : list RouteDescriptor) :
  extractRoutes app = Returned routes -> Forall well_formed routes.
Proof.
  unfold extractRoutes. destruct app as [a|]; [|discriminate].
  destruct (_router a) as [r|]; [|discriminate].
  intros [= <-]. unfold _walkStack.
  destruct (router_stack r) as [layers|]; [|constructor].
  assert (G : forall rs, Forall well_formed rs ->
                         Forall well_formed
                           (fold_left (fun routes l => walk_layer "" l routes) layers rs)).
  { induction layers as [|l ls IHls]; intros rs Hrs; [exact Hrs|].
    cbn [fold_left]. apply IHls. now apply walk_layer_well_formed. }
  apply G. constructor.
Qed.

Lemma all_but_last_length {A : Type} (xs : list A) :
  List.length (all_but_last xs) = List.length xs - 1.
Proof.
  induction xs as [|x xs IH]; [reflexivity|].
  destruct xs as [|y ys]; [reflexivity|].
  change (all_but_last (x :: y :: ys)) with (x :: all_but_last (y :: ys)).
  cbn [List.length] in *. lia.
Qed.

(** X4.  [_processRoute] appends one descriptor for every method whose
    flag is set, in the order of the keys of [route.methods] and in upper
    case.  All of them have the cleaned concatenation of base path and
    route path as path; their middleware names are those of all stack
    entries but the last, so that middleware and handler account for the
    whole stack; with an empty stack the handler is ['unknown']. *)
Theorem processRoute_descriptors (route : ExpressRoute) (basePath : string)
        (routes : list RouteDescriptor) :
  exists added,
    _processRoute route basePath routes = (routes ++ added)%list
    /\ map rd_method added
       = map (fun m => toUpperCase (fst m)) (filter (fun m => snd m) (er_methods route))
    /\ forall d, In d added ->
         rd_path d = _cleanPath (basePath ++ er_path route)
         /\ rd_basePath d = basePath
         /\ rd_middleware d
            = map (fun e => or_anonymous (entry_name e)) (all_but_last (er_stack route))
         /\ match er_stack route with
            | [] => rd_handlerName d = "unknown" /\ rd_middleware d = []
                    /\ rd_functionSource d = None
            | _ :: _ => List.length (rd_middleware d) + 1 = List.length (er_stack route)
            end.
Proof.
  destruct (processRoute_appends route basePath routes) as (added & E & M & F).
  exists added. split; [exact E|]. split; [exact M|].
  intros d Hd. rewrite Forall_forall in F.
  destruct (F d Hd) as (P & _ & B & _ & W & N).
  split; [exact P|]. split; [exact B|]. split; [exact W|].
  destruct (er_stack route) as [|e es] eqn:S.
  - cbn in W, N. repeat split; try assumption.
    unfold _processRoute in E. cbv zeta in E. rewrite S in E. cbn [last_entry] in E.
    rewrite fold_left_snoc in E. apply app_inv_head in E. subst added.
    apply in_map_iff in Hd as (m & <- & _). reflexivity.
  - rewrite W, length_map, all_but_last_length. cbn [List.length]. lia.
Qed.

Lemma count_method_count_of (m m' : string) (counts : list (string * nat)) :
  count_of m (count_method m' counts)
  = count_of m counts + (if String.eqb m' m then 1 else 0).
Proof.
  unfold count_of.
  induction counts as [|[k n] counts IH]; cbn [count_method JSMap.get].
  - rewrite String.eqb_sym. destruct (String.eqb m' m); reflexivity.
  - destruct (String.eqb m' k) eqn:E; cbn [JSMap.get].
    + apply String.eqb_eq in E; subst k. rewrite (String.eqb_sym m' m).
      destruct (String.eqb m m'); lia.
    + destruct (String.eqb m k) eqn:F; [|exact IH].
      apply String.eqb_eq in F; subst k. rewrite E. lia.
Qed.

Lemma count_method_sum (m : string) (counts : list (string * nat)) :
  list_sum (map snd (count_method m counts)) = S (list_sum (map snd counts)).
Proof.
  unfold list_sum.
  induction counts as [|[k n] counts IH]; [reflexivity|].
  cbn [count_method]. destruct (String.eqb m k); cbn [map snd fold_right] in *; lia.
Qed.

Lemma unique_from_length (xs seen : list jsval) :
  List.length (JS.unique_from seen xs) <= List.length xs.
Proof.
  revert seen. induction xs as [|x xs IH]; intros seen; [apply Nat.le_refl|].
  cbn [JS.unique_from]. destruct (JS.includes x seen); cbn [List.length].
  - specialize (IH seen). lia.
  - specialize (IH (x :: seen)). lia.
Qed.

Lemma filter_length_bound {A : Type} (f : A -> bool) (l : list A) :
  List.length (filter f l) <= List.length l.
Proof.
  induction l as [|x l IH]; [apply Nat.le_refl|].
  cbn [filter]. destruct (f x); cbn [List.length]; lia.
Qed.

Lemma method_counts_fold (routes : list RouteDescriptor) :
  forall counts,
    let result := fold_left (fun counts route => count_method (rd_method route) counts)
                            routes counts in
    list_sum (map snd result) = list_sum (map snd counts) + List.length routes
    /\ forall m, count_of m result = count_of m counts + routes_with_method m routes.
Proof.
  unfold routes_with_method.
  induction routes as [|r routes IH]; intros counts; cbn [fold_left].
  - cbn. split; [lia|intros; lia].
  - destruct (IH (count_method (rd_method r) counts)) as [S C]. split.
    + rewrite S, count_method_sum. cbn [List.length]. lia.
    + intros m. rewrite C, count_method_count_of. cbn [filter].
      destruct (String.eqb (rd_method r) m); cbn [List.length]; lia.
Qed.

(** X5.  The statistics agree with the routes they are taken from: the
    counts of [methodBreakdown] add up to [totalRoutes], the count of a
    method is the number of routes with that method, and none of
    [uniquePaths], [asyncHandlers], [routesWithMiddleware] and
    [routesWithParameters] exceeds [totalRoutes]. *)
Theorem getStatistics_consistent (routes : list RouteDescriptor) :
  let st := getStatistics routes in
  totalRoutes st = List.length routes
  /\ list_sum (map snd (methodBreakdown st)) = totalRoutes st
  /\ (forall m, count_of m (methodBreakdown st) = routes_with_method m routes)
  /\ uniquePaths st <= totalRoutes st
  /\ asyncHandlers st <= totalRoutes st
  /\ routesWithMiddleware st <= totalRoutes st
  /\ routesWithParameters st <= totalRoutes st.
Proof.
  cbv zeta. unfold getStatistics.
  cbn [totalRoutes uniquePaths methodBreakdown asyncHandlers routesWithMiddleware
       routesWithParameters].
  destruct (method_counts_fold routes []) as [S C].
  split; [reflexivity|]. split; [exact S|]. split; [exact C|].
  split.
  - unfold getUniquePaths, JS.unique.
    etransitivity; [apply unique_from_length|]. now rewrite length_map.
  - repeat split; apply filter_length_bound.
Qed.

(** X6.  [getRoutesByMethod] does not depend on the case of its argument:
    it returns, in order, the routes whose method is the argument in
    upper case, as many as [methodBreakdown] counts for that method. *)
Theorem getRoutesByMethod_upper (routes : list RouteDescriptor) (m : string) :
  getRoutesByMethod routes m = getRoutesByMethod routes (toUpperCase m)
  /\ Forall (fun r => rd_method r = toUpperCase m) (getRoutesByMethod routes m)
  /\ List.length (getRoutesByMethod routes m)
     = count_of (toUpperCase m) (methodBreakdown (getStatistics routes)).
Proof.
  split; [|split].
  - unfold getRoutesByMethod. now rewrite toUpperCase_idempotent.
  - apply Forall_forall. intros r Hr. unfold getRoutesByMethod in Hr.
    apply filter_In in Hr as [_ Hr]. now apply String.eqb_eq.
  - unfold getStatistics. cbn [methodBreakdown].
    destruct (method_counts_fold routes []) as [_ C]. rewrite C. reflexivity.
Qed.

Lemma mount_prefix_unanchored (source : string) :
  startsWith "\/" source = false -> mount_prefix source = "".
Proof.
  destruct source as [|a [|b rest]]; try reflexivity.
  cbn [startsWith mount_prefix]. rewrite (Ascii.eqb_sym a), (Ascii.eqb_sym b).
  rewrite andb_true_r. now intros ->.
Qed.

(** X7.  A mounted router contributes a prefix only when the source of
    its pattern starts with a backslash and a separator.  For any other
    source, one that starts with a caret included, the routes of the
    nested router are walked under the cleaned base path alone. *)
Theorem nested_router_without_prefix (source : string) (stack : list Layer)
        (basePath : string) (routes : list RouteDescriptor) :
  startsWith "\/" source = false ->
  walk_layer basePath (mkLayer None "router" (Some stack) source) routes
  = _walkStack (Some stack) (_cleanPath basePath) routes.
Proof.
  intros H. cbn [walk_layer String.eqb Ascii.eqb Bool.eqb]. cbv zeta.
  rewrite (mount_prefix_unanchored source H).
  assert (E : basePath ++ "" = basePath).
  { induction basePath as [|c b IH]; [reflexivity|]. cbn. now rewrite IH. }
  rewrite E. reflexivity.
Qed.

Lemma nested_router_without_prefix_witness :
  let users := mkLayer (Some (mkExpressRoute "/users" [("get", true)] [] None []))
                       "bound dispatch" None "" in
  exists d,
    walk_layer "" (mkLayer None "router" (Some [users]) "^\/api\/?(?=\/|$)") [] = [d]
    /\ rd_path d = "/users" /\ rd_method d = "GET".
Proof.
  intros users.
  rewrite (nested_router_without_prefix "^\/api\/?(?=\/|$)" [users] "" [])
    by reflexivity.
  eexists. repeat split.
Defined.

Lemma extractRoutes_well_formed_witness :
  let users := mkLayer (Some (mkExpressRoute "/users/:id" [("get", true); ("put", true)]
                                             [] None []))
                       "bound dispatch" None "" in
  let api := mkLayer None "router" (Some [users]) "^\/api\/?(?=\/|$)" in
  Forall well_formed (_walkStack (Some [api]) "" []).
Proof.
  intros users api.
  apply (extractRoutes_well_formed
           (Some (mkApplication (Some (mkRouter (Some [api])))))).
  reflexivity.
Defined.

Lemma processRoute_descriptors_witness :
  let route := mkExpressRoute "/users//:id" [("get", true); ("post", false)]
                              [] None [] in
  exists added d,
    _processRoute route "/api" [] = added
    /\ In d added /\ rd_path d = "/api/users/:id" /\ rd_basePath d = "/api".
Proof.
  intros route.
  destruct (processRoute_descriptors route "/api" []) as (added & E & M & F).
  destruct added as [|d added]; [vm_compute in M; discriminate M|].
  exists (d :: added), d. split; [exact E|]. split; [now left|].
  destruct (F d (or_introl eq_refl)) as (P & B & _). split; [exact P|exact B].
Defined.

End Reflection.

(** ** Invariants of the handler analysis *)

Section AnalysisInvariants.
Import ASTAnalyzer AnalysisSpec.

(** What every visit keeps, the whole walk keeps. *)
Lemma walk_invariant {S : Type} (enter : node -> S -> S) (P : S -> Prop) :
  (forall n st, P st -> P (enter n st)) ->
  forall n self st, P st -> P (walk enter self n st).
Proof.
  intros Henter. fix IH 1. intros n self st H.
  assert (E : P (if self then enter n st else st)) by (destruct self; auto).
  destruct n; cbn [walk]; cbv zeta;
    repeat first
      [ exact E
      | apply IH
      | match goal with
        | |- P (match ?c with Some _ => _ | None => _ end) => destruct c
        | |- P (fold_left _ ?l ?a) =>
            cut (P a);
            [ generalize a; clear E;
              let x := fresh "x" in let IHl := fresh "IHl" in
              induction l as [|x l IHl]; intros ? ?; cbn [fold_left];
              [ assumption
              | apply IHl; first [ apply IH; assumption
                                 | destruct x; [apply IH; assumption | assumption] ] ]
            | ]
        end ].
Qed.

Ltac visitor_cases :=
  repeat match goal with
         | |- context [if ?c then _ else _] => destruct c eqn:?
         | |- context [match hd_error ?l with Some _ => _ | None => _ end] =>
             destruct (hd_error l) eqn:?
         end.

Lemma all_truthy_snoc (vs : list jsval) (v : jsval) :
  all_truthy vs -> JS.truthy v = true -> all_truthy (vs ++ [v]).
Proof. intros H T. apply Forall_app. split; [exact H|]. now constructor. Qed.

Ltac finish_truthy :=
  try match goal with
      | E : (false && _)%bool = true |- _ => discriminate E
      end;
  repeat split;
  cbn [push_body push_query push_params push_headers push_statusCode push_jsonCall
       push_sendCall push_structure set_responseUsage push_thrown push_returnValue
       requestUsage responseUsage statusCodes body query params headers thrown];
  try assumption;
  repeat (apply all_truthy_snoc; try assumption);
  try match goal with
      | E : (_ && JS.truthy ?f)%bool = true |- JS.truthy ?f = true =>
          apply andb_true_iff in E as [_ E]; exact E
      end;
  try reflexivity.

Lemma memberExpression_truthy (n : node) (a : FunctionAnalysis) :
  records_truthy a -> records_truthy (_analyzeMemberExpression n a).
Proof.
  intros (S & B & Q & P & H & T).
  destruct n; try (now repeat split).
  destruct n1 as [x| | | | | | | | | | |o p| | | | | | | | | | | | | | | | | |];
    cbn [_analyzeMemberExpression]; try (now repeat split).
  - visitor_cases; solve [finish_truthy].
  - destruct o; cbn [_analyzeMemberExpression]; try (now repeat split).
    visitor_cases; solve [finish_truthy].
Qed.

Lemma callExpression_truthy (n : node) (a : FunctionAnalysis) :
  records_truthy a -> records_truthy (_analyzeCallExpression n a).
Proof.
  intros (S & B & Q & P & H & T).
  destruct n; try (now repeat split).
  destruct n as [| | | | | | | | | | |object property| | | | | | | | | | | | | | | | | |];
    cbn [_analyzeCallExpression]; try (now repeat split).
  cbv zeta.
  destruct object as [| | | | | | | | | | | |c args| | | | | | | | | | | | | | | | |];
    try solve [visitor_cases; finish_truthy].
  destruct c as [| | | | | | | | | | |io ip| | | | | | | | | | | | | | | | | |];
    solve [visitor_cases; finish_truthy].
Qed.

Lemma throwStatement_truthy (n : node) (a : FunctionAnalysis) :
  records_truthy a -> records_truthy (_analyzeThrowStatement n a).
Proof.
  intros (S & B & Q & P & H & T).
  destruct n; try (now repeat split).
  destruct n; cbn [_analyzeThrowStatement]; try (now repeat split).
  - repeat split; try assumption. cbn. apply Forall_app. split; [exact T|].
    now constructor.
  - visitor_cases; repeat split; cbn; try assumption.
    apply Forall_app. split; [exact T|]. constructor; [|constructor].
    cbn [thrown_message]. unfold JS.or.
    destruct (JS.truthy (_extractLiteralValue (hd_error arguments))) eqn:E;
      [exact E|reflexivity].
Qed.

Lemma returnStatement_truthy (n : node) (a : FunctionAnalysis) :
  records_truthy a -> records_truthy (_analyzeReturnStatement n a).
Proof.
  intros R. destruct n; try exact R. destruct argument; exact R.
Qed.

Lemma function_visitor_truthy (n : node) (a : FunctionAnalysis) :
  records_truthy a -> records_truthy (function_visitor n a).
Proof.
  intros R. destruct n; cbn [function_visitor]; try exact R.
  - now apply memberExpression_truthy.
  - now apply callExpression_truthy.
  - now apply returnStatement_truthy.
  - now apply throwStatement_truthy.
Qed.

(** X8.  Whatever the function node, nothing empty is recorded by its
    analysis: every status code and every field of the four request sets
    is a truthy value (never [0], the empty text, [null] or [undefined]),
    and every thrown error has a truthy message. *)
Theorem analyzeFunctionNode_records_truthy (n : node) (customName : jsval) :
  records_truthy (_analyzeFunctionNode n customName).
Proof.
  unfold _analyzeFunctionNode, traverse. cbv zeta.
  apply walk_invariant; [apply function_visitor_truthy|].
  repeat split; constructor.
Qed.

Ltac finish_header :=
  repeat split;
  cbn [push_body push_query push_params push_headers push_statusCode push_jsonCall
       push_sendCall push_structure set_responseUsage push_thrown push_returnValue
       name isAsync isArrow isClass parameters];
  reflexivity.

Lemma function_visitor_header (n : node) (a : FunctionAnalysis) :
  same_header (function_visitor n a) a.
Proof.
  destruct n; cbn [function_visitor]; try (now repeat split).
  - (* member expression *)
    destruct n1 as [x| | | | | | | | | | |o p| | | | | | | | | | | | | | | | | |];
      cbn [_analyzeMemberExpression]; try (now repeat split).
    + visitor_cases; solve [finish_header].
    + destruct o; cbn [_analyzeMemberExpression]; try (now repeat split).
      visitor_cases; solve [finish_header].
  - (* call expression *)
    destruct n as [| | | | | | | | | | |object property| | | | | | | | | | | | | | | | | |];
      cbn [_analyzeCallExpression]; try (now repeat split).
    cbv zeta.
    destruct object as [| | | | | | | | | | | |c args| | | | | | | | | | | | | | | | |];
      try solve [visitor_cases; finish_header].
    destruct c as [| | | | | | | | | | |io ip| | | | | | | | | | | | | | | | | |];
      solve [visitor_cases; finish_header].
  - (* return statement *)
    cbn [_analyzeReturnStatement]. destruct argument; now repeat split.
  - (* throw statement *)
    cbn [_analyzeThrowStatement].
    destruct n; try (now repeat split). visitor_cases; solve [finish_header].
Qed.

(** X9.  The walk over the body never touches what was read off the
    function itself: the analysis has one parameter entry per declared
    parameter, in order, the [async] flag of the node, and the custom
    name when one is given. *)
Theorem analyzeFunctionNode_header (n : node) (customName : jsval) :
  let fa := _analyzeFunctionNode n customName in
  parameters fa = _extractParameters (function_params n)
  /\ List.length (parameters fa) = List.length (function_params n)
  /\ isAsync fa = function_async n
  /\ (JS.truthy customName = true -> name fa = customName).
Proof.
  cbv zeta. unfold _analyzeFunctionNode, traverse. cbv zeta.
  match goal with |- context [walk function_visitor false n ?a] => set (a0 := a) end.
  assert (H : same_header (walk function_visitor false n a0) a0).
  { apply (walk_invariant function_visitor (fun a => same_header a a0)).
    - intros m st Hst.
      destruct (function_visitor_header m st) as (A & B & C & D & E).
      destruct Hst as (A' & B' & C' & D' & E').
      repeat split; congruence.
    - repeat split. }
  destruct H as (A & B & _ & _ & E).
  rewrite E, B, A. subst a0. cbn [parameters isAsync name].
  split; [reflexivity|]. split; [apply length_map|]. split; [reflexivity|].
  intros T. unfold JS.or. now rewrite T.
Qed.

Lemma analyzeFunctionNode_header_witness :
  name (_analyzeFunctionNode
          (ArrowFunctionExpression true [Identifier "req"; Identifier "res"]
             (BlockStatement []))
          (VStr "listUsers"))
  = VStr "listUsers".
Proof.
  apply (analyzeFunctionNode_header
           (ArrowFunctionExpression true [Identifier "req"; Identifier "res"]
              (BlockStatement []))
           (VStr "listUsers")).
  reflexivity.
Defined.

Lemma incl_snoc_both {A : Type} (xs ys : list A) (v : A) :
  incl xs ys -> incl (xs ++ [v]) (ys ++ [v]).
Proof.
  intros H x Hx. apply in_app_or in Hx as [Hx|Hx]; apply in_or_app; auto.
Qed.

Ltac finish_incl :=
  cbn [push_body push_query push_params push_headers push_statusCode push_jsonCall
       push_sendCall push_structure set_responseUsage push_thrown push_returnValue
       responseUsage jsonCalls structures];
  repeat first [ assumption | apply incl_snoc_both | apply incl_appl ].

Lemma function_visitor_json_in_structures (n : node) (a : FunctionAnalysis) :
  incl (jsonCalls (responseUsage a)) (structures (responseUsage a)) ->
  incl (jsonCalls (responseUsage (function_visitor n a)))
       (structures (responseUsage (function_visitor n a))).
Proof.
  intros H.
  destruct n; cbn [function_visitor]; try exact H.
  - destruct n1 as [x| | | | | | | | | | |o p| | | | | | | | | | | | | | | | | |];
      cbn [_analyzeMemberExpression]; try exact H.
    + visitor_cases; solve [finish_incl].
    + destruct o; cbn [_analyzeMemberExpression]; try exact H.
      visitor_cases; solve [finish_incl].
  - destruct n as [| | | | | | | | | | |object property| | | | | | | | | | | | | | | | | |];
      cbn [_analyzeCallExpression]; try exact H.
    cbv zeta.
    destruct object as [| | | | | | | | | | | |c args| | | | | | | | | | | | | | | | |];
      try solve [visitor_cases; finish_incl].
    destruct c as [| | | | | | | | | | |io ip| | | | | | | | | | | | | | | | | |];
      solve [visitor_cases; finish_incl].
  - cbn [_analyzeReturnStatement]. destruct argument; exact H.
  - cbn [_analyzeThrowStatement].
    destruct n; try exact H. visitor_cases; solve [finish_incl].
Qed.

(** X10.  Every structure recorded for a [res.json] call is also in
    [structures]: [jsonCalls] is included in [structures] for every
    function node. *)
Theorem analyzeFunctionNode_json_in_structures (n : node) (customName : jsval) :
  incl (jsonCalls (responseUsage (_analyzeFunctionNode n customName)))
       (structures (responseUsage (_analyzeFunctionNode n customName))).
Proof.
  unfold _analyzeFunctionNode, traverse. cbv zeta.
  apply (walk_invariant function_visitor
           (fun a => incl (jsonCalls (responseUsage a)) (structures (responseUsage a)))).
  - apply function_visitor_json_in_structures.
  - intros x [].
Qed.

Lemma assign_flat (k : string) (v : jsval) (o : list (string * jsval)) :
  is_primitive v = true ->
  Forall (fun kv => is_primitive (snd kv) = true /\ fst kv <> "__proto__") o ->
  Forall (fun kv => is_primitive (snd kv) = true /\ fst kv <> "__proto__")
         (JS.assign k v o).
Proof.
  intros V H. unfold JS.assign.
  destruct (String.eqb k "__proto__") eqn:E; [exact H|].
  apply String.eqb_neq in E.
  induction o as [|[k' v'] o IH]; cbn [JS.define].
  - constructor; [now split|constructor].
  - inversion H as [|? ? Hk Ho]; subst.
    destruct (String.eqb k k'); constructor; try assumption; [now split|now apply IH].
Qed.

(** X11.  The shape of an object literal is flat: it is an object whose
    recorded values are all strings, numbers or booleans (never [null], a
    nested object or an array), and it has no own key [__proto__]. *)
Theorem extractObjectStructure_flat (props : list node) :
  exists fields,
    _extractObjectStructure (ObjectExpression props) = VObj fields
    /\ Forall (fun kv => is_primitive (snd kv) = true /\ fst kv <> "__proto__") fields.
Proof.
  cbn [_extractObjectStructure]. eexists. split; [reflexivity|].
  apply (fold_left_invariant
           (Forall (fun kv => is_primitive (snd kv) = true /\ fst kv <> "__proto__")));
    [|constructor].
  intros o p Ho.
  destruct p; cbn [structure_step]; try exact Ho.
  - apply assign_flat; [|exact Ho]. cbn [property_value].
    destruct p2; reflexivity.
  - apply assign_flat; [reflexivity|exact Ho].
  - apply assign_flat; [reflexivity|exact Ho].
Qed.

End AnalysisInvariants.

(** ** Values: equality and sets *)

Section Values.

Lemma jsval_eqb_true : forall a b, JS.eqb a b = true -> a = b.
Proof.
  fix IH 1. intros a b H.
  destruct a, b; try discriminate H; try reflexivity.
  - cbn in H. apply Bool.eqb_prop in H. now subst.
  - cbn in H. apply Z.eqb_eq in H. now subst.
  - cbn in H. apply String.eqb_eq in H. now subst.
  - cbn [JS.eqb] in H. f_equal.
    revert elements0 H. induction elements as [|x xs IHxs]; intros [|y ys] H;
      try discriminate H; [reflexivity|].
    apply andb_true_iff in H as [H1 H2].
    f_equal; [now apply IH | now apply IHxs].
  - cbn [JS.eqb] in H. f_equal.
    revert fields0 H. induction fields as [|[k x] xs IHxs]; intros [|[l y] ys] H;
      try discriminate H; [reflexivity|].
    apply andb_true_iff in H as [H H2]. apply andb_true_iff in H as [H0 H1].
    apply String.eqb_eq in H0. subst l.
    f_equal; [f_equal; now apply IH | now apply IHxs].
Qed.

Lemma jsval_eqb_refl : forall a, JS.eqb a a = true.
Proof.
  fix IH 1. intros a. destruct a; try reflexivity.
  - cbn. apply Bool.eqb_reflx.
  - cbn. apply Z.eqb_refl.
  - cbn. apply String.eqb_refl.
  - cbn [JS.eqb]. induction elements as [|x xs IHxs]; [reflexivity|].
    now rewrite IH, IHxs.
  - cbn [JS.eqb]. induction fields as [|[k x] xs IHxs]; [reflexivity|].
    now rewrite String.eqb_refl, IH, IHxs.
Qed.

Lemma includes_In (v : jsval) (xs : list jsval) :
  JS.includes v xs = true <-> In v xs.
Proof.
  unfold JS.includes. rewrite existsb_exists. split.
  - intros (x & Hx & E). apply jsval_eqb_true in E. now subst.
  - intros H. exists v. split; [exact H|apply jsval_eqb_refl].
Qed.

Lemma includes_not_In (v : jsval) (xs : list jsval) :
  JS.includes v xs = false <-> ~ In v xs.
Proof.
  rewrite <- includes_In. destruct (JS.includes v xs); split; congruence.
Qed.

Lemma unique_from_In (xs seen : list jsval) (v : jsval) :
  In v (JS.unique_from seen xs) <-> In v xs /\ ~ In v seen.
Proof.
  revert seen. induction xs as [|x xs IH]; intros seen; cbn [JS.unique_from].
  - split; [intros []|intros [[] _]].
  - destruct (JS.includes x seen) eqn:E.
    + apply includes_In in E. rewrite IH. cbn [In]. split.
      * intros [H N]. split; [now right|exact N].
      * intros [[->|H] N]; [contradiction|now split].
    + apply includes_not_In in E. cbn [In]. rewrite IH. cbn [In]. split.
      * intros [->|[H N]]; [now split; [left|]|]. split; [now right|tauto].
      * intros [[->|H] N]; [now left|].
        destruct (includes_In v [x]) as [_ D].
        destruct (JS.includes v [x]) eqn:F.
        -- apply includes_In in F. destruct F as [->|[]]. now left.
        -- apply includes_not_In in F. right. split; [exact H|].
           intros [->|S]; [apply F; now left|contradiction].
Qed.

Lemma unique_from_NoDup (xs seen : list jsval) : NoDup (JS.unique_from seen xs).
Proof.
  revert seen. induction xs as [|x xs IH]; intros seen; cbn [JS.unique_from].
  - constructor.
  - destruct (JS.includes x seen); [apply IH|].
    constructor; [|apply IH].
    rewrite unique_from_In. intros [_ N]. apply N. now left.
Qed.

Lemma unique_In (xs : list jsval) (v : jsval) : In v (JS.unique xs) <-> In v xs.
Proof. unfold JS.unique. rewrite unique_from_In. cbn. tauto. Qed.

End Values.

(** ** Invariants of the assembly *)

Section AssemblyInvariants.
Import JSString DocumentationBuilder BuilderSpec AssemblySpec AnalysisSpec.

Variable parse : string -> node + string.
Variable schemaPath : string -> string -> string.
Variable readSchema : string -> option jsval.

Lemma seed_parameters (xs : list string) :
  forall doc,
    parameters (fold_left (fun doc param =>
                             push_parameter (path_parameter (VStr param)) doc) xs doc)
    = (parameters doc ++ map (fun x => path_parameter (VStr x)) xs)%list.
Proof.
  induction xs as [|x xs IH]; intros doc; cbn [fold_left map].
  - now rewrite app_nil_r.
  - rewrite IH. cbn. now rewrite <- app_assoc.
Qed.

(** The record [_buildRouteDocumentation] returns is obtained from the
    seeded one by steps that keep [P], whenever the steps of the analysis
    keep it. *)
Lemma build_invariant (P : Documentation -> Prop) (route : Route) :
  (forall d v, P d -> P (set_requestSchema v d)) ->
  (forall d v, P d -> P (set_responseSchema v d)) ->
  (forall d v, P d -> P (set_examples v d)) ->
  (forall d fa, In fa (ASTAnalyzer.functions
                         (ASTAnalyzer.analyzeCode parse
                            (match functionSource route with
                             | Some src => src
                             | None => ""
                             end))) ->
                P d ->
                P (_extractRequestParameters fa d)
                /\ forall d', P d' ->
                     P (match ASTAnalyzer.statusCodes (ASTAnalyzer.responseUsage fa) with
                        | [] => d'
                        | c :: cs => set_statusCodes (JS.unique (c :: cs)) d'
                        end)) ->
  forall seed,
    P seed ->
    P (_loadSchemas schemaPath readSchema
         (match functionSource route with
          | Some source =>
              if String.eqb source "" then seed
              else
                match ASTAnalyzer.functions (ASTAnalyzer.analyzeCode parse source) with
                | functionAnalysis :: _ =>
                    let doc := _extractRequestParameters functionAnalysis seed in
                    let doc := _extractResponseStructure functionAnalysis doc in
                    match ASTAnalyzer.statusCodes
                            (ASTAnalyzer.responseUsage functionAnalysis) with
                    | [] => doc
                    | c :: cs => set_statusCodes (JS.unique (c :: cs)) doc
                    end
                | [] => seed
                end
          | None => seed
          end)).
Proof.
  intros Hreq Hres Hex Hfa seed Hseed.
  assert (L : forall d, P d -> P (_loadSchemas schemaPath readSchema d)).
  { intros d Hd. unfold _loadSchemas. cbv zeta.
    destruct (readSchema (schemaPath "request" _));
      destruct (readSchema (schemaPath "response" _)); auto. }
  apply L.
  destruct (functionSource route) as [source|]; [|exact Hseed].
  destruct (String.eqb source ""); [exact Hseed|].
  destruct (ASTAnalyzer.functions _) as [|fa fas] eqn:F; [exact Hseed|].
  destruct (Hfa seed fa (or_introl eq_refl) Hseed) as [R S].
  cbv zeta. apply S.
  unfold _extractResponseStructure.
  destruct (ASTAnalyzer.structures _), (ASTAnalyzer.returnValues _); cbv zeta;
    try assumption;
    repeat match goal with
           | |- P (if ?c then _ else _) => destruct c
           | |- P (set_responseSchema _ _) => apply Hres
           | |- P (set_examples _ _) => apply Hex
           end; assumption.
Qed.

Lemma build_unfold (route : Route) :
  _buildRouteDocumentation parse schemaPath readSchema route
  = _loadSchemas schemaPath readSchema
      (let seed :=
         fold_left (fun doc param => push_parameter (path_parameter (VStr param)) doc)
           (routeParameters route)
           (mkDocumentation (route_method route) (route_path route)
              (route_handlerName route) (route_handlerType route)
              (route_middleware route) [] VNull VNull [] (VObj [])
              (VObj [("isAsync", VBool (route_isAsync route));
                     ("parameterCount", VNum (route_parameterCount route))])
              false VUndefined) in
       match functionSource route with
       | Some source =>
           if String.eqb source "" then seed
           else
             match ASTAnalyzer.functions (ASTAnalyzer.analyzeCode parse source) with
             | functionAnalysis :: _ =>
                 let doc := _extractRequestParameters functionAnalysis seed in
                 let doc := _extractResponseStructure functionAnalysis doc in
                 match ASTAnalyzer.statusCodes
                         (ASTAnalyzer.responseUsage functionAnalysis) with
                 | [] => doc
                 | c :: cs => set_statusCodes (JS.unique (c :: cs)) doc
                 end
             | [] => seed
             end
       | None => seed
       end).
Proof. reflexivity. Qed.

(** X12.  For every route, the documented parameters start with the
    parameters of the route, in order, each located in the path and
    required, and nothing that follows is a second path parameter for one
    of those names: whether there is a handler source or not, and
    whatever the parser and the schema files give.  The minimal record
    lists the same names. *)
Theorem route_parameters_lead (route : Route) (message : string) :
  (exists rest,
      parameters (_buildRouteDocumentation parse schemaPath readSchema route)
      = (map (fun x => path_parameter (VStr x)) (routeParameters route) ++ rest)%list
      /\ forall p x, In p rest -> In x (routeParameters route) ->
                     param_in p = "path" -> param_name p <> VStr x)
  /\ map param_name (parameters (_createMinimalDoc route message))
     = map VStr (routeParameters route)
  /\ Forall (fun p => param_in p = "path" /\ param_required p = true)
            (parameters (_createMinimalDoc route message)).
Proof.
  split.
  - set (base := map (fun x => path_parameter (VStr x)) (routeParameters route)).
    assert (S : seeded_by base
                  (_buildRouteDocumentation parse schemaPath readSchema route)).
    { rewrite build_unfold. cbv zeta.
      apply (build_invariant (seeded_by base)).
      - intros d v. now apply seeded_by_same_parameters.
      - intros d v. now apply seeded_by_same_parameters.
      - intros d v. now apply seeded_by_same_parameters.
      - intros d fa _ Hd. split; [now apply seeded_by_extractRequestParameters|].
        intros d' Hd'. destruct (ASTAnalyzer.statusCodes _); [exact Hd'|].
        eapply seeded_by_same_parameters; [|exact Hd']. reflexivity.
      - exists []. split; [|constructor].
        rewrite seed_parameters. cbn [parameters app]. now rewrite app_nil_r. }
    destruct S as (rest & E & F). exists rest. split; [exact E|].
    intros p x Hp Hx Hin. rewrite Forall_forall in F. specialize (F p Hp Hin).
    eapply not_same_path_name; [|exact F].
    unfold base. apply in_map_iff. now exists x.
  - unfold _createMinimalDoc. cbn [parameters]. split.
    + rewrite map_map. reflexivity.
    + apply Forall_forall. intros p Hp. apply in_map_iff in Hp as (x & <- & _).
      now split.
Qed.

Lemma identity_extractRequestParameters (fa : ASTAnalyzer.FunctionAnalysis)
      (d : Documentation) :
  identity (_extractRequestParameters fa d) = identity d.
Proof.
  unfold _extractRequestParameters. cbv zeta.
  apply (fold_left_invariant (fun x => identity x = identity d)); [now intros|].
  apply (fold_left_invariant (fun x => identity x = identity d)).
  { intros a x Ha. destruct (existsb _ _); [exact Ha|]. exact Ha. }
  apply (fold_left_invariant (fun x => identity x = identity d)); [now intros|].
  destruct (ASTAnalyzer.body _); [reflexivity|].
  match goal with |- context [fold_left ?f ?l d] =>
    assert (S : identity (fold_left f l d) = identity d) end.
  { apply (fold_left_invariant (fun x => identity x = identity d)); [now intros|].
    reflexivity. }
  match goal with |- identity (if ?c then _ else _) = _ => destruct c end; exact S.
Qed.

(** X13.  A record keeps the identity of its route: method, path, handler
    name and type, and middleware list are those of the route, whatever
    the analysis and the schema files add; the same holds for the minimal
    record. *)
Theorem build_keeps_identity (route : Route) (message : string) :
  identity (_buildRouteDocumentation parse schemaPath readSchema route)
  = route_identity route
  /\ identity (_createMinimalDoc route message) = route_identity route.
Proof.
  split; [|reflexivity].
  rewrite build_unfold. cbv zeta.
  apply (build_invariant (fun d => identity d = route_identity route)).
  - now intros.
  - now intros.
  - now intros.
  - intros d fa _ Hd. split; [now rewrite identity_extractRequestParameters|].
    intros d' Hd'. destruct (ASTAnalyzer.statusCodes _); exact Hd'.
  - apply (fold_left_invariant (fun d => identity d = route_identity route));
      [now intros|reflexivity].
Qed.

Lemma file_visitor_truthy (n : node) (fs : list ASTAnalyzer.FunctionAnalysis) :
  Forall records_truthy fs -> Forall records_truthy (ASTAnalyzer.file_visitor n fs).
Proof.
  intros H.
  assert (A : forall m c, Forall records_truthy
                            (fs ++ [ASTAnalyzer._analyzeFunctionNode m c])).
  { intros m c. apply Forall_app. split; [exact H|].
    constructor; [|constructor].
    unfold ASTAnalyzer._analyzeFunctionNode, ASTAnalyzer.traverse. cbv zeta.
    apply walk_invariant; [apply function_visitor_truthy|].
    repeat split; constructor. }
  destruct n; cbn [ASTAnalyzer.file_visitor]; try exact H; try apply A.
  destruct init as [init|]; [|exact H]. destruct init; try exact H; apply A.
Qed.

Lemma analyzeCode_truthy (source : string) :
  Forall records_truthy (ASTAnalyzer.functions (ASTAnalyzer.analyzeCode parse source)).
Proof.
  unfold ASTAnalyzer.analyzeCode. destruct (parse source); [|constructor].
  cbn [ASTAnalyzer.functions]. unfold ASTAnalyzer.traverse.
  apply walk_invariant; [apply file_visitor_truthy|constructor].
Qed.

(** X14.  The status codes of a record are pairwise distinct and none of
    them is empty ([0], the empty text or [null]), for every route and
    every handler source. *)
Theorem build_statusCodes_distinct (route : Route) :
  NoDup (statusCodes (_buildRouteDocumentation parse schemaPath readSchema route))
  /\ all_truthy (statusCodes (_buildRouteDocumentation parse schemaPath readSchema route)).
Proof.
  rewrite build_unfold. cbv zeta.
  apply (build_invariant (fun d => NoDup (statusCodes d) /\ all_truthy (statusCodes d))).
  - now intros.
  - now intros.
  - now intros.
  - intros d fa Hfa Hd. split.
    + assert (E : statusCodes (_extractRequestParameters fa d) = statusCodes d).
      { unfold _extractRequestParameters. cbv zeta.
        apply (fold_left_invariant (fun x => statusCodes x = statusCodes d));
          [now intros|].
        apply (fold_left_invariant (fun x => statusCodes x = statusCodes d)).
        { intros a x Ha. destruct (existsb _ _); exact Ha. }
        apply (fold_left_invariant (fun x => statusCodes x = statusCodes d));
          [now intros|].
        destruct (ASTAnalyzer.body _); [reflexivity|].
        match goal with |- context [fold_left ?f ?l d] =>
          assert (S : statusCodes (fold_left f l d) = statusCodes d) end.
        { apply (fold_left_invariant (fun x => statusCodes x = statusCodes d));
            [now intros|reflexivity]. }
        match goal with |- statusCodes (if ?c then _ else _) = _ => destruct c end;
          exact S. }
      now rewrite E.
    + intros d' Hd'.
      destruct (ASTAnalyzer.statusCodes (ASTAnalyzer.responseUsage fa)) as [|c cs] eqn:C;
        [exact Hd'|].
      cbn [statusCodes set_statusCodes]. split; [apply unique_from_NoDup|].
      pose proof (analyzeCode_truthy
                    (match functionSource route with Some src => src | None => "" end))
        as T.
      rewrite Forall_forall in T. destruct (T fa Hfa) as [T1 _].
      rewrite C in T1. apply Forall_forall. intros v Hv.
      apply (proj1 (unique_In _ _)) in Hv. unfold all_truthy in T1.
      rewrite Forall_forall in T1.
      now apply T1.
  - assert (E : forall xs doc,
               statusCodes (fold_left (fun doc param =>
                                         push_parameter (path_parameter (VStr param)) doc)
                                      xs doc) = statusCodes doc).
    { induction xs as [|x xs IH]; intros doc; [reflexivity|].
      cbn [fold_left]. now rewrite IH. }
    rewrite E. cbn [statusCodes]. split; constructor.
Qed.

Lemma extractRequestParameters_added (fa : ASTAnalyzer.FunctionAnalysis)
      (d : Documentation) :
  forall p, In p (parameters (_extractRequestParameters fa d)) ->
            In p (parameters d) \/ param_name p <> VStr "__ALL__".
Proof.
  set (Q := fun x : Documentation =>
              forall p, In p (parameters x) ->
                        In p (parameters d) \/ param_name p <> VStr "__ALL__").
  assert (Push : forall x f q,
             Q x -> is_not_ALL f = true -> param_name q = f -> Q (push_parameter q x)).
  { intros x f q Hx Hf Hq p Hp. cbn in Hp. apply in_app_or in Hp as [Hp|[<-|[]]].
    - now apply Hx.
    - right. rewrite Hq. intros ->. discriminate Hf. }
  assert (Step : forall (mk : jsval -> ParameterDescriptor) l x,
             (forall f, param_name (mk f) = f) -> Q x ->
             Q (fold_left (fun doc field => push_parameter (mk field) doc)
                          (filter is_not_ALL l) x)).
  { intros mk l x Hmk. induction l as [|f l IH] in x |- *; intros Hx; [exact Hx|].
    cbn [filter]. destruct (is_not_ALL f) eqn:E; [|now apply IH].
    cbn [fold_left]. apply IH. now apply (Push x f). }
  change (Q (_extractRequestParameters fa d)).
  unfold _extractRequestParameters. cbv zeta.
  apply (Step (fun field => mkParameter field "header" "string" false _));
    [reflexivity|].
  match goal with |- Q (fold_left ?f (filter is_not_ALL ?l) ?x) =>
    assert (Params : forall y, Q y -> Q (fold_left f (filter is_not_ALL l) y));
    [|apply Params] end.
  { induction (ASTAnalyzer.params (ASTAnalyzer.requestUsage fa)) as [|f l IH];
      intros y Hy; [exact Hy|].
    cbn [filter]. destruct (is_not_ALL f) eqn:E; [|now apply IH].
    cbn [fold_left]. apply IH. destruct (existsb _ _); [exact Hy|].
    now apply (Push y f). }
  apply (Step (fun field => mkParameter field "query" "string" false _));
    [reflexivity|].
  destruct (ASTAnalyzer.body (ASTAnalyzer.requestUsage fa)) as [|b bs] eqn:B.
  { intros p Hp. now left. }
  match goal with |- Q (if ?c then set_requestSchema ?v ?x else ?x) =>
    assert (S : Q x); [|destruct c; exact S] end.
  apply (Step (fun field => mkParameter field "body" "unknown" false _));
    [reflexivity|].
  intros p Hp. now left.
Qed.

(** X15.  The sentinel never becomes a parameter: a documented parameter
    named [__ALL__] can only be a path parameter that the route itself
    declares. *)
Theorem build_no_sentinel_parameter (route : Route) (p : ParameterDescriptor) :
  In p (parameters (_buildRouteDocumentation parse schemaPath readSchema route)) ->
  param_name p = VStr "__ALL__" ->
  p = path_parameter (VStr "__ALL__") /\ In "__ALL__" (routeParameters route).
Proof.
  set (Q := fun x : Documentation =>
              forall q, In q (parameters x) -> param_name q = VStr "__ALL__" ->
                        q = path_parameter (VStr "__ALL__")
                        /\ In "__ALL__" (routeParameters route)).
  intros Hp Hn. revert p Hp Hn. change (Q (_buildRouteDocumentation parse schemaPath
                                             readSchema route)).
  rewrite build_unfold. cbv zeta. apply (build_invariant Q).
  - intros d v Hd. exact Hd.
  - intros d v Hd. exact Hd.
  - intros d v Hd. exact Hd.
  - intros d fa _ Hd. split.
    + intros q Hq Hn.
      destruct (extractRequestParameters_added fa d q Hq) as [H|H];
        [now apply Hd|contradiction].
    + intros d' Hd'. destruct (ASTAnalyzer.statusCodes _); exact Hd'.
  - intros q Hq Hn. rewrite seed_parameters in Hq. cbn [parameters app] in Hq.
    apply in_map_iff in Hq as (x & <- & Hx). cbn in Hn. injection Hn as ->.
    now split.
Qed.

Lemma convert_entry_keys (key k : string) (value : jsval)
      (nested properties : list (string * jsval)) :
  k <> "__proto__" ->
  (JS.get k (convert_entry key value nested properties) <> None
   <-> JS.get k properties <> None \/ (k = key /\ key <> "status")).
Proof.
  intros Hk. unfold convert_entry.
  destruct (String.eqb key "status") eqn:S.
  - apply String.eqb_eq in S. split; [now left|]. intros [H|[_ H]]; [exact H|].
    contradiction.
  - apply String.eqb_neq in S.
    destruct (string_dec k key) as [->|N].
    + rewrite get_assign_same by assumption. split; [now right|discriminate].
    + rewrite get_assign_other by assumption. split; [now left|].
      intros [H|[H _]]; [exact H|contradiction].
Qed.

Lemma get_defined_iff (k : string) (o : list (string * jsval)) :
  JS.get k o <> None <-> exists v, In (k, v) o.
Proof.
  induction o as [|[key w] o IH]; cbn [JS.get].
  - split; [congruence|intros [v []]].
  - destruct (String.eqb k key) eqn:Q.
    + apply String.eqb_eq in Q. subst key. split; [|discriminate].
      intros _. exists w. now left.
    + apply String.eqb_neq in Q. rewrite IH. split.
      * intros [v Hv]. exists v. now right.
      * intros [v [E|Hv]]; [injection E as -> ->; contradiction|now exists v].
Qed.

(** X16.  The properties [_convertToSchemaProperties] builds for an object
    are named by the keys of the object, without the synthetic [status]
    key (and without [__proto__]): no property is lost and none is
    invented. *)
Theorem convertToSchemaProperties_keys (o : list (string * jsval)) (k : string) :
  k <> "__proto__" ->
  (JS.get k (_convertToSchemaProperties (VObj o)) <> None
   <-> k <> "status" /\ JS.get k o <> None).
Proof.
  clear parse schemaPath readSchema.
  intros Hk. cbn [_convertToSchemaProperties].
  assert (G : forall acc,
             JS.get k (fold_left
                         (fun properties kv =>
                            convert_entry (fst kv) (snd kv)
                                          (_convertToSchemaProperties (snd kv)) properties)
                         o acc) <> None
             <-> JS.get k acc <> None
                 \/ (k <> "status" /\ exists v, In (k, v) o)).
  { induction o as [|[key v] o IH]; intros acc; cbn [fold_left].
    - split; [now left|]. intros [H|[_ [v []]]]. exact H.
    - rewrite IH. cbn [fst snd]. rewrite convert_entry_keys by assumption. split.
      + intros [[H|[-> S]]|[S [w Hw]]].
        * now left.
        * right. split; [exact S|]. exists v. now left.
        * right. split; [exact S|]. exists w. now right.
      + intros [H|[S [w [E|Hw]]]].
        * left. now left.
        * injection E as -> ->. left. right. now split.
        * right. split; [exact S|]. now exists w. }
  rewrite G. cbn [JS.get]. rewrite get_defined_iff. tauto.
Qed.

Lemma replaceAll_char_removed (a : ascii) (rep s : string) :
  has_char a rep = false -> has_char a (replaceAll (String a "") rep s) = false.
Proof.
  intros Hrep. unfold replaceAll. induction s as [|c s IH]; [reflexivity|].
  cbn [replaceAll_from startsWith String.length Nat.sub].
  destruct (Ascii.eqb a c) eqn:E; cbn [andb].
  - now rewrite has_char_app, Hrep.
  - cbn [has_char]. now rewrite E.
Qed.

Lemma drop_param_colons_has_char (a : ascii) (s : string) :
  has_char a s = false -> has_char a (drop_param_colons s) = false.
Proof.
  induction s as [|c s IH]; intros H; [reflexivity|].
  cbn [has_char] in H. apply orb_false_iff in H as [Hc Hs].
  cbn [drop_param_colons].
  destruct (Ascii.eqb c ":" && _); [now apply IH|].
  cbn [has_char]. now rewrite Hc, IH.
Qed.

Lemma strip_final_dot_has_char (a : ascii) (s : string) :
  has_char a s = false -> has_char a (strip_final_dot s) = false.
Proof.
  induction s as [|c s IH]; intros H; [reflexivity|].
  cbn [has_char] in H. apply orb_false_iff in H as [Hc Hs].
  destruct s as [|d s'].
  - cbn [strip_final_dot]. destruct (Ascii.eqb c "."); [reflexivity|].
    cbn [has_char]. now rewrite Hc.
  - change (has_char a (String c (strip_final_dot (String d s'))) = false).
    cbn [has_char]. rewrite Hc. now apply IH.
Qed.

(** X17.  A schema file name is a stem, a dot and the method in lower
    case, and the stem has no separator left: every route maps to a
    single file name, whatever its path. *)
Theorem routeToSchemaName_shape (m p : string) :
  exists stem,
    _routeToSchemaName m p = stem ++ "." ++ toLowerCase m
    /\ has_char "/" stem = false.
Proof.
  unfold _routeToSchemaName. cbv zeta. eexists. split; [reflexivity|].
  apply strip_final_dot_has_char, drop_param_colons_has_char.
  now apply replaceAll_char_removed.
Qed.

End AssemblyInvariants.

Section AssemblyWitnesses.
Import DocumentationBuilder.

Lemma build_no_sentinel_parameter_witness :
  let route := mkRoute "GET" "/all/:__ALL__" "all" "function" [] ["__ALL__"] None
                       false 2 in
  path_parameter (VStr "__ALL__") = path_parameter (VStr "__ALL__")
  /\ In "__ALL__" (routeParameters route).
Proof.
  intros route.
  apply (build_no_sentinel_parameter (fun _ => inr "no parser") (fun _ n => n)
                                     (fun _ => None) route).
  - now left.
  - reflexivity.
Defined.

Lemma route_parameters_lead_witness :
  let tree :=
    File (Program [VariableDeclaration [VariableDeclarator (Identifier "h")
      (Some (ArrowFunctionExpression false [Identifier "req"; Identifier "res"]
         (BlockStatement
            [ExpressionStatement
               (MemberExpression
                  (MemberExpression (Identifier "req") (Identifier "params"))
                  (Identifier "other"))])))]]) in
  let route := mkRoute "GET" "/users/:id" "h" "function" [] ["id"]
                       (Some "const h = (req, res) => { req.params.other; }")
                       false 2 in
  param_name (path_parameter (VStr "other")) <> VStr "id".
Proof.
  intros tree route.
  destruct (route_parameters_lead (fun _ => inl tree) (fun _ n => n) (fun _ => None)
                                  route "") as [(rest & E & F) _].
  apply (F (path_parameter (VStr "other")) "id").
  - cbv in E. injection E as <-. now left.
  - now left.
  - reflexivity.
Defined.

Lemma convertToSchemaProperties_keys_witness :
  JS.get "ok" (_convertToSchemaProperties
                 (VObj [("status", VNum 201); ("ok", VBool true)])) <> None
  <-> "ok" <> "status"
      /\ JS.get "ok" [("status", VNum 201); ("ok", VBool true)] <> None.
Proof.
  apply (convertToSchemaProperties_keys
           [("status", VNum 201); ("ok", VBool true)] "ok").
  discriminate.
Defined.

End AssemblyWitnesses.

(** ** Invariants of the change analysis *)

Section ChangeInvariants.
Import SemanticVersionManager ChangeSpec VersionSpec.

Lemma map_set_keys {V : Type} (k : string) (v : V) (m : list (string * V)) :
  map fst (JSMap.set k v m)
  = if JSMap.has k m then map fst m else (map fst m ++ [k])%list.
Proof.
  unfold JSMap.has.
  induction m as [|[k' v'] m IH]; cbn [JSMap.set JSMap.get map fst app]; [reflexivity|].
  destruct (String.eqb k k') eqn:E.
  - apply String.eqb_eq in E. now subst.
  - cbn [map fst]. rewrite IH. destruct (JSMap.get k m); reflexivity.
Qed.

Lemma map_has_keys {V : Type} (k : string) (m : list (string * V)) :
  JSMap.has k m = true <-> In k (map fst m).
Proof.
  unfold JSMap.has. induction m as [|[k' v'] m IH]; cbn [JSMap.get map fst In].
  - split; [discriminate|intros []].
  - destruct (String.eqb k k') eqn:E.
    + apply String.eqb_eq in E. subst. split; auto.
    + apply String.eqb_neq in E. rewrite IH. split; [auto|].
      intros [H|H]; [congruence|exact H].
Qed.

Lemma of_entries_NoDup {V : Type} (es : list (string * V)) :
  NoDup (map fst (JSMap.of_entries es)).
Proof.
  unfold JSMap.of_entries.
  apply (fold_left_invariant (fun m : list (string * V) => NoDup (map fst m)));
    [|constructor].
  intros m kv H. rewrite map_set_keys.
  destruct (JSMap.has (fst kv) m) eqn:E; [exact H|].
  apply NoDup_app; [exact H|repeat constructor; intros []|].
  intros x Hx [<-|[]]. apply map_has_keys in Hx. congruence.
Qed.

Lemma map_get_unique {V : Type} (k : string) (v : V) (m : list (string * V)) :
  NoDup (map fst m) -> In (k, v) m -> JSMap.get k m = Some v.
Proof.
  induction m as [|[k' v'] m IH]; intros N H; [destruct H|].
  cbn [map fst] in N. inversion N as [|? ? Hn N']; subst.
  cbn [JSMap.get]. destruct H as [E|H].
  - injection E as -> ->. now rewrite String.eqb_refl.
  - destruct (String.eqb k k') eqn:E; [|now apply IH].
    apply String.eqb_eq in E. subst k'. exfalso. apply Hn.
    apply in_map_iff. now exists (k, v).
Qed.

Lemma doc_map_entries (docs : list Documentation) (k : string) (d : Documentation) :
  In (k, d) (doc_map docs) -> JSMap.get k (doc_map docs) = Some d.
Proof. apply map_get_unique, of_entries_NoDup. Qed.

Lemma flat_map_nil {A B : Type} (f : A -> list B) (l : list A) :
  (forall x, In x l -> f x = []) -> flat_map f l = [].
Proof.
  induction l as [|x l IH]; intros H; [reflexivity|].
  cbn [flat_map]. rewrite H by now left. apply IH. intros y Hy. apply H. now right.
Qed.

Lemma filter_nil {A : Type} (f : A -> bool) (l : list A) :
  (forall x, In x l -> f x = false) -> filter f l = [].
Proof.
  induction l as [|x l IH]; intros H; [reflexivity|].
  cbn [filter]. rewrite H by now left. apply IH. intros y Hy. apply H. now right.
Qed.

Lemma fold_left_unchanged {A B : Type} (f : A -> B -> A) (l : list B) (a : A) :
  (forall x, In x l -> f a x = a) -> fold_left f l a = a.
Proof.
  induction l as [|x l IH]; intros H; [reflexivity|].
  cbn [fold_left]. rewrite H by now left. apply IH. intros y Hy. apply H. now right.
Qed.

Lemma hasResponseSchemaChanged_same (schema : jsval) :
  _hasResponseSchemaChanged schema schema = false.
Proof.
  unfold _hasResponseSchemaChanged.
  destruct (JS.truthy schema); cbn [negb andb orb]; [|reflexivity].
  destruct (JS.truthy (JS.prop "properties" schema)); [|reflexivity].
  destruct (existsb _ (JS.keys _)) eqn:E; [|reflexivity].
  apply existsb_exists in E as (x & Hx & E). apply negb_true_iff in E.
  assert (T : existsb (String.eqb x) (JS.keys (JS.prop "properties" schema)) = true).
  { apply existsb_exists. exists x. split; [exact Hx|apply String.eqb_refl]. }
  congruence.
Qed.

(** A record compared with itself: nothing is detected unless it carries
    the breaking flag. *)
Lemma detectModifications_same (d : Documentation) :
  breakingChange d = false ->
  _detectModifications d d = mkModifications false false false [].
Proof.
  intros F. unfold _detectModifications. cbv zeta.
  rewrite fold_left_unchanged.
  2:{ intros x Hx. replace (JS.includes x (required_names d)) with true; [reflexivity|].
      symmetry. now apply includes_In. }
  rewrite hasResponseSchemaChanged_same.
  rewrite filter_nil.
  2:{ intros x Hx. apply negb_false_iff. now apply includes_In. }
  rewrite F, Nat.eqb_refl. cbn [negb andb].
  destruct (list_eq_dec string_dec (middleware d) (middleware d)); [reflexivity|].
  contradiction.
Qed.

Lemma analyzeChanges_nothing (oldDocs newDocs : list Documentation) :
  changes (analyzeChanges oldDocs newDocs) = no_changes ->
  analyzeChanges oldDocs newDocs = mkChangeAnalysis patch "" no_changes.
Proof.
  unfold analyzeChanges. cbv zeta.
  match goal with |- context [match breakingChanges ?c with [] => _ | _ => _ end] =>
    set (cs := c) end.
  destruct (breakingChanges cs) eqn:B; [|intros H; cbn in H; rewrite H in B; discriminate].
  destruct (newEndpoints cs) eqn:N; [|intros H; cbn in H; rewrite H in N; discriminate].
  destruct (modifiedEndpoints cs) eqn:M, (internalChanges cs) eqn:I;
    intros H; cbn in H; rewrite H in *; try discriminate. reflexivity.
Qed.

(** X18.  Comparing a snapshot with itself reports nothing, provided no
    record carries the breaking flag: every list is empty and the bump is
    [patch] with an empty reason.  Records that repeat a key do not
    change this. *)
Theorem analyzeChanges_same_snapshot (docs : list Documentation) :
  (forall d, In d docs -> breakingChange d = false) ->
  analyzeChanges docs docs = mkChangeAnalysis patch "" no_changes.
Proof.
  intros F. apply analyzeChanges_nothing. rewrite analyzeChanges_changes.
  assert (Has : forall kv, In kv (doc_map docs) ->
                           negb (JSMap.has (fst kv) (doc_map docs)) = false).
  { intros [k d] H. apply negb_false_iff. unfold JSMap.has. cbn [fst].
    now rewrite (doc_map_entries docs k d H). }
  assert (R : removed_records docs docs = []).
  { unfold removed_records. now rewrite filter_nil. }
  assert (Same : forall on, In on (common_records docs docs) ->
                            fst on = snd on /\ In (snd on) docs).
  { intros on H. unfold common_records in H. apply in_flat_map in H as ([k d] & Hk & H).
    cbn [fst snd] in H. rewrite (doc_map_entries docs k d Hk) in H.
    destruct H as [<-|[]]. split; [reflexivity|].
    apply doc_map_get with (k := k). now apply doc_map_entries. }
  assert (D : forall on, In on (common_records docs docs) ->
                         _detectModifications (fst on) (snd on)
                         = mkModifications false false false []).
  { intros on H. destruct (Same on H) as [E I]. rewrite E.
    apply detectModifications_same. now apply F. }
  rewrite R, filter_nil by exact Has.
  rewrite !flat_map_nil; [reflexivity| | |];
    intros on H; unfold internal_of, modified_of, breaking_of; now rewrite (D on H).
Qed.

Lemma analyzeChanges_same_snapshot_witness :
  let docs := [plain_record "GET" "/a" [] ["auth"]; plain_record "GET" "/a" [] []] in
  analyzeChanges docs docs = mkChangeAnalysis patch "" no_changes.
Proof.
  intros docs. apply (analyzeChanges_same_snapshot docs).
  intros d [<-|[<-|[]]]; reflexivity.
Defined.

Lemma mark_fold_flag {X : Type} (c : X -> bool) (msg : X -> string) (l : list X) :
  forall r,
    let r' := fold_left (fun r x => if c x then mark_breaking (msg x) r else r) l r in
    hasBreakingChanges r' = hasBreakingChanges r || existsb c l
    /\ hasChanges r' = hasChanges r.
Proof.
  induction l as [|x l IH]; intros r; cbn [fold_left existsb].
  - now rewrite orb_false_r.
  - destruct (IH (if c x then mark_breaking (msg x) r else r)) as [E F].
    cbv zeta. rewrite E, F. destruct (c x); cbn; [|tauto].
    now rewrite orb_true_r.
Qed.

Lemma existsb_not_included (xs ys : list jsval) :
  existsb (fun x => negb (JS.includes x ys)) xs = true
  <-> exists x, In x xs /\ ~ In x ys.
Proof.
  rewrite existsb_exists. split; intros (x & Hx & H); exists x; split; try exact Hx.
  - apply negb_true_iff in H. now apply includes_not_In.
  - apply negb_true_iff. now apply includes_not_In.
Qed.

(** The two flags of [_detectModifications] as boolean expressions of its
    four checks. *)
Lemma detectModifications_flag_values (oldDoc newDoc : Documentation) :
  let m := _detectModifications oldDoc newDoc in
  hasBreakingChanges m
  = (existsb (fun p => negb (JS.includes p (required_names oldDoc)))
             (required_names newDoc)
     || _hasResponseSchemaChanged (responseSchema oldDoc) (responseSchema newDoc)
     || match filter (fun code => negb (JS.includes code (JS.unique (statusCodes newDoc))))
                     (JS.unique (statusCodes oldDoc))
        with [] => false | _ :: _ => true end
     || breakingChange newDoc)
  /\ hasChanges m
     = negb (Nat.eqb (List.length (parameters newDoc)) (List.length (parameters oldDoc)))
       && negb (hasBreakingChanges m).
Proof.
  cbv zeta. unfold _detectModifications. cbv zeta.
  match goal with |- context [fold_left ?f ?l ?a] => set (r1 := fold_left f l a) end.
  assert (F1 : hasBreakingChanges r1
               = existsb (fun p => negb (JS.includes p (required_names oldDoc)))
                         (required_names newDoc)
               /\ hasChanges r1 = false).
  { subst r1.
    match goal with |- context [fold_left _ ?l ?a] =>
      pose proof (mark_fold_flag
                    (fun p => negb (JS.includes p (required_names oldDoc)))
                    (fun p => endpoint newDoc ++ ": New required parameter '"
                                ++ JS.to_string p ++ "'") l a) as M end.
    cbv zeta in M. exact M. }
  destruct F1 as [B1 C1]. clearbody r1. rewrite <- B1. clear B1.
  destruct r1 as [hc hb hi bc]. cbn [hasBreakingChanges hasChanges] in C1 |- *.
  subst hc.
  destruct (_hasResponseSchemaChanged (responseSchema oldDoc) (responseSchema newDoc));
    destruct (filter _ (JS.unique (statusCodes oldDoc)));
    destruct (breakingChange newDoc);
    destruct (Nat.eqb (List.length (parameters newDoc)) (List.length (parameters oldDoc)));
    destruct (list_eq_dec string_dec (middleware oldDoc) (middleware newDoc));
    destruct hb;
    cbn [negb andb orb hasBreakingChanges hasChanges mark_breaking];
    split; reflexivity.
Qed.

(** X19.  For two records whose status codes and parameter names are
    compared by value (none of them is an object or an array, which the
    sets of the code compare by identity): [_detectModifications] reports
    a breaking change exactly when the current record requires a
    parameter name the previous one did not require, or the response
    schema changed, or a status code of the previous record is gone, or
    the current record carries the breaking flag.  It reports a
    modification exactly when none of these holds and the number of
    parameters differs. *)
Theorem detectModifications_breaking_iff (oldDoc newDoc : Documentation) :
  compared_by_value oldDoc -> compared_by_value newDoc ->
  let m := _detectModifications oldDoc newDoc in
  (hasBreakingChanges m = true
   <-> (exists x, In x (required_parameter_names newDoc)
                  /\ ~ In x (required_parameter_names oldDoc))
       \/ _hasResponseSchemaChanged (responseSchema oldDoc) (responseSchema newDoc) = true
       \/ (exists c, In c (statusCodes oldDoc) /\ ~ In c (statusCodes newDoc))
       \/ breakingChange newDoc = true)
  /\ (hasChanges m = true
      <-> hasBreakingChanges m = false
          /\ List.length (parameters newDoc) <> List.length (parameters oldDoc)).
Proof.
  intros _ _. cbv zeta.
  destruct (detectModifications_flag_values oldDoc newDoc) as [B C].
  cbv zeta in B, C.
  assert (R : existsb (fun p => negb (JS.includes p (required_names oldDoc)))
                      (required_names newDoc) = true
              <-> exists x, In x (required_parameter_names newDoc)
                            /\ ~ In x (required_parameter_names oldDoc)).
  { rewrite existsb_not_included. unfold required_names, required_parameter_names.
    split; intros (x & Hx & N); exists x.
    - split; [now apply unique_In|]. intros H. apply N. now apply unique_In.
    - split; [now apply unique_In|]. intros H. apply N.
      now apply (proj1 (unique_In _ _)). }
  assert (S : (match
                  filter (fun code => negb (JS.includes code (JS.unique (statusCodes newDoc))))
                         (JS.unique (statusCodes oldDoc))
                with [] => false | _ :: _ => true end) = true
              <-> exists c, In c (statusCodes oldDoc) /\ ~ In c (statusCodes newDoc)).
  { split.
    - destruct (filter _ _) as [|c cs] eqn:E; [discriminate|]. intros _.
      assert (H : In c (c :: cs)) by now left.
      rewrite <- E in H. apply filter_In in H as [H1 H2].
      apply negb_true_iff, includes_not_In in H2. rewrite unique_In in *.
      now exists c.
    - intros (c & H1 & H2).
      assert (H : In c (filter (fun code => negb (JS.includes code
                                                   (JS.unique (statusCodes newDoc))))
                               (JS.unique (statusCodes oldDoc)))).
      { apply filter_In. split; [now apply unique_In|].
        apply negb_true_iff, includes_not_In. now rewrite unique_In. }
      destruct (filter _ _); [destruct H|reflexivity]. }
  split.
  - rewrite B, !orb_true_iff, R, S. tauto.
  - rewrite C, andb_true_iff, !negb_true_iff, Nat.eqb_neq. tauto.
Qed.

Lemma detectModifications_breaking_iff_witness :
  let previous :=
    mkDocumentation "GET" "/users/:id" "getUser" "function" []
      [mkParameter (VStr "id") "path" "string" true None]
      VNull VNull [VNum 200; VNum 404] (VObj []) (VObj []) false VUndefined in
  let current :=
    mkDocumentation "GET" "/users/:id" "getUser" "function" []
      [mkParameter (VStr "id") "path" "string" true None]
      VNull VNull [VNum 200] (VObj []) (VObj []) false VUndefined in
  hasBreakingChanges (_detectModifications previous current) = true
  /\ exists c, In c (statusCodes previous) /\ ~ In c (statusCodes current).
Proof.
  intros previous current.
  assert (P : compared_by_value previous) by (split; repeat constructor).
  assert (Q : compared_by_value current) by (split; repeat constructor).
  destruct (detectModifications_breaking_iff previous current P Q) as [B _].
  assert (G : exists c, In c (statusCodes previous) /\ ~ In c (statusCodes current)).
  { exists (VNum 404). split; [right; now left|]. intros [H|[]]. discriminate H. }
  split; [|exact G]. apply B. right. right. left. exact G.
Defined.

Lemma existsb_eqb_In (k : string) (l : list string) :
  existsb (String.eqb k) l = true <-> In k l.
Proof.
  rewrite existsb_exists. split.
  - intros (x & Hx & E). apply String.eqb_eq in E. now subst.
  - intros H. exists k. split; [exact H|apply String.eqb_refl].
Qed.

(** X20.  [_hasResponseSchemaChanged] looks at property names only.  With
    both schemas missing it answers no, with one missing yes; with both
    present it answers yes exactly when a property name of the previous
    schema is not a property name of the current one, so that neither an
    added property nor a changed type counts. *)
Theorem hasResponseSchemaChanged_removed_names (oldSchema newSchema : jsval) :
  let changed := _hasResponseSchemaChanged oldSchema newSchema in
  (JS.truthy oldSchema = false -> JS.truthy newSchema = false -> changed = false)
  /\ (JS.truthy oldSchema <> JS.truthy newSchema -> changed = true)
  /\ (JS.truthy oldSchema = true -> JS.truthy newSchema = true ->
      (changed = true
       <-> exists k, In k (schema_property_keys oldSchema)
                     /\ ~ In k (schema_property_keys newSchema))).
Proof.
  cbv zeta. unfold _hasResponseSchemaChanged. cbv zeta.
  fold (schema_property_keys oldSchema). fold (schema_property_keys newSchema).
  split; [|split].
  - intros -> ->. reflexivity.
  - destruct (JS.truthy oldSchema), (JS.truthy newSchema); intros H;
      try reflexivity; now destruct H.
  - intros -> ->. cbn [negb andb orb]. rewrite existsb_exists.
    split; intros (k & Hk & H); exists k; split; try exact Hk.
    + apply negb_true_iff in H. intros I. apply existsb_eqb_In in I. congruence.
    + apply negb_true_iff. destruct (existsb (String.eqb k) _) eqn:E; [|reflexivity].
      apply existsb_eqb_In in E. contradiction.
Qed.

Lemma hasResponseSchemaChanged_removed_names_witness :
  let previous :=
    VObj [("type", VStr "object");
          ("properties", VObj [("id", VStr "number"); ("name", VStr "string")])] in
  let current :=
    VObj [("type", VStr "object");
          ("properties", VObj [("id", VStr "string"); ("email", VStr "string")])] in
  _hasResponseSchemaChanged VNull VNull = false
  /\ _hasResponseSchemaChanged previous VNull = true
  /\ (_hasResponseSchemaChanged previous current = true
      <-> exists k, In k (schema_property_keys previous)
                    /\ ~ In k (schema_property_keys current)).
Proof.
  intros previous current. split; [|split].
  - apply (proj1 (hasResponseSchemaChanged_removed_names VNull VNull));
      reflexivity.
  - apply (proj1 (proj2 (hasResponseSchemaChanged_removed_names previous VNull))).
    discriminate.
  - apply (proj2 (proj2 (hasResponseSchemaChanged_removed_names previous current)));
      reflexivity.
Defined.

Lemma analyzeChanges_bump (oldDocs newDocs : list Documentation) :
  let r := analyzeChanges oldDocs newDocs in
  match breakingChanges (changes r), newEndpoints (changes r) with
  | _ :: _, _ => bumpType r = major
  | [], _ :: _ => bumpType r = minor
  | [], [] => bumpType r = patch
  end.
Proof.
  cbv zeta. unfold analyzeChanges. cbv zeta.
  set (cs := modified_endpoints_loop _ _ _). clearbody cs.
  destruct (breakingChanges cs) eqn:B.
  - destruct (newEndpoints cs) eqn:N.
    + destruct (modifiedEndpoints cs), (internalChanges cs);
        cbn [changes bumpType]; rewrite B, N; reflexivity.
    + cbn [changes bumpType]. rewrite B, N. reflexivity.
  - cbn [changes bumpType]. rewrite B. reflexivity.
Qed.

Lemma analyzeChanges_newEndpoints (oldDocs newDocs : list Documentation) :
  newEndpoints (changes (analyzeChanges oldDocs newDocs))
  = map endpoint (added_records oldDocs newDocs).
Proof.
  rewrite analyzeChanges_changes. cbn [newEndpoints].
  unfold added_records. now rewrite map_map.
Qed.

(** X21.  Every key of the current snapshot that the previous one lacks
    is reported in [newEndpoints], with the record stored under it, and
    [newEndpoints] holds nothing else; when nothing breaking was found
    the bump is then [minor]. *)
Theorem analyzeChanges_new_endpoints (oldDocs newDocs : list Documentation) :
  let r := analyzeChanges oldDocs newDocs in
  newEndpoints (changes r) = map endpoint (added_records oldDocs newDocs)
  /\ (forall d,
         In d newDocs ->
         (forall d', In d' oldDocs -> doc_key d' <> doc_key d) ->
         exists stored,
           JSMap.get (doc_key d) (doc_map newDocs) = Some stored
           /\ In stored newDocs /\ doc_key stored = doc_key d
           /\ In (endpoint stored) (newEndpoints (changes r))
           /\ (breakingChanges (changes r) = [] -> bumpType r = minor)).
Proof.
  cbv zeta. split; [apply analyzeChanges_newEndpoints|].
  intros d Hd Habs.
  pose proof (doc_map_has newDocs d Hd) as Hh. unfold JSMap.has in Hh.
  destruct (JSMap.get (doc_key d) (doc_map newDocs)) as [stored|] eqn:G;
    [|discriminate].
  exists stored. destruct (doc_map_get _ _ _ G) as [Hin Hk].
  assert (A : In (endpoint stored)
                 (newEndpoints (changes (analyzeChanges oldDocs newDocs)))).
  { rewrite analyzeChanges_newEndpoints. apply in_map. unfold added_records.
    apply in_map_iff. exists (doc_key d, stored). split; [reflexivity|].
    apply filter_In. split; [now apply map_get_In|].
    cbn [fst]. apply negb_true_iff. unfold JSMap.has.
    destruct (JSMap.get (doc_key d) (doc_map oldDocs)) as [d'|] eqn:G';
      [|reflexivity].
    destruct (doc_map_get _ _ _ G') as [Hin' Hk']. now apply Habs in Hin'. }
  do 4 (split; [first [reflexivity | assumption]|]).
  intros B. pose proof (analyzeChanges_bump oldDocs newDocs) as D. cbv zeta in D.
  rewrite B in D.
  destruct (newEndpoints (changes (analyzeChanges oldDocs newDocs)));
    [destruct A|exact D].
Qed.

Lemma analyzeChanges_new_endpoints_witness :
  let prev := [plain_record "GET" "/b" [] []] in
  let curr := [plain_record "GET" "/b" [] []; plain_record "POST" "/a" [] []] in
  exists stored,
    JSMap.get "POST:/a" (doc_map curr) = Some stored
    /\ In stored curr /\ doc_key stored = "POST:/a"
    /\ In (endpoint stored) (newEndpoints (changes (analyzeChanges prev curr)))
    /\ (breakingChanges (changes (analyzeChanges prev curr)) = []
        -> bumpType (analyzeChanges prev curr) = minor).
Proof.
  intros prev curr.
  apply (proj2 (analyzeChanges_new_endpoints prev curr)
               (plain_record "POST" "/a" [] [])).
  - right. now left.
  - intros d' [<-|[]]. discriminate.
Defined.

(** X22.  The bump in terms of the two snapshots.  It is [major] exactly
    when a key of the previous snapshot is gone or a key found in both has
    a breaking modification; otherwise it is [minor] exactly when the
    current snapshot has a key the previous one lacks, and [patch] when it
    has none. *)
Theorem analyzeChanges_bump_decision (oldDocs newDocs : list Documentation) :
  let r := analyzeChanges oldDocs newDocs in
  let breaking :=
    removed_records oldDocs newDocs <> []
    \/ exists on, In on (common_records oldDocs newDocs)
                  /\ hasBreakingChanges (_detectModifications (fst on) (snd on)) = true in
  (bumpType r = major <-> breaking)
  /\ (bumpType r = minor <-> ~ breaking /\ added_records oldDocs newDocs <> [])
  /\ (bumpType r = patch <-> ~ breaking /\ added_records oldDocs newDocs = []).
Proof.
  cbv zeta.
  pose proof (analyzeChanges_bump oldDocs newDocs) as D. cbv zeta in D.
  pose proof (analyzeChanges_newEndpoints oldDocs newDocs) as N.
  assert (B : breakingChanges (changes (analyzeChanges oldDocs newDocs)) <> []
              <-> removed_records oldDocs newDocs <> []
                  \/ exists on, In on (common_records oldDocs newDocs)
                                /\ hasBreakingChanges
                                     (_detectModifications (fst on) (snd on)) = true).
  { rewrite analyzeChanges_changes. cbn [breakingChanges]. split.
    - intros H. destruct (removed_records oldDocs newDocs) as [|d ds];
        [|left; discriminate].
      right. cbn [map app] in H.
      destruct (flat_map breaking_of (common_records oldDocs newDocs)) as [|m ms] eqn:E;
        [now destruct H|].
      assert (I : In m (flat_map breaking_of (common_records oldDocs newDocs)))
        by (rewrite E; now left).
      apply in_flat_map in I as (on & Hon & I). exists on. split; [exact Hon|].
      apply (proj1 (detectModifications_flags (fst on) (snd on))).
      unfold breaking_of in I. intros Z. rewrite Z in I. destruct I.
    - intros [H|(on & Hon & H)].
      + destruct (removed_records oldDocs newDocs); [now destruct H|discriminate].
      + apply (proj1 (detectModifications_flags (fst on) (snd on))) in H.
        intros Z. apply app_eq_nil in Z as [_ Z].
        destruct (mod_breakingChanges (_detectModifications (fst on) (snd on)))
          as [|m ms] eqn:E; [now destruct H|].
        assert (I : In m (flat_map breaking_of (common_records oldDocs newDocs))).
        { apply in_flat_map. exists on. split; [exact Hon|].
          unfold breaking_of. rewrite E. now left. }
        rewrite Z in I. destruct I. }
  rewrite <- B.
  assert (M : map endpoint (added_records oldDocs newDocs) = []
              <-> added_records oldDocs newDocs = []).
  { destruct (added_records oldDocs newDocs); cbn [map]; split; congruence. }
  rewrite <- M, <- N.
  destruct (breakingChanges (changes (analyzeChanges oldDocs newDocs))) as [|b bs];
    destruct (newEndpoints (changes (analyzeChanges oldDocs newDocs))) as [|n ns];
    rewrite D; intuition (discriminate || congruence).
Qed.

End ChangeInvariants.

(** ** The OpenAPI generator *)

Section OpenAPI.
Import JSString OpenAPIGenerator OpenAPISpec.

Lemma generateParameters_map (ps : list GeneratorParameter) :
  _generateParameters (Some ps)
  = map (fun param =>
           VObj [("name", param_name (descriptor param));
                 ("in", VStr (param_in (descriptor param)));
                 ("description", VStr (description_text (descriptor param)));
                 ("required", VBool (param_required (descriptor param) || false));
                 ("schema",
                  JS.or (own_schema param)
                        (VObj [("type",
                                VStr (or_text (param_type (descriptor param))
                                              "string"))]));
                 ("example", own_example param)])
        (filter (fun param => negb (is_body (descriptor param))) ps).
Proof. destruct ps; reflexivity. Qed.

Lemma or_text_nonempty (a b : string) : b <> "" -> or_text a b <> "".
Proof.
  intros H. unfold or_text. destruct (String.eqb a "") eqn:E; [exact H|].
  now apply String.eqb_neq.
Qed.

(** X23.  [_generateParameters] lists the parameters that are not located
    in the body, in their order, under their names, locations, required
    flags and examples; no entry is located in the body.  Every entry
    has a schema: the own schema of the parameter when it has one, and
    else a schema built from its type, which is then not empty.  A
    missing list gives no entry. *)
Theorem generateParameters_leaves_body_out (ps : list GeneratorParameter) :
  let kept := filter (fun p => negb (is_body (descriptor p))) ps in
  let out := _generateParameters (Some ps) in
  map (JS.prop "name") out = map (fun p => param_name (descriptor p)) kept
  /\ map (JS.prop "in") out = map (fun p => VStr (param_in (descriptor p))) kept
  /\ map (JS.prop "required") out
     = map (fun p => VBool (param_required (descriptor p))) kept
  /\ map (JS.prop "example") out = map own_example kept
  /\ Forall (fun o => JS.prop "in" o <> VStr "body"
                      /\ JS.truthy (JS.prop "schema" o) = true) out
  /\ Forall2 (fun p o =>
                (JS.truthy (own_schema p) = true -> JS.prop "schema" o = own_schema p)
                /\ (JS.truthy (own_schema p) = false ->
                    exists t, JS.prop "schema" o = VObj [("type", VStr t)]
                              /\ t <> ""))
             kept out
  /\ _generateParameters None = [].
Proof.
  cbv zeta. rewrite generateParameters_map.
  induction ps as [|p ps IH]; cbn [filter map].
  - repeat split; constructor.
  - destruct IH as (N & I & R & X & F & S & E).
    destruct (negb (is_body (descriptor p))) eqn:B; [|repeat split; assumption].
    cbn [map]. rewrite N, I, R, X.
    assert (P : JS.prop "schema"
                  (VObj [("name", param_name (descriptor p));
                         ("in", VStr (param_in (descriptor p)));
                         ("description", VStr (description_text (descriptor p)));
                         ("required", VBool (param_required (descriptor p) || false));
                         ("schema",
                          JS.or (own_schema p)
                                (VObj [("type",
                                        VStr (or_text (param_type (descriptor p))
                                                      "string"))]));
                         ("example", own_example p)])
                = JS.or (own_schema p)
                        (VObj [("type",
                                VStr (or_text (param_type (descriptor p)) "string"))]))
      by reflexivity.
    split; [reflexivity|]. split; [reflexivity|].
    split; [cbn; now rewrite orb_false_r|]. split; [reflexivity|].
    split; [|split; [|reflexivity]].
    + constructor; [|exact F]. split.
      * cbn. intros [= H]. unfold is_body in B. rewrite H in B. discriminate.
      * rewrite P. unfold JS.or. now destruct (JS.truthy (own_schema p)) eqn:T.
    + constructor; [|exact S]. rewrite P. unfold JS.or. split; intros T; rewrite T.
      * reflexivity.
      * eexists. split; [reflexivity|]. now apply or_text_nonempty.
Qed.

Lemma generateParameters_leaves_body_out_witness :
  let ps := [mkGeneratorParameter
               (mkParameter (VStr "id") "path" "" true (Some "Path parameter: id"))
               VUndefined VUndefined;
             mkGeneratorParameter
               (mkParameter (VStr "email") "body" "unknown" false None)
               VUndefined VUndefined;
             mkGeneratorParameter
               (mkParameter (VStr "limit") "query" "string" false None)
               (VObj [("type", VStr "integer")]) (VNum 10)] in
  Forall2 (fun p o =>
             (JS.truthy (own_schema p) = true -> JS.prop "schema" o = own_schema p)
             /\ (JS.truthy (own_schema p) = false ->
                 exists t, JS.prop "schema" o = VObj [("type", VStr t)] /\ t <> ""))
          (filter (fun p => negb (is_body (descriptor p))) ps)
          (_generateParameters (Some ps))
  /\ JS.prop "schema" (nth 1 (_generateParameters (Some ps)) VNull)
     = VObj [("type", VStr "integer")]
  /\ exists t, JS.prop "schema" (nth 0 (_generateParameters (Some ps)) VNull)
               = VObj [("type", VStr t)] /\ t <> "".
Proof.
  intros ps.
  destruct (generateParameters_leaves_body_out ps) as (_ & _ & _ & _ & _ & S & _).
  cbv zeta in S. split; [exact S|].
  inversion S as [|p o kept out [_ U] S' Ek Eo]. subst.
  inversion S' as [|p' o' kept' out' [O _] S'' Ek' Eo']. subst.
  split.
  - apply O. reflexivity.
  - apply U. reflexivity.
Defined.

Lemma build_properties_keys (k : string) (ps : list ParameterDescriptor) :
  k <> "__proto__" ->
  forall acc,
    JS.get k (fold_left
                (fun properties param =>
                   JS.assign (JS.to_string (param_name param))
                             (VObj [("type", VStr (or_text (param_type param) "string"));
                                    ("description", VStr (description_text param))])
                             properties)
                ps acc) <> None
    <-> JS.get k acc <> None
        \/ exists p, In p ps /\ JS.to_string (param_name p) = k.
Proof.
  intros Hk. induction ps as [|p ps IH]; intros acc; cbn [fold_left].
  - split; [now left|]. intros [H|(p & [] & _)]. exact H.
  - rewrite IH. destruct (string_dec k (JS.to_string (param_name p))) as [E|N].
    + rewrite <- E. rewrite get_assign_same by assumption. split.
      * intros _. right. exists p. split; [now left|now symmetry].
      * intros _. left. discriminate.
    + rewrite get_assign_other by assumption. split.
      * intros [H|(q & Hq & Eq)]; [now left|]. right. exists q. split; [now right|exact Eq].
      * intros [H|(q & [->|Hq] & Eq)]; [now left| |].
        -- now symmetry in Eq.
        -- right. now exists q.
Qed.

Lemma build_required_names (ps : list ParameterDescriptor) :
  forall acc,
    fold_left (fun required param =>
                 if param_required param
                 then (required ++ [param_name param])%list
                 else required)
              ps acc
    = (acc ++ map param_name (filter param_required ps))%list.
Proof.
  induction ps as [|p ps IH]; intros acc; cbn [fold_left filter].
  - now rewrite app_nil_r.
  - rewrite IH. destruct (param_required p); [|reflexivity].
    cbn [map]. now rewrite <- app_assoc.
Qed.

Lemma schema_properties (t p r : jsval) :
  JS.prop "properties" (VObj [("type", t); ("properties", p); ("required", r)]) = p.
Proof. reflexivity. Qed.

Lemma request_schema_content (d r schema example : jsval) :
  request_schema
    (VObj [("description", d); ("required", r);
           ("content",
            VObj [("application/json",
                   VObj [("schema", schema); ("example", example)])])])
  = schema.
Proof. reflexivity. Qed.

Lemma buildSchema_property_keys (bodyParams : list ParameterDescriptor) (k : string) :
  k <> "__proto__" ->
  (JS.get k (JS.entries (JS.prop "properties" (_buildSchemaFromParams bodyParams)))
     <> None
   <-> exists p, In p bodyParams /\ JS.to_string (param_name p) = k).
Proof.
  intros Hk. unfold _buildSchemaFromParams. cbv zeta.
  rewrite schema_properties. cbn [JS.entries].
  rewrite build_properties_keys by assumption. cbn [JS.get]. split.
  - intros [H|H]; [congruence|exact H].
  - intros H. now right.
Qed.

(** X24.  The schema [_buildSchemaFromParams] builds has one property for
    every parameter name (a repeated name gives one property, and
    [__proto__] aside), and lists the names of the required parameters in
    order; with no required parameter the list is left out. *)
Theorem buildSchemaFromParams_properties (bodyParams : list ParameterDescriptor) :
  let schema := _buildSchemaFromParams bodyParams in
  (forall k, k <> "__proto__" ->
             (JS.get k (JS.entries (JS.prop "properties" schema)) <> None
              <-> exists p, In p bodyParams /\ JS.to_string (param_name p) = k))
  /\ JS.prop "required" schema
     = match map param_name (filter param_required bodyParams) with
       | [] => VUndefined
       | names => VArr names
       end
  /\ JS.prop "type" schema = VStr "object".
Proof.
  cbv zeta. split; [apply buildSchema_property_keys|].
  unfold _buildSchemaFromParams. cbv zeta. split.
  - rewrite build_required_names. cbn [app].
    destruct (map param_name (filter param_required bodyParams)); reflexivity.
  - reflexivity.
Qed.

Lemma buildSchemaFromParams_properties_witness :
  let ps := [mkParameter (VStr "name") "body" "string" true None;
             mkParameter (VStr "age") "body" "" false None;
             mkParameter (VStr "name") "body" "unknown" false None] in
  JS.get "name" (JS.entries (JS.prop "properties" (_buildSchemaFromParams ps))) <> None
  <-> exists p, In p ps /\ JS.to_string (param_name p) = "name".
Proof.
  intros ps. apply (proj1 (buildSchemaFromParams_properties ps) "name"). discriminate.
Defined.

(** X25.  [_generateRequestBody] answers [null] exactly when the record
    has no request schema and no parameter located in the body.
    Otherwise the body is required and its schema is the request schema
    of the record when there is one, and else the schema built from the
    parameters located in the body: the other parameters never reach
    it. *)
Theorem generateRequestBody_schema (doc : Documentation) :
  let body := _generateRequestBody doc in
  (body = VNull
   <-> JS.truthy (requestSchema doc) = false
       /\ forall p, In p (parameters doc) -> is_body p = false)
  /\ (body <> VNull -> JS.prop "required" body = VBool true)
  /\ (JS.truthy (requestSchema doc) = true -> request_schema body = requestSchema doc)
  /\ (JS.truthy (requestSchema doc) = false ->
      forall k, k <> "__proto__" ->
        (JS.get k (JS.entries (JS.prop "properties" (request_schema body))) <> None
         <-> exists p, In p (parameters doc) /\ is_body p = true
                       /\ JS.to_string (param_name p) = k)).
Proof.
  cbv zeta. unfold _generateRequestBody. cbv zeta. fold is_body.
  assert (X : existsb is_body (parameters doc) = false
              <-> forall p, In p (parameters doc) -> is_body p = false).
  { split.
    - intros H p Hp. destruct (is_body p) eqn:B; [|reflexivity].
      assert (existsb is_body (parameters doc) = true)
        by (apply existsb_exists; now exists p).
      congruence.
    - intros H. destruct (existsb is_body (parameters doc)) eqn:E; [|reflexivity].
      apply existsb_exists in E as (p & Hp & B). rewrite (H p Hp) in B. discriminate. }
  destruct (JS.truthy (requestSchema doc)) eqn:T; cbn [negb andb].
  - split; [split; [discriminate|intros [H _]; discriminate]|].
    split; [reflexivity|]. split; [reflexivity|]. discriminate.
  - destruct (existsb is_body (parameters doc)) eqn:E; cbn [negb].
    + split.
      { split; [discriminate|]. intros [_ H]. apply X in H. discriminate. }
      split; [reflexivity|]. split; [discriminate|]. intros _ k Hk.
      rewrite request_schema_content.
      rewrite (buildSchema_property_keys _ k Hk).
      split; intros (p & Hp & N); exists p.
      * apply filter_In in Hp. tauto.
      * split; [apply filter_In; tauto|tauto].
    + split.
      { split; [intros _; split; [reflexivity|now apply X]|reflexivity]. }
      split; [congruence|]. split; [discriminate|]. intros _ k Hk.
      cbn. split; [congruence|]. intros (p & Hp & B & _).
      rewrite (proj1 X eq_refl p Hp) in B. discriminate.
Qed.

Lemma generateRequestBody_schema_witness :
  let doc :=
    mkDocumentation "POST" "/users" "createUser" "function" []
      [mkParameter (VStr "id") "path" "string" true None;
       mkParameter (VStr "email") "body" "unknown" false None]
      VNull VNull [] (VObj []) (VObj []) false VUndefined in
  JS.get "email"
         (JS.entries (JS.prop "properties" (request_schema (_generateRequestBody doc))))
    <> None
  <-> exists p, In p (parameters doc) /\ is_body p = true
                /\ JS.to_string (param_name p) = "email".
Proof.
  intros doc.
  apply (proj2 (proj2 (proj2 (generateRequestBody_schema doc))) eq_refl "email").
  discriminate.
Defined.

Lemma collapse_underscores_startsWith (s : string) :
  startsWith "_" (collapse_underscores s) = startsWith "_" s.
Proof.
  induction s as [|c s IH]; [reflexivity|].
  cbn [collapse_underscores].
  destruct (Ascii.eqb c "_") eqn:Hc.
  - apply Ascii.eqb_eq in Hc. subst c.
    destruct (startsWith "_" s) eqn:Hs; [now rewrite IH|reflexivity].
  - reflexivity.
Qed.

Lemma collapse_underscores_no_double (s : string) :
  no_double_underscore (collapse_underscores s) = true.
Proof.
  induction s as [|c s IH]; [reflexivity|].
  cbn [collapse_underscores].
  destruct (Ascii.eqb c "_") eqn:Hc.
  - destruct (startsWith "_" s) eqn:Hs; [exact IH|].
    cbn [no_double_underscore]. rewrite collapse_underscores_startsWith, Hs, IH.
    reflexivity.
  - cbn [no_double_underscore]. rewrite Hc, IH. reflexivity.
Qed.

Lemma collapse_underscores_has_char (a : ascii) (s : string) :
  has_char a s = false -> has_char a (collapse_underscores s) = false.
Proof.
  induction s as [|c s IH]; intros H; [reflexivity|].
  cbn [has_char] in H. apply orb_false_iff in H as [Hc Hs].
  cbn [collapse_underscores].
  destruct (Ascii.eqb c "_") eqn:U.
  - destruct (startsWith "_" s); [now apply IH|].
    apply Ascii.eqb_eq in U. subst c. cbn [has_char]. rewrite Hc. now apply IH.
  - cbn [has_char]. rewrite Hc. now apply IH.
Qed.

(** X26.  A component schema name is a base, the method and the suffix,
    joined by underscores; the base has no separator, no colon and no
    two underscores in a row, whatever the path. *)
Theorem generateSchemaName_shape (doc : Documentation) (suffix : string) :
  exists base,
    _generateSchemaName doc suffix = base ++ "_" ++ method doc ++ "_" ++ suffix
    /\ has_char "/" base = false
    /\ has_char ":" base = false
    /\ no_double_underscore base = true.
Proof.
  unfold _generateSchemaName. cbv zeta. eexists. split; [reflexivity|].
  unfold schema_base_name. split; [|split].
  - apply collapse_underscores_has_char.
    apply replaceAll_from_has_char; [reflexivity|].
    now apply replaceAll_char_removed.
  - apply collapse_underscores_has_char. now apply replaceAll_char_removed.
  - apply collapse_underscores_no_double.
Qed.

End OpenAPI.

(** ** What the analysis saw becomes a parameter *)

Section RequestParameters.
Import DocumentationBuilder.

Lemma push_all_parameters (mk : jsval -> ParameterDescriptor) (fs : list jsval) :
  forall doc,
    parameters (fold_left (fun doc field => push_parameter (mk field) doc) fs doc)
    = (parameters doc ++ map mk fs)%list.
Proof.
  induction fs as [|f fs IH]; intros doc; cbn [fold_left map].
  - now rewrite app_nil_r.
  - rewrite IH. cbn [push_parameter set_parameters parameters].
    now rewrite <- app_assoc.
Qed.

Lemma is_not_ALL_iff (f : jsval) : is_not_ALL f = true <-> f <> VStr "__ALL__".
Proof.
  unfold is_not_ALL. rewrite negb_true_iff. split.
  - intros H ->. now rewrite jsval_eqb_refl in H.
  - intros H. destruct (JS.eqb f (VStr "__ALL__")) eqn:E; [|reflexivity].
    now apply jsval_eqb_true in E.
Qed.

Lemma push_unless_present (fs : list jsval) :
  forall doc,
    let doc' :=
      fold_left (fun doc field =>
                   if existsb (fun p => JS.eqb (param_name p) field
                                        && String.eqb (param_in p) "path")
                              (parameters doc)
                   then doc
                   else push_parameter (path_parameter field) doc)
                fs doc in
    (exists added, parameters doc' = (parameters doc ++ added)%list)
    /\ forall f, In f fs ->
                 exists p, In p (parameters doc') /\ param_name p = f
                           /\ param_in p = "path".
Proof.
  induction fs as [|f fs IH]; intros doc; cbn [fold_left]; cbv zeta.
  - split; [exists []; now rewrite app_nil_r|]. intros f [].
  - match goal with |- context [fold_left ?g fs ?a] =>
      destruct (IH a) as [(added & E) C]; set (doc' := fold_left g fs a) in * end.
    cbv zeta in E, C.
    assert (A : exists more, parameters doc' = (parameters doc ++ more)%list
                             /\ exists p, In p (parameters doc ++ more)%list
                                          /\ param_name p = f /\ param_in p = "path").
    { destruct (existsb _ (parameters doc)) eqn:X.
      - exists added. split; [exact E|].
        apply existsb_exists in X as (p & Hp & H).
        apply andb_true_iff in H as [N I].
        exists p. split; [apply in_or_app; now left|].
        split; [now apply jsval_eqb_true|now apply String.eqb_eq].
      - exists (path_parameter f :: added). rewrite E.
        cbn [push_parameter set_parameters parameters]. rewrite <- app_assoc.
        split; [reflexivity|]. exists (path_parameter f).
        split; [apply in_or_app; right; now left|]. now split. }
    destruct A as (more & E' & p & Hp & N & I).
    split; [now exists more|].
    intros g [<-|Hg]; [|now apply C].
    exists p. rewrite E'. now repeat split.
Qed.

(** X27.  Nothing the analysis saw is lost: every field it recorded for
    the body, the query, the route parameters or the headers, the
    sentinel [__ALL__] aside, is a parameter of the record at that
    location afterwards, and the parameters the record had stay in
    front.  Only a field of the route parameters is required. *)
Theorem extractRequestParameters_complete (analysis : ASTAnalyzer.FunctionAnalysis)
        (doc : Documentation) (f : jsval) :
  let usage := ASTAnalyzer.requestUsage analysis in
  let after := parameters (_extractRequestParameters analysis doc) in
  f <> VStr "__ALL__" ->
  (exists added, after = (parameters doc ++ added)%list)
  /\ (In f (ASTAnalyzer.body usage) ->
      In (mkParameter f "body" "unknown" false
                      (Some ("Body parameter: " ++ JS.to_string f))) after)
  /\ (In f (ASTAnalyzer.query usage) ->
      In (mkParameter f "query" "string" false
                      (Some ("Query parameter: " ++ JS.to_string f))) after)
  /\ (In f (ASTAnalyzer.params usage) ->
      exists p, In p after /\ param_name p = f /\ param_in p = "path")
  /\ (In f (ASTAnalyzer.headers usage) ->
      In (mkParameter f "header" "string" false
                      (Some ("Header: " ++ JS.to_string f))) after).
Proof.
  cbv zeta. intros Hf. apply is_not_ALL_iff in Hf.
  unfold _extractRequestParameters. cbv zeta.
  set (usage := ASTAnalyzer.requestUsage analysis).
  set (mkb := fun field => mkParameter field "body" "unknown" false
                             (Some ("Body parameter: " ++ JS.to_string field))).
  set (mkq := fun field => mkParameter field "query" "string" false
                             (Some ("Query parameter: " ++ JS.to_string field))).
  set (mkh := fun field => mkParameter field "header" "string" false
                             (Some ("Header: " ++ JS.to_string field))).
  set (d1 := match ASTAnalyzer.body usage with [] => doc | _ :: _ => _ end).
  assert (S1 : parameters d1
               = (parameters doc
                    ++ map mkb (filter is_not_ALL (ASTAnalyzer.body usage)))%list).
  { subst d1. destruct (ASTAnalyzer.body usage) as [|b bs];
      [cbn; now rewrite app_nil_r|].
    pose proof (push_all_parameters mkb (filter is_not_ALL (b :: bs)) doc) as P.
    match goal with |- parameters (if ?c then _ else _) = _ => destruct c end;
      exact P. }
  clearbody d1.
  pose proof (push_all_parameters mkq (filter is_not_ALL (ASTAnalyzer.query usage)) d1)
    as S2.
  set (d2 := fold_left _ (filter is_not_ALL (ASTAnalyzer.query usage)) d1) in *.
  clearbody d2.
  destruct (push_unless_present (filter is_not_ALL (ASTAnalyzer.params usage)) d2)
    as [(a3 & S3) C3].
  cbv zeta in S3, C3.
  set (d3 := fold_left _ (filter is_not_ALL (ASTAnalyzer.params usage)) d2) in *.
  clearbody d3.
  pose proof (push_all_parameters mkh (filter is_not_ALL (ASTAnalyzer.headers usage)) d3)
    as S4.
  set (d4 := fold_left _ (filter is_not_ALL (ASTAnalyzer.headers usage)) d3) in *.
  clearbody d4.
  rewrite S4, S3, S2, S1.
  split; [|split; [|split; [|split]]].
  - rewrite <- !app_assoc. eexists. reflexivity.
  - intros H. apply in_or_app. left. apply in_or_app. left. apply in_or_app. left.
    apply in_or_app. right. apply (in_map mkb). now apply filter_In.
  - intros H. apply in_or_app. left. apply in_or_app. left.
    apply in_or_app. right. apply (in_map mkq). now apply filter_In.
  - intros H. destruct (C3 f) as (p & Hp & N & I); [now apply filter_In|].
    exists p. split; [|now split]. apply in_or_app. left.
    rewrite S3, S2, S1 in Hp. exact Hp.
  - intros H. apply in_or_app. right. apply (in_map mkh). now apply filter_In.
Qed.

Lemma extractRequestParameters_complete_witness :
  let usage := ASTAnalyzer.mkRequestUsage [VStr "name"; VStr "__ALL__"] [] [VStr "id"] [] in
  let analysis :=
    ASTAnalyzer.mkFunctionAnalysis (VStr "h") false false false [] usage
      (ASTAnalyzer.mkResponseUsage [] [] [] []) [] [] in
  let doc := DocumentationBuilder._createMinimalDoc
               (mkRoute "PUT" "/users/:id" "h" "function" [] ["id"] None false 2) "" in
  In (mkParameter (VStr "name") "body" "unknown" false (Some "Body parameter: name"))
     (parameters (_extractRequestParameters analysis doc)).
Proof.
  intros usage analysis doc.
  apply (extractRequestParameters_complete analysis doc (VStr "name")).
  - discriminate.
  - now left.
Defined.

End RequestParameters.

(** ** Schema files *)

Section SchemaFiles.
Import DocumentationBuilder AssemblySpec.

Variable schemaPath : string -> string -> string.
Variable readSchema : string -> option jsval.

Lemma spread_get (k : string) (es : list (string * jsval)) :
  NoDup (map fst es) ->
  forall o,
    JS.get k (fold_left (fun acc kv => JS.define (fst kv) (snd kv) acc) es o)
    = match JS.get k es with
      | Some v => Some v
      | None => JS.get k o
      end.
Proof.
  clear schemaPath readSchema.
  induction es as [|[k0 v0] es IH]; intros N o; [reflexivity|].
  cbn [fold_left fst snd JS.get]. inversion N as [|x xs Hx N']; subst.
  rewrite (IH N'). destruct (String.eqb k k0) eqn:E.
  - apply String.eqb_eq in E. subst k0.
    destruct (JS.get k es) as [v|] eqn:G.
    + exfalso. apply Hx. apply in_map_iff. exists (k, v). split; [reflexivity|].
      clear - G. induction es as [|[k1 v1] es IH]; [discriminate|].
      cbn [JS.get] in G. destruct (String.eqb k k1) eqn:E.
      * apply String.eqb_eq in E. subst. injection G as ->. now left.
      * right. now apply IH.
    + apply get_define_same.
  - apply String.eqb_neq in E. rewrite get_define_other by assumption. reflexivity.
Qed.

(** X28.  [_loadSchemas] changes the two schemas only (identity,
    parameters, status codes, examples and metadata stay), and a schema
    that has no readable file stays as it is.  A response schema file is
    merged into the detected schema key by key: the value of the file
    where the file has the key, the detected value elsewhere, and the
    path of the file under [schemaFile]. *)
Theorem loadSchemas_merge (doc : Documentation) :
  let routeName := _routeToSchemaName (method doc) (path doc) in
  let loaded := _loadSchemas schemaPath readSchema doc in
  identity loaded = identity doc
  /\ parameters loaded = parameters doc
  /\ statusCodes loaded = statusCodes doc
  /\ examples loaded = examples doc
  /\ metadata loaded = metadata doc
  /\ (readSchema (schemaPath "request" routeName) = None ->
      requestSchema loaded = requestSchema doc)
  /\ (readSchema (schemaPath "response" routeName) = None ->
      responseSchema loaded = responseSchema doc)
  /\ (forall detected file,
         responseSchema doc = VObj detected ->
         readSchema (schemaPath "response" routeName) = Some (VObj file) ->
         NoDup (map fst detected) -> NoDup (map fst file) ->
         forall k,
           JS.prop k (responseSchema loaded)
           = if String.eqb k "schemaFile"
             then VStr (schemaPath "response" routeName)
             else match JS.get k file with
                  | Some v => v
                  | None => JS.prop k (VObj detected)
                  end).
Proof.
  cbv zeta. unfold _loadSchemas. cbv zeta.
  set (routeName := _routeToSchemaName (method doc) (path doc)).
  set (d1 := match readSchema (schemaPath "request" routeName) with
             | Some _ => _ | None => doc end).
  assert (D1 : identity d1 = identity doc /\ parameters d1 = parameters doc
               /\ statusCodes d1 = statusCodes doc
               /\ examples d1 = examples doc
               /\ metadata d1 = metadata doc
               /\ responseSchema d1 = responseSchema doc
               /\ (readSchema (schemaPath "request" routeName) = None ->
                   requestSchema d1 = requestSchema doc)).
  { subst d1. destruct (readSchema (schemaPath "request" routeName));
      repeat split; try reflexivity. discriminate. }
  destruct D1 as (I1 & P1 & C1 & E1 & M1 & R1 & Q1). clearbody d1.
  destruct (readSchema (schemaPath "response" routeName)) as [parsed|] eqn:F.
  - split; [exact I1|]. split; [exact P1|]. split; [exact C1|].
    split; [exact E1|]. split; [exact M1|].
    split; [exact Q1|]. split; [discriminate|].
    intros detected file Hd [= ->] Nd Nf k.
    cbn [responseSchema set_responseSchema]. rewrite R1, Hd.
    cbn [JS.truthy set_schemaFile JS.prop].
    destruct (String.eqb k "schemaFile") eqn:E.
    + apply String.eqb_eq in E. subst k.
      now rewrite get_assign_same by discriminate.
    + apply String.eqb_neq in E. rewrite get_assign_other by assumption.
      unfold JS.spread_into. cbn [JS.entries].
      rewrite (spread_get k file Nf), (spread_get k detected Nd). cbn [JS.get].
      destruct (JS.get k file); [reflexivity|].
      destruct (JS.get k detected); reflexivity.
  - split; [exact I1|]. split; [exact P1|]. split; [exact C1|].
    split; [exact E1|]. split; [exact M1|].
    split; [exact Q1|]. split; [intros _; exact R1|].
    intros detected file _ [=].
Qed.

End SchemaFiles.

Section SchemaFilesWitness.
Import DocumentationBuilder.

Lemma loadSchemas_merge_witness :
  let detected := [("type", VStr "object"); ("example", VObj [("ok", VBool true)])] in
  let file := [("type", VStr "object"); ("title", VStr "User")] in
  let doc := mkDocumentation "GET" "/api/users" "list" "function" [] []
                             VNull (VObj detected) [] (VObj []) (VObj []) false
                             VUndefined in
  let read := fun p => if String.eqb p "response/users.get"
                       then Some (VObj file) else None in
  let loaded := _loadSchemas (fun kind n => kind ++ "/" ++ n) read doc in
  JS.prop "title" (responseSchema loaded) = VStr "User"
  /\ JS.prop "example" (responseSchema loaded) = VObj [("ok", VBool true)]
  /\ requestSchema loaded = VNull.
Proof.
  intros detected file doc read loaded.
  pose proof (loadSchemas_merge (fun kind n => kind ++ "/" ++ n) read doc) as M.
  cbv zeta in M. destruct M as (_ & _ & _ & _ & _ & Q & _ & M).
  split; [|split].
  - apply (M detected file eq_refl eq_refl); repeat constructor; cbn; intuition discriminate.
  - apply (M detected file eq_refl eq_refl); repeat constructor; cbn; intuition discriminate.
  - apply Q. reflexivity.
Defined.

End SchemaFilesWitness.
